(** * AICodingAgent: the agent loop and its file-tree tools

    A shallow embedding of the conversation driver of [cli.js]
    ([executeCommand], [handleAIRequest]) and of the file-tree tools of
    [tools.js] ([browseDirectory], [findFiles], [globalSearchReplace]),
    followed by the properties the specification states about them.

    Conventions of the embedding.
    - JavaScript strings are [string]s over 8-bit characters.
    - A value that may be [undefined] is an [option]; [None] is [undefined].
    - An [await]ed call that may reject returns an [Outcome]; every
      awaited call settles (a call of the model or of a tool that never
      returns is outside the model).
    - What the host supplies (the model service, [JSON.parse], the regular
      expression engine outside a small fragment, locale collation) is a
      parameter of the definitions that use it. *)

From Stdlib Require Import String Ascii List ZArith Lia Bool Arith Permutation
  Sorted.
Import ListNotations.
Open Scope string_scope.
Set Warnings "-register-all".

(* ================================================================== *)
(** ** JavaScript values used by the program *)
(* ================================================================== *)

Module Js.

(** The line feed, written [\n] in the source. *)
Definition nl : string := String (ascii_of_nat 10) EmptyString.

(** [s.includes(sub)]. *)
Fixpoint includes (s sub : string) : bool :=
  String.prefix sub s
  || match s with
     | EmptyString => false
     | String _ s' => includes s' sub
     end.

(** [s.startsWith(p)]. *)
Definition startsWith (s p : string) : bool := String.prefix p s.

(** [arr.includes(x)] on an array of strings. *)
Definition arr_includes (arr : list string) (x : string) : bool :=
  existsb (String.eqb x) arr.

(** [arr.join(sep)]. *)
Fixpoint join (sep : string) (arr : list string) : string :=
  match arr with
  | [] => EmptyString
  | [x] => x
  | x :: rest => x ++ sep ++ join sep rest
  end.

(** [s.split(sep)] for a string separator.  The scan goes left to right;
    after a match it resumes behind the matched text ([skip] counts the
    characters of the match still to be passed over). *)
Fixpoint split_scan (sep : string) (skip : nat) (piece : string) (s : string)
  : list string :=
  match s with
  | EmptyString => [piece]
  | String c s' =>
      match skip with
      | S k => split_scan sep k piece s'
      | O =>
          if String.prefix sep s
          then piece :: split_scan sep (String.length sep - 1) EmptyString s'
          else split_scan sep 0 (piece ++ String c EmptyString) s'
      end
  end.

Definition split (s sep : string) : list string :=
  match sep with
  | EmptyString => map (fun c => String c EmptyString) (list_ascii_of_string s)
  | _ => split_scan sep 0 EmptyString s
  end.

(** The characters with a meaning of their own in a regular expression
    source. *)
Definition regex_special (c : ascii) : bool :=
  existsb (Ascii.eqb c)
    ["\"%char; "^"%char; "$"%char; "."%char; "|"%char; "?"%char; "*"%char;
     "+"%char; "("%char; ")"%char; "["%char; "]"%char; "{"%char; "}"%char].

Definition all_chars (p : ascii -> bool) (s : string) : bool :=
  forallb p (list_ascii_of_string s).

(** A regular expression source in which every character stands for
    itself. *)
Definition literal_source (src : string) : bool :=
  all_chars (fun c => negb (regex_special c)) src.

(** A replacement text without [$] patterns. *)
Definition plain_replacement (r : string) : bool :=
  all_chars (fun c => negb (Ascii.eqb c "$"%char)) r.

(** Replacing every match of a non-empty literal [pat], left to right,
    matches not overlapping. *)
Fixpoint replace_scan (pat rep : string) (skip : nat) (s : string) : string :=
  match s with
  | EmptyString => EmptyString
  | String c s' =>
      match skip with
      | S k => replace_scan pat rep k s'
      | O =>
          if String.prefix pat s
          then rep ++ replace_scan pat rep (String.length pat - 1) s'
          else String c (replace_scan pat rep 0 s')
      end
  end.

(** [s.replace(/\*/g, with_)]: the pattern is the literal star. *)
Definition replace_stars (s with_ : string) : string :=
  replace_scan "*" with_ 0 s.

(** *** Regular expressions: the fragment the model interprets

    Sources of the form [^ item* $] where an item is a literal character
    or the dot, optionally followed by a star.  This covers every source
    [findFiles] builds from a pattern whose only special characters are
    the star and the dot. *)
Inductive Atom : Type :=
| ALit (c : ascii)
| ADot.

Inductive Item : Type :=
| Once (a : Atom)
| Star (a : Atom).

(** The dot matches any character but a line terminator. *)
Definition line_terminator (c : ascii) : bool :=
  Ascii.eqb c (ascii_of_nat 10) || Ascii.eqb c (ascii_of_nat 13).

Definition atom_matches (a : Atom) (c : ascii) : bool :=
  match a with
  | ALit d => Ascii.eqb c d
  | ADot => negb (line_terminator c)
  end.

Definition atom_of (c : ascii) : option Atom :=
  if Ascii.eqb c "."%char then Some ADot
  else if regex_special c then None
  else Some (ALit c).

(** Items of a source without anchors; [None] outside the fragment.  A
    star quantifies the atom before it; a star with no atom before it, or
    a second quantifier, is outside the fragment. *)
Fixpoint parse_items (src : string) : option (list Item) :=
  match src with
  | EmptyString => Some []
  | String c rest =>
      match atom_of c with
      | None => None
      | Some a =>
          match rest with
          | String q rest' =>
              if Ascii.eqb q "*"%char
              then option_map (cons (Star a)) (parse_items rest')
              else option_map (cons (Once a)) (parse_items rest)
          | EmptyString => Some [Once a]
          end
      end
  end.

(** The text between a leading [^] and a trailing [$]. *)
Fixpoint strip_dollar (s : string) : option string :=
  match s with
  | EmptyString => None
  | String c EmptyString =>
      if Ascii.eqb c "$"%char then Some EmptyString else None
  | String c s' => option_map (String c) (strip_dollar s')
  end.

Definition strip_anchors (src : string) : option string :=
  match src with
  | String c body => if Ascii.eqb c "^"%char then strip_dollar body else None
  | EmptyString => None
  end.

(** Does the whole subject match the items? *)
Fixpoint items_match (r : list Item) : string -> bool :=
  match r with
  | [] => fun s => match s with EmptyString => true | _ => false end
  | Once a :: r' =>
      fun s =>
        match s with
        | EmptyString => false
        | String c s' => atom_matches a c && items_match r' s'
        end
  | Star a :: r' =>
      fix star (s : string) : bool :=
        items_match r' s
        || match s with
           | EmptyString => false
           | String c s' => atom_matches a c && star s'
           end
  end.

Definition fragment_test (src subject : string) : option bool :=
  match strip_anchors src with
  | None => None
  | Some body =>
      match parse_items body with
      | None => None
      | Some items => Some (items_match items subject)
      end
  end.

(** The regular expression engine of the host, consulted outside the
    fragment.  [None] is a [SyntaxError] thrown by [new RegExp]. *)
Record RegExpHost : Type := {
  host_test : string -> string -> option bool;
  host_replace_all : string -> string -> string -> option string
}.

(** [new RegExp(src).test(subject)]. *)
Definition RegExp_test (h : RegExpHost) (src subject : string) : option bool :=
  match fragment_test src subject with
  | Some b => Some b
  | None => host_test h src subject
  end.

Definition nonempty (s : string) : bool :=
  match s with EmptyString => false | _ => true end.

(** [content.replace(new RegExp(src, 'g'), rep)]. *)
Definition RegExp_replace_all (h : RegExpHost) (src content rep : string)
  : option string :=
  if nonempty src && literal_source src && plain_replacement rep
  then Some (replace_scan src rep 0 content)
  else host_replace_all h src content rep.

(** *** Errors and outcomes *)

(** An [Error] object: its class name, its message and the place it was
    created at (which the host turns into the [stack] text). *)
Record JsError : Type := {
  err_name : string;
  err_message : string;
  err_site : string
}.

Definition new_Error (site msg : string) : JsError :=
  {| err_name := "Error"; err_message := msg; err_site := site |}.

Definition new_TypeError (site msg : string) : JsError :=
  {| err_name := "TypeError"; err_message := msg; err_site := site |}.

(** The settlement of an awaited promise. *)
Inductive Outcome (A : Type) : Type :=
| Resolved (a : A)
| Rejected (e : JsError).
Arguments Resolved {A} a.
Arguments Rejected {A} e.

(** *** JSON values *)
Inductive Json : Type :=
| JNull
| JBool (b : bool)
| JNum (lexeme : string)
| JStr (s : string)
| JArr (items : list Json)
| JObj (fields : list (string * Json)).

(** [o[k]] on the fields of a parsed object. *)
Fixpoint lookup_field (fields : list (string * Json)) (k : string)
  : option Json :=
  match fields with
  | [] => None
  | (k', v) :: rest => if String.eqb k k' then Some v else lookup_field rest k
  end.

(** [v.k] for a value that is neither [null] nor [undefined]: a property
    of a parsed object, [undefined] on the other values (none of the
    names the program reads is a property of a number, string, boolean
    or array). *)
Definition get (v : Json) (k : string) : option Json :=
  match v with
  | JObj fields => lookup_field fields k
  | _ => None
  end.

End Js.

(** A destructuring default: [const { x = d } = input]. *)
Definition or_default {A : Type} (d : A) (x : option A) : A :=
  match x with
  | Some v => v
  | None => d
  end.

(* ================================================================== *)
(** ** Node's [path.extname] (POSIX flavour) *)
(* ================================================================== *)

Module NodePath.
Local Open Scope Z_scope.

Record Scan : Type := {
  startDot : Z;
  startPart : Z;
  end_ : Z;
  matchedSlash : bool;
  preDotState : Z;
  stopped : bool
}.

Definition scan0 : Scan :=
  {| startDot := -1; startPart := 0; end_ := -1; matchedSlash := true;
     preDotState := 0; stopped := false |}.

(** One turn of the loop [for (i = path.length - 1; i >= 0; --i)]. *)
Definition scan_step (i : Z) (code : ascii) (st : Scan) : Scan :=
  if stopped st then st
  else if Ascii.eqb code "/"%char then
    if negb (matchedSlash st)
    then {| startDot := startDot st; startPart := i + 1; end_ := end_ st;
            matchedSlash := matchedSlash st; preDotState := preDotState st;
            stopped := true |}
    else st
  else
    let st1 :=
      if end_ st =? -1
      then {| startDot := startDot st; startPart := startPart st;
              end_ := i + 1; matchedSlash := false;
              preDotState := preDotState st; stopped := false |}
      else st in
    if Ascii.eqb code "."%char then
      if startDot st1 =? -1
      then {| startDot := i; startPart := startPart st1; end_ := end_ st1;
              matchedSlash := matchedSlash st1;
              preDotState := preDotState st1; stopped := false |}
      else if negb (preDotState st1 =? 1)
      then {| startDot := startDot st1; startPart := startPart st1;
              end_ := end_ st1; matchedSlash := matchedSlash st1;
              preDotState := 1; stopped := false |}
      else st1
    else if negb (startDot st1 =? -1)
    then {| startDot := startDot st1; startPart := startPart st1;
            end_ := end_ st1; matchedSlash := matchedSlash st1;
            preDotState := -1; stopped := false |}
    else st1.

(** The loop, from the last character down to the first: [rev_chars] is
    the path reversed and [i] the index of its head. *)
Fixpoint scan_down (rev_chars : list ascii) (i : Z) (st : Scan) : Scan :=
  match rev_chars with
  | [] => st
  | c :: rest => scan_down rest (i - 1) (scan_step i c st)
  end.

Definition slice (s : string) (from to : Z) : string :=
  String.substring (Z.to_nat from) (Z.to_nat (to - from)) s.

Definition extname (p : string) : string :=
  let st :=
    scan_down (rev (list_ascii_of_string p))
      (Z.of_nat (String.length p) - 1) scan0 in
  if (startDot st =? -1)
     || (end_ st =? -1)
     || (preDotState st =? 0)
     || ((preDotState st =? 1)
         && (startDot st =? end_ st - 1)
         && (startDot st =? startPart st + 1))
  then EmptyString
  else slice p (startDot st) (end_ st).

End NodePath.

(* ================================================================== *)
(** ** The file system seen by the tools *)
(* ================================================================== *)

Module Fs.
Local Open Scope Z_scope.

(** What [fs.stat] reports and the tools use. *)
Record Stats : Type := { st_size : Z; st_mtime : Z }.

(** An entry that is not a directory.  [leaf_isFile] is [entry.isFile()]
    (false for links, sockets and the like); [leaf_stat] is [None] when
    [fs.stat] throws; [leaf_content] is [None] when [fs.readFile]
    throws; [leaf_writable] tells whether [fs.writeFile] succeeds. *)
Record Leaf : Type := {
  leaf_isFile : bool;
  leaf_stat : option Stats;
  leaf_content : option string;
  leaf_writable : bool
}.

(** A tree of directory entries in the order [fs.readdir] lists them.
    [DirUnreadable] is a directory on which [fs.readdir] throws. *)
Inductive Node : Type :=
| Dir (entries : list (string * Node))
| DirUnreadable
| File (l : Leaf).

(** [entry.isDirectory()]. *)
Definition isDirectory (n : Node) : bool :=
  match n with
  | Dir _ | DirUnreadable => true
  | File _ => false
  end.

(** The leaf after a successful [fs.writeFile(fullPath, text)]. *)
Definition written (l : Leaf) (text : string) : Leaf :=
  {| leaf_isFile := leaf_isFile l; leaf_stat := leaf_stat l;
     leaf_content := Some text; leaf_writable := leaf_writable l |}.

(** A readable, writable regular file. *)
Definition regular (size mtime : Z) (text : string) : Node :=
  File {| leaf_isFile := true;
          leaf_stat := Some {| st_size := size; st_mtime := mtime |};
          leaf_content := Some text; leaf_writable := true |}.

(** Structural induction that reaches the entries of a directory. *)
Section NodeInduction.
Variable P : Node -> Prop.
Hypothesis P_unreadable : P DirUnreadable.
Hypothesis P_file : forall l, P (File l).
Hypothesis P_dir :
  forall entries, Forall (fun e => P (snd e)) entries -> P (Dir entries).

Fixpoint Node_deep_ind (n : Node) : P n :=
  match n with
  | Dir entries =>
      P_dir entries
        ((fix all (es : list (string * Node)) : Forall (fun e => P (snd e)) es :=
            match es with
            | [] => Forall_nil _
            | e :: es' => Forall_cons e (Node_deep_ind (snd e)) (all es')
            end) entries)
  | DirUnreadable => P_unreadable
  | File l => P_file l
  end.
End NodeInduction.

End Fs.

(** The directories the tools leave out unless told otherwise. *)
Definition default_excludeDirs : list string :=
  ["node_modules"; ".git"; ".vscode"; ".idea"].

(** A path below the root of a walk, as its components.  The entry names
    [fs.readdir] lists hold no separator, so [path.join] of the current
    path and a name adds one component. *)
Definition RelPath : Type := list string.

(* ================================================================== *)
(** ** [browseDirectory] *)
(* ================================================================== *)

Module Browse.
Local Open Scope Z_scope.

(** The argument of the tool; [None] is a field left out. *)
Record Input : Type := {
  path : option string;
  recursive : option bool;
  maxDepth : option Z;
  includeHidden : option bool;
  fileTypes : option (list string);
  excludeDirs : option (list string);
  sortBy : option string;
  order : option string
}.

(** The fields after the destructuring defaults. *)
Record Config : Type := {
  c_recursive : bool;
  c_maxDepth : Z;
  c_includeHidden : bool;
  c_fileTypes : list string;
  c_excludeDirs : list string;
  c_sortBy : string;
  c_order : string
}.

Definition config_of (i : Input) : Config :=
  {| c_recursive := or_default false (recursive i);
     c_maxDepth := or_default 3 (maxDepth i);
     c_includeHidden := or_default false (includeHidden i);
     c_fileTypes := or_default [] (fileTypes i);
     c_excludeDirs := or_default default_excludeDirs (excludeDirs i);
     c_sortBy := or_default "name" (sortBy i);
     c_order := or_default "asc" (order i) |}.

(** An element of [results.directories]. *)
Record DirEntry : Type := {
  d_name : string;
  d_path : RelPath;
  d_depth : Z
}.

(** An element of [results.files]. *)
Record FileEntry : Type := {
  f_name : string;
  f_path : RelPath;
  f_size : Z;
  f_modified : Z;
  f_depth : Z;
  f_extension : string
}.

(** The [results] object.  [reads] is not in the source: it lists, in
    order, the directories [fs.readdir] was called on. *)
Record Results : Type := {
  files : list FileEntry;
  directories : list DirEntry;
  totalFiles : Z;
  totalDirs : Z;
  totalSize : Z;
  reads : list RelPath
}.

Definition empty_results : Results :=
  {| files := []; directories := []; totalFiles := 0; totalDirs := 0;
     totalSize := 0; reads := [] |}.

Definition note_read (p : RelPath) (r : Results) : Results :=
  {| files := files r; directories := directories r;
     totalFiles := totalFiles r; totalDirs := totalDirs r;
     totalSize := totalSize r; reads := (reads r ++ [p])%list |}.

(** [results.directories.push(...); results.totalDirs++]. *)
Definition push_directory (d : DirEntry) (r : Results) : Results :=
  {| files := files r; directories := (directories r ++ [d])%list;
     totalFiles := totalFiles r; totalDirs := totalDirs r + 1;
     totalSize := totalSize r; reads := reads r |}.

(** [results.files.push(fileInfo); results.totalFiles++;
    results.totalSize += stats.size]. *)
Definition push_file (f : FileEntry) (r : Results) : Results :=
  {| files := (files r ++ [f])%list; directories := directories r;
     totalFiles := totalFiles r + 1; totalDirs := totalDirs r;
     totalSize := totalSize r + f_size f; reads := reads r |}.

(** [scanDirectory(currentPath, currentDepth)], with [node] what
    [currentPath] holds and [here] its path below the root.  A throwing
    [fs.readdir] or [fs.stat] leaves the [try] block: the rest of the
    listing is not visited. *)
Fixpoint scanDirectory (cfg : Config) (node : Fs.Node) (here : RelPath)
  (currentDepth : Z) (results : Results) {struct node} : Results :=
  if currentDepth >? c_maxDepth cfg then results
  else
    let results := note_read here results in
    match node with
    | Fs.Dir entries =>
        (fix each (entries : list (string * Fs.Node)) (results : Results)
           {struct entries} : Results :=
           match entries with
           | [] => results
           | (name, entry) :: rest =>
               let relativePath := (here ++ [name])%list in
               if negb (c_includeHidden cfg) && Js.startsWith name "."
               then each rest results
               else if Fs.isDirectory entry
                       && Js.arr_includes (c_excludeDirs cfg) name
               then each rest results
               else
                 match entry with
                 | Fs.File l =>
                     match Fs.leaf_stat l with
                     | None => results
                     | Some stats =>
                         let fileInfo :=
                           {| f_name := name; f_path := relativePath;
                              f_size := Fs.st_size stats;
                              f_modified := Fs.st_mtime stats;
                              f_depth := currentDepth;
                              f_extension := NodePath.extname name |} in
                         if (length (c_fileTypes cfg) =? 0)%nat
                            || Js.arr_includes (c_fileTypes cfg)
                                 (f_extension fileInfo)
                         then each rest (push_file fileInfo results)
                         else each rest results
                     end
                 | _ =>
                     let results :=
                       push_directory
                         {| d_name := name; d_path := relativePath;
                            d_depth := currentDepth |} results in
                     let results :=
                       if c_recursive cfg && (currentDepth <? c_maxDepth cfg)
                       then scanDirectory cfg entry relativePath
                              (currentDepth + 1) results
                       else results in
                     each rest results
                 end
           end) entries results
    | Fs.DirUnreadable => results
    | Fs.File _ => results
    end.

(** *** The sorting pass *)

(** What [sortFunction] reads of an entry; a directory has neither
    [size] nor [modified], which the source replaces by 0. *)
Record SortKey : Type := { k_name : string; k_size : Z; k_modified : Z }.

Definition key_of_file (f : FileEntry) : SortKey :=
  {| k_name := f_name f; k_size := f_size f; k_modified := f_modified f |}.

Definition key_of_directory (d : DirEntry) : SortKey :=
  {| k_name := d_name d; k_size := 0; k_modified := 0 |}.

(** [sortFunction(a, b)]; [localeCompare] is the collation of the host. *)
Definition sortFunction (localeCompare : string -> string -> Z)
  (cfg : Config) (a b : SortKey) : Z :=
  let comparison :=
    if String.eqb (c_sortBy cfg) "name" then localeCompare (k_name a) (k_name b)
    else if String.eqb (c_sortBy cfg) "size" then k_size a - k_size b
    else if String.eqb (c_sortBy cfg) "modified"
    then k_modified a - k_modified b
    else 0 in
  if String.eqb (c_order cfg) "desc" then - comparison else comparison.

(** [Array.prototype.sort] is stable; the model is a stable insertion
    sort by the comparator. *)
Fixpoint insert_sorted {A : Type} (cmp : A -> A -> Z) (x : A) (l : list A)
  : list A :=
  match l with
  | [] => [x]
  | y :: l' => if cmp y x >? 0 then x :: y :: l' else y :: insert_sorted cmp x l'
  end.

Definition array_sort {A : Type} (cmp : A -> A -> Z) (l : list A) : list A :=
  fold_left (fun acc x => insert_sorted cmp x acc) l [].

(** The tool up to the point where [results] is rendered as text.
    [root] is what the resolved [path] holds. *)
Definition browseDirectory (localeCompare : string -> string -> Z)
  (input : Input) (root : Fs.Node) : Results :=
  let cfg := config_of input in
  let results := scanDirectory cfg root [] 0 empty_results in
  {| files :=
       array_sort
         (fun a b => sortFunction localeCompare cfg (key_of_file a) (key_of_file b))
         (files results);
     directories :=
       array_sort
         (fun a b =>
            sortFunction localeCompare cfg (key_of_directory a)
              (key_of_directory b))
         (directories results);
     totalFiles := totalFiles results;
     totalDirs := totalDirs results;
     totalSize := totalSize results;
     reads := reads results |}.

End Browse.

(* ================================================================== *)
(** ** [findFiles] *)
(* ================================================================== *)

Module Find.
Local Open Scope Z_scope.

Record Input : Type := {
  pattern : option string;
  directory : option string;
  fileTypes : option (list string);
  excludeDirs : option (list string);
  maxDepth : option Z;
  includeHidden : option bool
}.

Record Config : Type := {
  c_pattern : string;
  c_fileTypes : list string;
  c_excludeDirs : list string;
  c_maxDepth : Z;
  c_includeHidden : bool
}.

(** An element of [results].  The source stores the path relative to
    the working directory of the process; the model keeps the path below
    the root of the walk, from which the former is computed. *)
Record Found : Type := {
  name : string;
  path : RelPath;
  size : Z;
  modified : Z;
  extension : string
}.

(** [results], and the directories [fs.readdir] was called on. *)
Record Results : Type := {
  found : list Found;
  reads : list RelPath
}.

Definition empty_results : Results := {| found := []; reads := [] |}.

(** The file name test of [searchDirectory]: the star pattern compiled to
    a regular expression, else containment, and the extension filter when
    the pattern did not match.  [None]: [new RegExp] throws. *)
Definition matchesPattern (rx : Js.RegExpHost) (pattern : string)
  (fileTypes : list string) (name : string) : option bool :=
  let by_pattern :=
    if Js.includes pattern "*"
    then
      let regexPattern := Js.replace_stars pattern ".*" in
      Js.RegExp_test rx ("^" ++ regexPattern ++ "$") name
    else Some (Js.includes name pattern) in
  match by_pattern with
  | None => None
  | Some matchesPattern =>
      if negb matchesPattern && (0 <? length fileTypes)%nat
      then Some (Js.arr_includes fileTypes (NodePath.extname name))
      else Some matchesPattern
  end.

(** [searchDirectory(currentPath, currentDepth)]. *)
Fixpoint searchDirectory (rx : Js.RegExpHost) (cfg : Config) (node : Fs.Node)
  (here : RelPath) (currentDepth : Z) (results : Results) {struct node}
  : Results :=
  if currentDepth >? c_maxDepth cfg then results
  else
    let results :=
      {| found := found results; reads := (reads results ++ [here])%list |} in
    match node with
    | Fs.Dir entries =>
        (fix each (entries : list (string * Fs.Node)) (results : Results)
           {struct entries} : Results :=
           match entries with
           | [] => results
           | (entry_name, entry) :: rest =>
               let fullPath := (here ++ [entry_name])%list in
               if negb (c_includeHidden cfg) && Js.startsWith entry_name "."
               then each rest results
               else if Fs.isDirectory entry
                       && Js.arr_includes (c_excludeDirs cfg) entry_name
               then each rest results
               else
                 match entry with
                 | Fs.File l =>
                     match
                       matchesPattern rx (c_pattern cfg) (c_fileTypes cfg)
                         entry_name
                     with
                     | None => results
                     | Some false => each rest results
                     | Some true =>
                         match Fs.leaf_stat l with
                         | None => results
                         | Some stats =>
                             each rest
                               {| found :=
                                    (found results ++
                                     [{| name := entry_name;
                                         path := fullPath;
                                         size := Fs.st_size stats;
                                         modified := Fs.st_mtime stats;
                                         extension :=
                                           NodePath.extname entry_name |}])%list;
                                  reads := reads results |}
                         end
                     end
                 | _ =>
                     each rest
                       (searchDirectory rx cfg entry fullPath
                          (currentDepth + 1) results)
                 end
           end) entries results
    | Fs.DirUnreadable => results
    | Fs.File _ => results
    end.

(** The tool up to the point where [results] is rendered as text.  A
    missing or empty [pattern] throws inside the [try], and the [catch]
    throws the error the caller sees. *)
Definition findFiles (rx : Js.RegExpHost) (input : Input) (root : Fs.Node)
  : Js.Outcome Results :=
  match pattern input with
  | Some p =>
      if Js.nonempty p
      then
        let cfg :=
          {| c_pattern := p;
             c_fileTypes := or_default [] (fileTypes input);
             c_excludeDirs := or_default default_excludeDirs (excludeDirs input);
             c_maxDepth := or_default 5 (maxDepth input);
             c_includeHidden := or_default false (includeHidden input) |} in
        Js.Resolved (searchDirectory rx cfg root [] 0 empty_results)
      else
        Js.Rejected
          (Js.new_Error "tools.js:513"
             ("File search failed: " ++ "Search pattern is required"))
  | None =>
      Js.Rejected
        (Js.new_Error "tools.js:513"
           ("File search failed: " ++ "Search pattern is required"))
  end.

End Find.

(* ================================================================== *)
(** ** [globalSearchReplace] *)
(* ================================================================== *)

Module SearchReplace.
Local Open Scope Z_scope.

Record Input : Type := {
  searchText : option string;
  replaceText : option string;
  directory : option string;
  fileTypes : option (list string);
  excludeDirs : option (list string);
  dryRun : option bool
}.

Record Config : Type := {
  c_searchText : string;
  c_replaceText : option string;
  c_fileTypes : list string;
  c_excludeDirs : list string;
  c_dryRun : bool
}.

Definition default_fileTypes : list string :=
  [".js"; ".ts"; ".jsx"; ".tsx"; ".json"; ".md"].

(** An element of [results.changes]; [file] is the path below the root
    of the walk (the source renders it relative to the working
    directory). *)
Record Change : Type := {
  file : RelPath;
  matches : Z;
  replaced : bool
}.

Record Results : Type := {
  filesProcessed : Z;
  matchesFound : Z;
  replacements : Z;
  changes : list Change
}.

Definition empty_results : Results :=
  {| filesProcessed := 0; matchesFound := 0; replacements := 0;
     changes := [] |}.

(** [content.split(searchText).length - 1]. *)
Definition count_matches (content searchText : string) : Z :=
  Z.of_nat (length (Js.split content searchText)) - 1.

(** [results.filesProcessed++; results.matchesFound += matches]. *)
Definition count_file (m : Z) (r : Results) : Results :=
  {| filesProcessed := filesProcessed r + 1;
     matchesFound := matchesFound r + m;
     replacements := replacements r;
     changes := changes r |}.

(** The two [results.changes.push] of the source, the first one after
    [results.replacements += matches]. *)
Definition push_replaced (p : RelPath) (m : Z) (r : Results) : Results :=
  {| filesProcessed := filesProcessed r;
     matchesFound := matchesFound r;
     replacements := replacements r + m;
     changes := (changes r ++ [{| file := p; matches := m; replaced := true |}])%list |}.

Definition push_unreplaced (p : RelPath) (m : Z) (r : Results) : Results :=
  {| filesProcessed := filesProcessed r;
     matchesFound := matchesFound r;
     replacements := replacements r;
     changes := (changes r ++ [{| file := p; matches := m; replaced := false |}])%list |}.

(** The body run for an entry with [entry.isFile()]: the leaf afterwards
    and the results.  Every throw inside is caught by the [try] around
    the body, which keeps what was counted before it. *)
Definition processFile (rx : Js.RegExpHost) (cfg : Config) (fullPath : RelPath)
  (entry_name : string) (l : Fs.Leaf) (results : Results)
  : Fs.Leaf * Results :=
  let ext := NodePath.extname entry_name in
  if (length (c_fileTypes cfg) =? 0)%nat || Js.arr_includes (c_fileTypes cfg) ext
  then
    match Fs.leaf_content l with
    | None => (l, results)
    | Some content =>
        let matches := count_matches content (c_searchText cfg) in
        if matches >? 0 then
          let results := count_file matches results in
          match c_dryRun cfg, c_replaceText cfg with
          | false, Some replaceText =>
              match
                Js.RegExp_replace_all rx (c_searchText cfg) content replaceText
              with
              | None => (l, results)
              | Some newContent =>
                  if Fs.leaf_writable l
                  then (Fs.written l newContent,
                        push_replaced fullPath matches results)
                  else (l, results)
              end
          | _, _ => (l, push_unreplaced fullPath matches results)
          end
        else (l, results)
    end
  else (l, results).

(** [processDirectory(currentPath)]: the directory afterwards and the
    results. *)
Fixpoint processDirectory (rx : Js.RegExpHost) (cfg : Config) (node : Fs.Node)
  (here : RelPath) (results : Results) {struct node} : Fs.Node * Results :=
  match node with
  | Fs.Dir entries =>
      let '(entries', results') :=
        (fix each (entries : list (string * Fs.Node)) (results : Results)
           {struct entries} : list (string * Fs.Node) * Results :=
           match entries with
           | [] => ([], results)
           | (entry_name, entry) :: rest =>
               let fullPath := (here ++ [entry_name])%list in
               let '(entry', results1) :=
                 match entry with
                 | Fs.File l =>
                     if Fs.leaf_isFile l
                     then
                       let '(l', r) :=
                         processFile rx cfg fullPath entry_name l results in
                       (Fs.File l', r)
                     else (entry, results)
                 | _ =>
                     if negb (Js.arr_includes (c_excludeDirs cfg) entry_name)
                     then processDirectory rx cfg entry fullPath results
                     else (entry, results)
                 end in
               let '(rest', results2) := each rest results1 in
               ((entry_name, entry') :: rest', results2)
           end) entries results in
      (Fs.Dir entries', results')
  | Fs.DirUnreadable => (node, results)
  | Fs.File _ => (node, results)
  end.

(** The tool up to the point where [results] is rendered as text: its
    outcome and the tree afterwards. *)
Definition globalSearchReplace (rx : Js.RegExpHost) (input : Input)
  (root : Fs.Node) : Js.Outcome Results * Fs.Node :=
  let required :=
    Js.Rejected
      (Js.new_Error "tools.js:611"
         ("Global search/replace failed: " ++ "Search text is required")) in
  match searchText input with
  | Some s =>
      if Js.nonempty s
      then
        let cfg :=
          {| c_searchText := s;
             c_replaceText := replaceText input;
             c_fileTypes := or_default default_fileTypes (fileTypes input);
             c_excludeDirs := or_default default_excludeDirs (excludeDirs input);
             c_dryRun := or_default true (dryRun input) |} in
        let '(root', results) := processDirectory rx cfg root [] empty_results in
        (Js.Resolved results, root')
      else (required, root)
  | None => (required, root)
  end.

End SearchReplace.

(* ================================================================== *)
(** ** The conversation driver of [cli.js] *)
(* ================================================================== *)

Module Driver.
Local Open Scope nat_scope.

(** What the driver does that can be seen from outside. *)
Inductive Caller : Type :=
| Command   (* [executeCommand] *)
| Request.  (* [handleAIRequest] *)

Inductive Console : Type :=
| LogStart (who : Caller)
| LogStep (step : Js.Json) (stepNumber : option nat)
| ErrParsing (response : string)
| ErrActionFailed (message : string)
| LogCompleted (who : Caller)
| ErrUnexpected (e : Js.JsError)
| WarnMaximumSteps (who : Caller).

Inductive Event : Type :=
| Generate (prompt : string)
| Invoke (key : string) (input : option Js.Json)
| Print (line : Console).

Inductive Control : Type :=
| Continue
| Break.

(** The own properties of [Object.prototype], which the object literal
    [tools] inherits. *)
Definition Object_prototype_names : list string :=
  ["constructor"; "toString"; "toLocaleString"; "valueOf"; "hasOwnProperty";
   "isPrototypeOf"; "propertyIsEnumerable"; "__proto__"; "__defineGetter__";
   "__defineSetter__"; "__lookupGetter__"; "__lookupSetter__"].

(** [logStep(step, prefix)] reads [step.type], and for an observation
    calls [step.observation.substring]: it throws a [TypeError] on [null]
    and on an observation whose text is not a string.  The messages are
    those of V8. *)
Definition logStep_throws (step : Js.Json) : option Js.JsError :=
  match step with
  | Js.JNull =>
      Some (Js.new_TypeError "logStep"
              "Cannot read properties of null (reading 'type')")
  | _ =>
      match Js.get step "type" with
      | Some (Js.JStr ty) =>
          if String.eqb ty "observation" then
            match Js.get step "observation" with
            | Some (Js.JStr _) => None
            | None =>
                Some (Js.new_TypeError "logStep"
                        "Cannot read properties of undefined (reading 'substring')")
            | Some Js.JNull =>
                Some (Js.new_TypeError "logStep"
                        "Cannot read properties of null (reading 'substring')")
            | Some _ =>
                Some (Js.new_TypeError "logStep"
                        "step.observation.substring is not a function")
            end
          else None
      | _ => None
      end
  end.

(** [step.type === ty]. *)
Definition has_type (step : Js.Json) (ty : string) : bool :=
  match Js.get step "type" with
  | Some (Js.JStr s) => String.eqb s ty
  | _ => false
  end.

Definition observation_of (text : string) : Js.Json :=
  Js.JObj [("type", Js.JStr "observation"); ("observation", Js.JStr text)].

Section WithHost.

(** The state of everything outside the driver. *)
Variable World : Type.

(** [tools[k].fn]. *)
Definition Tool : Type := option Js.Json -> World -> Js.Outcome string * World.

(** What the driver is linked with.
    - [generateContent prompt]: [model.generateContent(prompt)] followed
      by [result.response.text()];
    - [JSON_parse]: [None] when [JSON.parse] throws;
    - [ToString]: the text of a value that is not a string, as a template
      literal and a property key render it;
    - [stack]: the [stack] text of an error;
    - [tools]: the own properties of the [tools] object. *)
Record Host : Type := {
  generateContent : string -> World -> Js.Outcome string * World;
  JSON_parse : string -> option Js.Json;
  JSON_stringify : Js.Json -> string;
  ToString : Js.Json -> string;
  stack : Js.JsError -> string;
  tools : list (string * Tool)
}.

Variable host : Host.

Record State : Type := {
  messages : list string;
  stepCount : nat;
  world : World;
  events : list Event
}.

Definition say (line : Console) (st : State) : State :=
  {| messages := messages st; stepCount := stepCount st; world := world st;
     events := (events st ++ [Print line])%list |}.

(** [messages.push(text)]. *)
Definition push (text : string) (st : State) : State :=
  {| messages := (messages st ++ [text])%list; stepCount := stepCount st;
     world := world st; events := events st |}.

Definition with_world (w : World) (st : State) : State :=
  {| messages := messages st; stepCount := stepCount st; world := w;
     events := events st |}.

(** [`${step.function}`], also the key of [tools[step.function]]. *)
Definition text_of (v : option Js.Json) : string :=
  match v with
  | None => "undefined"
  | Some (Js.JStr s) => s
  | Some Js.JNull => "null"
  | Some (Js.JBool true) => "true"
  | Some (Js.JBool false) => "false"
  | Some other => ToString host other
  end.

(** The value of [tools[key]]. *)
Inductive Property : Type :=
| Own (fn : Tool)
| Inherited
| Undefined.

Fixpoint own_property (registry : list (string * Tool)) (key : string)
  : option Tool :=
  match registry with
  | [] => None
  | (k, fn) :: rest => if String.eqb key k then Some fn else own_property rest key
  end.

Definition tools_get (key : string) : Property :=
  match own_property (tools host) key with
  | Some fn => Own fn
  | None =>
      if Js.arr_includes Object_prototype_names key then Inherited else Undefined
  end.

(** The body of the inner [try] up to the settlement of the call: the
    check [!tools[step.function]] and [await tools[step.function].fn(step.input)].
    An inherited property is truthy and has no [fn]. *)
Definition dispatch (key : string) (input : option Js.Json) (w : World)
  : Js.Outcome string * World :=
  match tools_get key with
  | Own fn => fn input w
  | Inherited =>
      (Js.Rejected
         (Js.new_TypeError "cli.js:259" "tools[step.function].fn is not a function"),
       w)
  | Undefined =>
      (Js.Rejected (Js.new_Error "cli.js:256" ("Tool '" ++ key ++ "' not found")), w)
  end.

(** The call of a tool function, when [dispatch] makes one. *)
Definition invocation (key : string) (input : option Js.Json) : list Event :=
  match tools_get key with
  | Own _ => [Invoke key input]
  | _ => []
  end.

(** The text of the observation built from an outcome: the end of the
    inner [try], and its [catch]. *)
Definition observation_text (o : Js.Outcome string) : string :=
  match o with
  | Js.Resolved result => "Success: " ++ result
  | Js.Rejected error =>
      "Error: " ++ Js.err_message error ++ Js.nl ++ "Stack: " ++ stack host error
  end.

(** The branch [if (step.type === "action")]. *)
Definition act (step : Js.Json) (st : State) : State :=
  let key := text_of (Js.get step "function") in
  let input := Js.get step "input" in
  let '(outcome, w) := dispatch key input (world st) in
  let st :=
    with_world w
      {| messages := messages st; stepCount := stepCount st; world := world st;
         events := (events st ++ invocation key input)%list |} in
  let observation := observation_of (observation_text outcome) in
  let st :=
    match outcome with
    | Js.Resolved _ => st
    | Js.Rejected error => say (ErrActionFailed (Js.err_message error)) st
    end in
  push (JSON_stringify host observation) (say (LogStep observation None) st).

(** The state after [stepCount++] and the call of the model, which left
    the world [w]. *)
Definition answered (st : State) (w : World) : State :=
  {| messages := messages st; stepCount := S (stepCount st); world := w;
     events := (events st ++ [Generate (Js.join Js.nl (messages st))])%list |}.

(** One turn of the [while] loop. *)
Definition iteration (who : Caller) (st : State) : Control * State :=
  let n := S (stepCount st) in
  let prompt := Js.join Js.nl (messages st) in
  let '(result, w) := generateContent host prompt (world st) in
  let st := answered st w in
  match result with
  | Js.Rejected error => (Break, say (ErrUnexpected error) st)
  | Js.Resolved response =>
      match JSON_parse host response with
      | None => (Break, say (ErrParsing response) st)
      | Some step =>
          match logStep_throws step with
          | Some error => (Break, say (ErrUnexpected error) st)
          | None =>
              let st := push response (say (LogStep step (Some n)) st) in
              if has_type step "action" then (Continue, act step st)
              else if has_type step "output"
              then (Break, say (LogCompleted who) st)
              else (Continue, st)
          end
      end
  end.

(** [while (stepCount < maxSteps) { ... }].  Every turn adds one to
    [stepCount], so [maxSteps] turns of fuel are never used up when the
    loop starts from 0. *)
Fixpoint loop (who : Caller) (maxSteps : nat) (fuel : nat) (st : State)
  : State :=
  match fuel with
  | O => st
  | S fuel' =>
      if stepCount st <? maxSteps then
        match iteration who st with
        | (Continue, st') => loop who maxSteps fuel' st'
        | (Break, st') => st'
        end
      else st
  end.

(** The statement after the loop. *)
Definition report (who : Caller) (maxSteps : nat) (st : State) : State :=
  if maxSteps <=? stepCount st then say (WarnMaximumSteps who) st else st.

(** The loop and the report, from any state. *)
Definition run_from (who : Caller) (maxSteps : nat) (st : State) : State :=
  report who maxSteps (loop who maxSteps (maxSteps - stepCount st) st).

Definition start (who : Caller) (prompt : string) (w : World) : State :=
  {| messages :=
       [JSON_stringify host
          (Js.JObj [("type", Js.JStr "user"); ("prompt", Js.JStr prompt)])];
     stepCount := 0;
     world := w;
     events := [Print (LogStart who)] |}.

(** The step budget of [executeCommand] and of [handleAIRequest]. *)
Definition maxSteps : nat := 20.

Definition executeCommand (command : string) (options : Js.Json) (w : World)
  : State :=
  run_from Command maxSteps
    (start Command
       ("Execute command: " ++ command ++ " with options: "
        ++ JSON_stringify host options) w).

Definition handleAIRequest (message : string) (w : World) : State :=
  run_from Request maxSteps (start Request message w).

(** *** Reading a trace *)

Definition is_generate (e : Event) : bool :=
  match e with Generate _ => true | _ => false end.

Definition is_invoke (e : Event) : bool :=
  match e with Invoke _ _ => true | _ => false end.

(** The number of calls of the model, and of tool functions. *)
Definition model_calls (st : State) : nat :=
  length (filter is_generate (events st)).

Definition tool_calls (st : State) : nat :=
  length (filter is_invoke (events st)).

End WithHost.

Arguments generateContent {World}.
Arguments JSON_parse {World}.
Arguments JSON_stringify {World}.
Arguments ToString {World}.
Arguments stack {World}.
Arguments tools {World}.
Arguments messages {World}.
Arguments stepCount {World}.
Arguments world {World}.
Arguments events {World}.
Arguments Own {World}.
Arguments Inherited {World}.
Arguments Undefined {World}.
Arguments say {World}.
Arguments push {World}.
Arguments with_world {World}.
Arguments text_of {World}.
Arguments own_property {World}.
Arguments tools_get {World}.
Arguments dispatch {World}.
Arguments invocation {World}.
Arguments observation_text {World}.
Arguments act {World}.
Arguments answered {World}.
Arguments iteration {World}.
Arguments loop {World}.
Arguments report {World}.
Arguments run_from {World}.
Arguments start {World}.
Arguments executeCommand {World}.
Arguments handleAIRequest {World}.
Arguments model_calls {World}.
Arguments tool_calls {World}.

(** The outcome of a call without its texts: settled which way, and for
    a rejection the class of the error. *)
Inductive Shape : Type :=
| Fulfilled
| Failed (class : string).

Definition shape {A : Type} (o : Js.Outcome A) : Shape :=
  match o with
  | Js.Resolved _ => Fulfilled
  | Js.Rejected e => Failed (Js.err_name e)
  end.


End Driver.

(* ================================================================== *)
(** ** [findFiles] as an entry of the [tools] object *)
(* ================================================================== *)

Module Registry.

(** What each [directory] argument resolves to. *)
Definition World : Type := string -> Fs.Node.

(** The decimal digits of a number without fraction or exponent. *)
Definition digit_of (c : ascii) : option Z :=
  let n := nat_of_ascii c in
  if (48 <=? n)%nat && (n <=? 57)%nat then Some (Z.of_nat (n - 48)) else None.

Fixpoint digits_value (acc : Z) (s : string) : option Z :=
  match s with
  | EmptyString => Some acc
  | String c s' =>
      match digit_of c with
      | Some d => digits_value (10 * acc + d)%Z s'
      | None => None
      end
  end.

Definition integer_of (lexeme : string) : option Z :=
  match lexeme with
  | EmptyString => None
  | String c rest =>
      if Ascii.eqb c "-"%char
      then if Js.nonempty rest then option_map Z.opp (digits_value 0 rest) else None
      else digits_value 0 lexeme
  end.

(** Reading a field at the type the tool expects: [Some None] when the
    field is left out, [None] when it holds a value of another type. *)
Definition field_string (v : option Js.Json) : option (option string) :=
  match v with
  | None => Some None
  | Some (Js.JStr s) => Some (Some s)
  | Some _ => None
  end.

Definition field_bool (v : option Js.Json) : option (option bool) :=
  match v with
  | None => Some None
  | Some (Js.JBool b) => Some (Some b)
  | Some _ => None
  end.

Definition field_integer (v : option Js.Json) : option (option Z) :=
  match v with
  | None => Some None
  | Some (Js.JNum lexeme) => option_map Some (integer_of lexeme)
  | Some _ => None
  end.

Fixpoint strings_of (items : list Js.Json) : option (list string) :=
  match items with
  | [] => Some []
  | Js.JStr s :: rest => option_map (cons s) (strings_of rest)
  | _ :: _ => None
  end.

Definition field_strings (v : option Js.Json) : option (option (list string)) :=
  match v with
  | None => Some None
  | Some (Js.JArr items) => option_map Some (strings_of items)
  | Some _ => None
  end.

(** The destructuring at the head of [findFiles] on an object whose
    fields have the expected types. *)
Definition find_input (o : Js.Json) : option Find.Input :=
  match field_string (Js.get o "pattern"),
        field_string (Js.get o "directory"),
        field_strings (Js.get o "fileTypes"),
        field_strings (Js.get o "excludeDirs"),
        field_integer (Js.get o "maxDepth"),
        field_bool (Js.get o "includeHidden")
  with
  | Some p, Some d, Some ft, Some ex, Some md, Some ih =>
      Some {| Find.pattern := p; Find.directory := d; Find.fileTypes := ft;
              Find.excludeDirs := ex; Find.maxDepth := md;
              Find.includeHidden := ih |}
  | _, _, _, _, _, _ => None
  end.

Definition settle {A B : Type} (f : A -> B) (o : Js.Outcome A) : Js.Outcome B :=
  match o with
  | Js.Resolved a => Js.Resolved (f a)
  | Js.Rejected e => Js.Rejected e
  end.

(** [tools.findFiles.fn].  [render] is the text built from [results];
    [untyped] stands for the runs on fields of other types than the tool
    expects.  Destructuring [undefined] or [null] throws a [TypeError]
    inside the [try] (the wording is V8's). *)
Definition findFiles_fn (rx : Js.RegExpHost) (render : Find.Results -> string)
  (untyped : Driver.Tool World) : Driver.Tool World :=
  fun input w =>
    match input with
    | None =>
        (Js.Rejected
           (Js.new_Error "tools.js:513"
              ("File search failed: "
               ++ "Cannot destructure property 'pattern' of 'input' as it is undefined.")),
         w)
    | Some Js.JNull =>
        (Js.Rejected
           (Js.new_Error "tools.js:513"
              ("File search failed: "
               ++ "Cannot destructure property 'pattern' of 'input' as it is null.")),
         w)
    | Some o =>
        match find_input o with
        | Some i =>
            (settle render
               (Find.findFiles rx i (w (or_default "." (Find.directory i)))),
             w)
        | None => untyped input w
        end
    end.

End Registry.

(* ================================================================== *)
(** ** The claims in the words of the specification *)
(* ================================================================== *)

Module Claimed.

(** The pattern rule as the specification words it: the star stands for
    zero or more characters, every other character for itself, and the
    whole file name has to be matched. *)
Fixpoint glob_match (pattern : string) : string -> bool :=
  match pattern with
  | EmptyString => fun s => match s with EmptyString => true | _ => false end
  | String c pattern' =>
      if Ascii.eqb c "*"%char
      then
        fix star (s : string) : bool :=
          glob_match pattern' s
          || match s with
             | EmptyString => false
             | String _ s' => star s'
             end
      else
        fun s =>
          match s with
          | EmptyString => false
          | String d s' => Ascii.eqb d c && glob_match pattern' s'
          end
  end.

(** [matches(filename, pattern, extensionFilters)]: the pattern rule, or
    the extension rule when the filter set is not empty. *)
Definition matches (filename pattern : string) (extensionFilters : list string)
  : bool :=
  (if Js.includes pattern "*"
   then glob_match pattern filename
   else Js.includes filename pattern)
  || ((0 <? length extensionFilters)%nat
      && Js.arr_includes extensionFilters (NodePath.extname filename)).

(** A pattern whose characters other than the star have no meaning of
    their own in a regular expression. *)
Definition plain_pattern (pattern : string) : bool :=
  Js.all_chars
    (fun c => Ascii.eqb c "*"%char || negb (Js.regex_special c)) pattern.

(** A file name without line terminators. *)
Definition single_line (filename : string) : bool :=
  Js.all_chars (fun c => negb (Js.line_terminator c)) filename.

(** The items a plain pattern stands for. *)
Fixpoint glob_items (pattern : string) : list Js.Item :=
  match pattern with
  | EmptyString => []
  | String c pattern' =>
      (if Ascii.eqb c "*"%char then Js.Star Js.ADot else Js.Once (Js.ALit c))
      :: glob_items pattern'
  end.

(** [s] without its first [n] characters. *)
Fixpoint drop (n : nat) (s : string) : string :=
  match n, s with
  | O, _ => s
  | S n', String _ s' => drop n' s'
  | S _, EmptyString => EmptyString
  end.

(** [sub] occurs in [s] at offset [i]. *)
Definition occurs_at (sub s : string) (i : nat) : Prop :=
  String.prefix sub (drop i s) = true.

(** Offsets in increasing order, each at least [width] after the one
    before it and the first at [from] or later. *)
Fixpoint spaced (width from : nat) (offsets : list nat) : Prop :=
  match offsets with
  | [] => True
  | p :: rest => (from <= p)%nat /\ spaced width (p + width) rest
  end.

(** Occurrences of [sub] in [s] no two of which overlap. *)
Definition non_overlapping (sub s : string) (offsets : list nat) : Prop :=
  spaced (String.length sub) 0 offsets /\ Forall (occurs_at sub s) offsets.

(** The files a search visits with the number of matches in each, in
    the order of the walk: regular files of an eligible extension that
    can be read and hold the search text, outside directories with an
    excluded name. *)
Definition file_report (searchText : string) (fileTypes : list string)
  (fullPath : RelPath) (entry_name : string) (l : Fs.Leaf)
  : list (RelPath * Z) :=
  if Fs.leaf_isFile l
     && ((length fileTypes =? 0)%nat
         || Js.arr_includes fileTypes (NodePath.extname entry_name))
  then
    match Fs.leaf_content l with
    | Some content =>
        let m := SearchReplace.count_matches content searchText in
        if (m >? 0)%Z then [(fullPath, m)] else []
    | None => []
    end
  else [].

Fixpoint match_report (searchText : string) (fileTypes excludeDirs : list string)
  (node : Fs.Node) (here : RelPath) {struct node} : list (RelPath * Z) :=
  match node with
  | Fs.Dir entries =>
      (fix each (entries : list (string * Fs.Node)) : list (RelPath * Z) :=
         match entries with
         | [] => []
         | (entry_name, entry) :: rest =>
             (match entry with
              | Fs.File l =>
                  file_report searchText fileTypes (here ++ [entry_name])%list
                    entry_name l
              | _ =>
                  if Js.arr_includes excludeDirs entry_name then []
                  else
                    match_report searchText fileTypes excludeDirs entry
                      (here ++ [entry_name])%list
              end ++ each rest)%list
         end) entries
  | _ => []
  end.

(** The results of a run that counted these matches and replaced
    nothing. *)
Definition counted (report : list (RelPath * Z)) : SearchReplace.Results :=
  {| SearchReplace.filesProcessed := Z.of_nat (length report);
     SearchReplace.matchesFound := fold_right Z.add 0%Z (map snd report);
     SearchReplace.replacements := 0;
     SearchReplace.changes :=
       map (fun pm => {| SearchReplace.file := fst pm;
                         SearchReplace.matches := snd pm;
                         SearchReplace.replaced := false |}) report |}.

End Claimed.



(** The reading of C9: two outcomes can be told apart by more than their
    texts. *)
Definition distinguishable {A : Type} (o1 o2 : Js.Outcome A) : Prop :=
  Driver.shape o1 <> Driver.shape o2.

(** A path component that is not one of [excludeDirs]. *)
Definition allowed (excluded : list string) (component : string) : Prop :=
  Js.arr_includes excluded component = false.


(** The entries of the directory a walk starts in. *)
Definition children (root : Fs.Node) : list (string * Fs.Node) :=
  match root with
  | Fs.Dir entries => entries
  | _ => []
  end.

(* ================================================================== *)
(** ** Invariants of the walks *)
(* ================================================================== *)

(** What holds of everything [scanDirectory] has recorded so far: depths
    within [maxDepth], no excluded name among the directories on the way
    to an entry, nor in the path of a directory that was recorded or
    read. *)
Record scan_ok (cfg : Browse.Config) (r : Browse.Results) : Prop := {
  ok_files :
    Forall (fun f => (Browse.f_depth f <= Browse.c_maxDepth cfg)%Z
                     /\ Forall (allowed (Browse.c_excludeDirs cfg))
                          (removelast (Browse.f_path f)))
      (Browse.files r);
  ok_directories :
    Forall (fun d => (Browse.d_depth d <= Browse.c_maxDepth cfg)%Z
                     /\ Forall (allowed (Browse.c_excludeDirs cfg))
                          (Browse.d_path d))
      (Browse.directories r);
  ok_reads :
    Forall (Forall (allowed (Browse.c_excludeDirs cfg))) (Browse.reads r)
}.

(** With [maxDepth = 0], what has been recorded are entries of the
    listing [all], under their own names and at depth 0. *)
Definition children_only (all : list (string * Fs.Node)) (r : Browse.Results)
  : Prop :=
  Forall (fun f => (exists l, In (Browse.f_name f, Fs.File l) all)
                   /\ Browse.f_path f = [Browse.f_name f]
                   /\ Browse.f_depth f = 0%Z)
    (Browse.files r)
  /\ Forall (fun d => (exists child,
                          In (Browse.d_name d, child) all
                          /\ Fs.isDirectory child = true)
                      /\ Browse.d_path d = [Browse.d_name d]
                      /\ Browse.d_depth d = 0%Z)
       (Browse.directories r).


(** The test [!dryRun && replaceText !== undefined] fails. *)
Definition counting_only (cfg : SearchReplace.Config) : Prop :=
  SearchReplace.c_dryRun cfg = true \/ SearchReplace.c_replaceText cfg = None.

(** What one more counted file adds to the results. *)
Definition record_match (r : SearchReplace.Results) (pm : RelPath * Z)
  : SearchReplace.Results :=
  SearchReplace.push_unreplaced (fst pm) (snd pm)
    (SearchReplace.count_file (snd pm) r).

(** The number of matches the scan of [split] finds. *)
Definition found_by_scan (sep s : string) : nat :=
  (length (Js.split_scan sep 0 EmptyString s) - 1)%nat.

(* ================================================================== *)
(** ** Concrete hosts and trees for the examples *)
(* ================================================================== *)

Module Examples.

(** A host engine that is never asked. *)
Definition rx_unused : Js.RegExpHost :=
  {| Js.host_test := fun _ _ => None;
     Js.host_replace_all := fun _ _ _ => None |}.

(** A serialisation good enough to tell the messages apart. *)
Definition show (v : Js.Json) : string :=
  match Js.get v "type" with
  | Some (Js.JStr ty) =>
      ty ++ ": "
      ++ match Js.get v "observation", Js.get v "prompt" with
         | Some (Js.JStr s), _ => s
         | _, Some (Js.JStr s) => s
         | _, _ => EmptyString
         end
  | _ => EmptyString
  end.

Definition plan_step : Js.Json :=
  Js.JObj [("type", Js.JStr "plan"); ("plan", Js.JStr "look around")].


(** A model whose answers are not JSON. *)
Definition babbling_host : Driver.Host unit :=
  {| Driver.generateContent := fun _ w => (Js.Resolved "Sure, here you go", w);
     Driver.JSON_parse := fun _ => None;
     Driver.JSON_stringify := show;
     Driver.ToString := fun _ => "[object Object]";
     Driver.stack := fun e => Js.err_name e ++ ": " ++ Js.err_message e;
     Driver.tools := [] |}.

Definition ghost_step : Js.Json :=
  Js.JObj [("type", Js.JStr "action"); ("function", Js.JStr "ghost");
           ("input", Js.JObj [])].

(** A model that keeps asking for a tool nobody registered. *)
Definition ghost_host : Driver.Host unit :=
  {| Driver.generateContent := fun _ w => (Js.Resolved "ghost", w);
     Driver.JSON_parse := fun _ => Some ghost_step;
     Driver.JSON_stringify := show;
     Driver.ToString := fun _ => "[object Object]";
     Driver.stack := fun e => Js.err_name e ++ ": " ++ Js.err_message e;
     Driver.tools := [] |}.


(** A host with [findFiles] registered, every directory empty. *)
Definition finder_host : Driver.Host Registry.World :=
  {| Driver.generateContent := fun _ w => (Js.Resolved "plan", w);
     Driver.JSON_parse := fun _ => Some plan_step;
     Driver.JSON_stringify := show;
     Driver.ToString := fun _ => "[object Object]";
     Driver.stack := fun e => Js.err_name e ++ ": " ++ Js.err_message e;
     Driver.tools :=
       [("findFiles",
         Registry.findFiles_fn rx_unused (fun _ => "No files found")
           (fun _ w => (Js.Resolved "untyped", w)))] |}.

Definition empty_world : Registry.World := fun _ => Fs.Dir [].

(** Collation by character codes. *)
Definition by_code (a b : string) : Z :=
  match String.compare a b with
  | Lt => (-1)%Z
  | Eq => 0%Z
  | Gt => 1%Z
  end.

(** A small project: a regular file called [build], sources two levels
    deep, and an installed dependency. *)
Definition project : Fs.Node :=
  Fs.Dir
    [("build", Fs.regular 4 10 "all:");
     ("src",
      Fs.Dir
        [("main.js", Fs.regular 3 20 "aaa");
         ("lib", Fs.Dir [("util.js", Fs.regular 6 30 "banana")])]);
     ("node_modules", Fs.Dir [("dep.js", Fs.regular 2 40 "aa")]);
     ("notes.md", Fs.regular 5 50 "a b a")].

Definition browse_input (depth : Z) (excluded : list string) : Browse.Input :=
  {| Browse.path := None; Browse.recursive := Some true;
     Browse.maxDepth := Some depth; Browse.includeHidden := None;
     Browse.fileTypes := None; Browse.excludeDirs := Some excluded;
     Browse.sortBy := None; Browse.order := None |}.

Definition find_input (pattern : string) (excluded : list string) : Find.Input :=
  {| Find.pattern := Some pattern; Find.directory := None;
     Find.fileTypes := None; Find.excludeDirs := Some excluded;
     Find.maxDepth := None; Find.includeHidden := None |}.

(** A request to replace [a] by [b]. *)
Definition replace_input (replacement : option string) (dry : option bool)
  : SearchReplace.Input :=
  {| SearchReplace.searchText := Some "a";
     SearchReplace.replaceText := replacement;
     SearchReplace.directory := None;
     SearchReplace.fileTypes := None;
     SearchReplace.excludeDirs := None;
     SearchReplace.dryRun := dry |}.

End Examples.

(* ================================================================== *)
(** ** More hosts and trees for the examples *)
(* ================================================================== *)

Module MoreExamples.




(** Browsing with nothing but [sortBy] and [order] given. *)
Definition sorted_input (sortBy order : option string) : Browse.Input :=
  {| Browse.path := None; Browse.recursive := None;
     Browse.maxDepth := None; Browse.includeHidden := None;
     Browse.fileTypes := None; Browse.excludeDirs := None;
     Browse.sortBy := sortBy; Browse.order := order |}.


(** A search for the pattern [*(], from which no regular expression can
    be built. *)
Definition broken_pattern_input : Find.Input :=
  Examples.find_input "*(" default_excludeDirs.


(** A request to replace [a] by [b] in the default file types. *)
Definition a_to_b (dry : bool) : SearchReplace.Input :=
  {| SearchReplace.searchText := Some "a";
     SearchReplace.replaceText := Some "b";
     SearchReplace.directory := None;
     SearchReplace.fileTypes := None;
     SearchReplace.excludeDirs := None;
     SearchReplace.dryRun := Some dry |}.

End MoreExamples.

(* ================================================================== *)
(** ** More invariants of the walks *)
(* ================================================================== *)

(** An entry name the walks do not skip as hidden. *)
Definition shown (includeHidden : bool) (entry_name : string) : Prop :=
  negb includeHidden && Js.startsWith entry_name "." = false.


(** The counters of [browseDirectory] agree with the lists. *)
Definition totals_agree (r : Browse.Results) : Prop :=
  Browse.totalFiles r = Z.of_nat (length (Browse.files r))
  /\ Browse.totalDirs r = Z.of_nat (length (Browse.directories r))
  /\ Browse.totalSize r
     = fold_right Z.add 0%Z (map Browse.f_size (Browse.files r)).


(** Every recorded file has one of the wanted extensions, and the
    recorded extension is the one of its name. *)
Definition extensions_wanted (fileTypes : list string) (r : Browse.Results)
  : Prop :=
  Forall (fun f => Browse.f_extension f = NodePath.extname (Browse.f_name f)
                   /\ (fileTypes = []
                       \/ Js.arr_includes fileTypes (Browse.f_extension f) = true))
    (Browse.files r).

(** Only the starting directory was read, and what was recorded lies
    directly in it. *)
Definition top_level_only (r : Browse.Results) : Prop :=
  Forall (fun f => Browse.f_path f = [Browse.f_name f] /\ Browse.f_depth f = 0%Z)
    (Browse.files r)
  /\ Forall (fun d => Browse.d_path d = [Browse.d_name d]
                      /\ Browse.d_depth d = 0%Z)
       (Browse.directories r)
  /\ Forall (fun p => p = []) (Browse.reads r).


(** Every record of [findFiles] is a file whose name passed the test. *)
Definition all_matching (rx : Js.RegExpHost) (cfg : Find.Config)
  (r : Find.Results) : Prop :=
  Forall (fun f =>
            Find.matchesPattern rx (Find.c_pattern cfg) (Find.c_fileTypes cfg)
              (Find.name f) = Some true
            /\ last (Find.path f) EmptyString = Find.name f
            /\ Find.extension f = NodePath.extname (Find.name f)
            /\ shown (Find.c_includeHidden cfg) (Find.name f))
    (Find.found r).

(** The matches of the changes that were replaced, and of all changes. *)
Definition replaced_matches (changes : list SearchReplace.Change) : Z :=
  fold_right Z.add 0%Z
    (map (fun c => if SearchReplace.replaced c then SearchReplace.matches c else 0%Z)
       changes).

Definition listed_matches (changes : list SearchReplace.Change) : Z :=
  fold_right Z.add 0%Z (map SearchReplace.matches changes).

(** How the counters of [globalSearchReplace] relate to its list of
    changes. *)
Definition counters_agree (r : SearchReplace.Results) : Prop :=
  SearchReplace.replacements r = replaced_matches (SearchReplace.changes r)
  /\ (listed_matches (SearchReplace.changes r) <= SearchReplace.matchesFound r)%Z
  /\ (SearchReplace.replacements r <= SearchReplace.matchesFound r)%Z
  /\ (Z.of_nat (length (SearchReplace.changes r))
      <= SearchReplace.filesProcessed r)%Z
  /\ Forall (fun c => (0 < SearchReplace.matches c)%Z) (SearchReplace.changes r).


(** Every regular file of the tree can be written. *)
Fixpoint all_writable (node : Fs.Node) : Prop :=
  match node with
  | Fs.Dir entries =>
      (fix each (entries : list (string * Fs.Node)) : Prop :=
         match entries with
         | [] => True
         | (_, entry) :: rest => all_writable entry /\ each rest
         end) entries
  | Fs.DirUnreadable => True
  | Fs.File l => Fs.leaf_isFile l = true -> Fs.leaf_writable l = true
  end.

(** The results of a run that replaced every match of the report. *)
Definition replaced_all (report : list (RelPath * Z)) : SearchReplace.Results :=
  {| SearchReplace.filesProcessed := Z.of_nat (length report);
     SearchReplace.matchesFound := fold_right Z.add 0%Z (map snd report);
     SearchReplace.replacements := fold_right Z.add 0%Z (map snd report);
     SearchReplace.changes :=
       map (fun pm => {| SearchReplace.file := fst pm;
                         SearchReplace.matches := snd pm;
                         SearchReplace.replaced := true |}) report |}.

(** What one more replaced file adds to the results. *)
Definition record_replaced (r : SearchReplace.Results) (pm : RelPath * Z)
  : SearchReplace.Results :=
  SearchReplace.push_replaced (fst pm) (snd pm)
    (SearchReplace.count_file (snd pm) r).

(* ================================================================== *)
(** * The command line of [cli.js] *)
(* ================================================================== *)

(** ** String methods the command line uses *)

Module JsString.
Local Open Scope nat_scope.

(** The white space [trim] removes, among the 8-bit characters: tab to
    carriage return, the space and the no-break space. *)
Definition is_whitespace (c : ascii) : bool :=
  let n := nat_of_ascii c in
  ((9 <=? n) && (n <=? 13)) || (n =? 32) || (n =? 160).

Fixpoint trimStart (s : string) : string :=
  match s with
  | EmptyString => EmptyString
  | String c rest => if is_whitespace c then trimStart rest else s
  end.

Fixpoint trimEnd (s : string) : string :=
  match s with
  | EmptyString => EmptyString
  | String c rest =>
      match trimEnd rest with
      | EmptyString =>
          if is_whitespace c then EmptyString else String c EmptyString
      | t => String c t
      end
  end.

(** [s.trim()]. *)
Definition trim (s : string) : string := trimEnd (trimStart s).

(** The lower-case mapping on 8-bit characters: the letters A to Z and
    the accented capitals (all of 192..222 but the multiplication
    sign). *)
Definition lower_char (c : ascii) : ascii :=
  let n := nat_of_ascii c in
  if ((65 <=? n) && (n <=? 90))
     || ((192 <=? n) && (n <=? 222) && negb (n =? 215))
  then ascii_of_nat (n + 32)
  else c.

(** [s.toLowerCase()]. *)
Fixpoint toLowerCase (s : string) : string :=
  match s with
  | EmptyString => EmptyString
  | String c rest => String (lower_char c) (toLowerCase rest)
  end.

(** [s.slice(n)] for a constant [n >= 0]. *)
Fixpoint slice (n : nat) (s : string) : string :=
  match n, s with
  | O, _ => s
  | S n', String _ rest => slice n' rest
  | S _, EmptyString => EmptyString
  end.

(** [s.replace(/^-+/, '')]. *)
Fixpoint strip_dashes (s : string) : string :=
  match s with
  | String "-"%char rest => strip_dashes rest
  | _ => s
  end.

End JsString.

(** ** Parsing the arguments and choosing the tool *)

Module Cli.
Local Open Scope string_scope.

(** What a property of [options], or a field of a tool's input, holds.
    A number is what [parseInt] gives or a literal of the source;
    [None] is NaN. *)
Inductive Value : Type :=
| VUndefined
| VBool (b : bool)
| VStr (s : string)
| VList (l : list string)
| VNum (n : option Z).

(** An object literal with string keys, in insertion order. *)
Definition Object : Type := list (string * Value).

(** The conversion to a boolean that [if], [!], [||] and [?:] apply. *)
Definition truthy (v : Value) : bool :=
  match v with
  | VUndefined => false
  | VBool b => b
  | VStr s => Js.nonempty s
  | VList _ => true
  | VNum (Some n) => negb (Z.eqb n 0)
  | VNum None => false
  end.

(** [v || d]. *)
Definition or_else (v d : Value) : Value := if truthy v then v else d.

(** [v !== false]. *)
Definition is_not_false (v : Value) : bool :=
  match v with
  | VBool false => false
  | _ => true
  end.

(** [o.k] for a name [k] that [Object.prototype] does not define (every
    name the command line reads is such a name). *)
Fixpoint get (o : Object) (k : string) : Value :=
  match o with
  | [] => VUndefined
  | (k', v) :: rest => if String.eqb k' k then v else get rest k
  end.

Fixpoint put (k : string) (v : Value) (o : Object) : Object :=
  match o with
  | [] => [(k, v)]
  | (k', v') :: rest =>
      if String.eqb k' k then (k, v) :: rest else (k', v') :: put k v rest
  end.

(** [o[k] = v] on an object made by the literal [{}].  The command line
    stores strings, [true] and numbers under arbitrary names, and lists
    under two fixed names only; under the name [__proto__] such an
    assignment of a primitive value changes nothing. *)
Definition assign (k : string) (v : Value) (o : Object) : Object :=
  if String.eqb k "__proto__" then o else put k v o.

(** [arr[i]] on an array of strings. *)
Definition at_index (arr : list string) (i : nat) : Value :=
  match nth_error arr i with
  | Some s => VStr s
  | None => VUndefined
  end.

(** [if (v) o.k = v]. *)
Definition assign_if (k : string) (v : Value) (o : Object) : Object :=
  if truthy v then assign k v o else o.

(** [value && !value.startsWith('-')] for the argument after a flag. *)
Definition is_value (value : string) : bool :=
  Js.nonempty value && negb (Js.startsWith value "-").

(** The lists the source writes out as defaults. *)
Definition excludeDirs_default : list string :=
  ["node_modules"; ".git"; ".vscode"; ".idea"].

Definition replace_fileTypes_default : list string :=
  [".js"; ".ts"; ".jsx"; ".tsx"; ".json"; ".md"].

(** A line on the console.  The messages are kept without the cross
    mark the source puts in front of them. *)
Inductive Line : Type :=
| Err (text : string)
| Log (text : string).

(** What the command line does with a command: start the interactive
    mode, show the help, print and leave with [process.exit(1)], print
    and return, or hand an input to a tool through
    [executeDirectTool]. *)
Inductive Outcome : Type :=
| Interactive
| ShowHelp
| Exit1 (lines : list Line)
| Return (lines : list Line)
| Call (tool : string) (input : Object).

Section ParseArgs.

(** [parseInt], as given by the engine. *)
Variable parseInt : string -> option Z.

(** The value stored for [--key value]. *)
Definition convert (key value : string) : Value :=
  if String.eqb key "file-types" || String.eqb key "exclude-dirs"
  then VList (map JsString.trim (Js.split value ","))
  else if String.eqb key "max-depth"
  then VNum (parseInt value)
  else if String.eqb key "include-hidden" || String.eqb key "recursive"
          || String.eqb key "dry-run" || String.eqb key "include-node-modules"
  then VBool true
  else VStr value.

(** The loop of [parseArgs] over [args[1..]]. *)
Fixpoint scan (args : list string) (options : Object)
  (positionalArgs : list string) {struct args} : Object * list string :=
  match args with
  | [] => (options, positionalArgs)
  | arg :: rest =>
      if Js.startsWith arg "--" then
        let key := JsString.slice 2 arg in
        match rest with
        | value :: rest' =>
            if is_value value
            then scan rest' (assign key (convert key value) options)
                   positionalArgs
            else scan rest (assign key (VBool true) options) positionalArgs
        | [] => scan rest (assign key (VBool true) options) positionalArgs
        end
      else if Js.startsWith arg "-" then
        let key := JsString.slice 1 arg in
        match rest with
        | value :: rest' =>
            if is_value value
            then scan rest' (assign key (VStr value) options) positionalArgs
            else scan rest (assign key (VBool true) options) positionalArgs
        | [] => scan rest (assign key (VBool true) options) positionalArgs
        end
      else scan rest options (positionalArgs ++ [arg])%list
  end.

(** The [switch] that maps positional arguments to options. *)
Definition mapPositional (command : string) (p : list string) (o : Object)
  : Object :=
  if String.eqb command "browse" then
    assign_if "path" (at_index p 0) o
  else if String.eqb command "find" then
    assign_if "directory" (at_index p 1)
      (assign_if "pattern" (at_index p 0) o)
  else if String.eqb command "search" then
    assign_if "directory" (at_index p 1)
      (assign_if "pattern" (at_index p 0) o)
  else if String.eqb command "replace" then
    assign_if "directory" (at_index p 2)
      (assign_if "replaceText" (at_index p 1)
         (assign_if "searchText" (at_index p 0) o))
  else if String.eqb command "create" then
    assign_if "directory" (at_index p 3)
      (assign_if "template" (at_index p 2)
         (assign_if "type" (at_index p 1)
            (assign_if "name" (at_index p 0) o)))
  else if String.eqb command "backup" then
    assign_if "backupPath" (at_index p 0) o
  else if String.eqb command "generate" then
    let o := assign_if "type" (at_index p 0) o in
    if (1 <? length p)%nat
    then assign "description" (VStr (Js.join " " (tl p))) o
    else o
  else if String.eqb command "implement" then
    if (0 <? length p)%nat
    then assign "feature" (VStr (Js.join " " p)) o
    else o
  else if String.eqb command "refactor" then
    assign_if "refactorType" (at_index p 1)
      (assign_if "filePath" (at_index p 0) o)
  else if String.eqb command "api" then
    assign_if "name" (at_index p 0) o
  else if String.eqb command "app" then
    assign_if "type" (at_index p 1)
      (assign_if "name" (at_index p 0) o)
  else o.

Record Parsed : Type := {
  command : string;
  options : Object;
  positionalArgs : option (list string)
}.

(** [parseArgs()], with [args = process.argv.slice(2)]. *)
Definition parseArgs (args : list string) : Parsed :=
  match args with
  | [] =>
      {| command := "interactive"; options := []; positionalArgs := None |}
  | command :: rest =>
      let '(options, positionalArgs) := scan rest [] [] in
      {| command := command;
         options := mapPositional command positionalArgs options;
         positionalArgs := Some positionalArgs |}
  end.

End ParseArgs.

(** [options.fileTypes ? options.fileTypes[0] : undefined]: the first
    element of a list, the first character of a string. *)
Definition first_of (v : Value) : Value :=
  if truthy v then
    match v with
    | VList (x :: _) => VStr x
    | VStr (String c _) => VStr (String c EmptyString)
    | _ => VUndefined
    end
  else VUndefined.

(** The inputs that [main] and [executeDirectCommand] build with the
    same text. *)
Definition browse_input (options : Object) : Object :=
  [("path", or_else (get options "path") (VStr "."));
   ("recursive", or_else (get options "recursive") (VBool false));
   ("maxDepth", or_else (get options "maxDepth") (VNum (Some 3%Z)));
   ("includeHidden", or_else (get options "includeHidden") (VBool false));
   ("fileTypes", or_else (get options "fileTypes") (VList []));
   ("excludeDirs",
    or_else (get options "excludeDirs") (VList excludeDirs_default));
   ("sortBy", or_else (get options "sortBy") (VStr "name"));
   ("order", or_else (get options "order") (VStr "asc"))].

Definition find_input (options : Object) : Object :=
  [("pattern", get options "pattern");
   ("directory", or_else (get options "directory") (VStr "."));
   ("fileTypes", or_else (get options "fileTypes") (VList []));
   ("excludeDirs",
    or_else (get options "excludeDirs") (VList excludeDirs_default));
   ("maxDepth", or_else (get options "maxDepth") (VNum (Some 5%Z)));
   ("includeHidden", or_else (get options "includeHidden") (VBool false))].

Definition search_input (options : Object) : Object :=
  [("pattern", get options "pattern");
   ("directory", or_else (get options "directory") (VStr "."));
   ("fileExtension", first_of (get options "fileTypes"))].

Definition replace_input (options : Object) : Object :=
  [("searchText", get options "searchText");
   ("replaceText", get options "replaceText");
   ("directory", or_else (get options "directory") (VStr "."));
   ("fileTypes",
    or_else (get options "fileTypes") (VList replace_fileTypes_default));
   ("excludeDirs",
    or_else (get options "excludeDirs") (VList excludeDirs_default));
   ("dryRun", or_else (get options "dryRun") (VBool false))].

Definition create_input (options : Object) : Object :=
  [("name", get options "name");
   ("type", or_else (get options "type") (VStr "node"));
   ("template", or_else (get options "template") (VStr "basic"));
   ("directory", or_else (get options "directory") (VStr "."))].

Definition backup_input (options : Object) : Object :=
  [("backupPath", or_else (get options "backupPath") (VStr "./backups"));
   ("includeNodeModules",
    or_else (get options "includeNodeModules") (VBool false));
   ("compression", or_else (get options "compression") (VBool false))].

Definition implement_input (options : Object) : Object :=
  [("feature", get options "feature");
   ("language", or_else (get options "language") (VStr "javascript"));
   ("framework", or_else (get options "framework") (VStr "node"));
   ("outputDir", or_else (get options "outputDir") (VStr "."));
   ("includeTests", VBool (is_not_false (get options "includeTests")))].

Definition refactor_input (options : Object) : Object :=
  [("filePath", get options "filePath");
   ("refactorType", or_else (get options "refactorType") (VStr "optimize"));
   ("outputFile", get options "outputFile")].

Definition api_input (options : Object) : Object :=
  [("name", get options "name");
   ("framework", or_else (get options "framework") (VStr "express"));
   ("endpoints", or_else (get options "endpoints") (VList []));
   ("outputDir", or_else (get options "outputDir") (VStr "."));
   ("includeAuth", or_else (get options "includeAuth") (VBool false));
   ("includeValidation",
    VBool (is_not_false (get options "includeValidation")))].

Definition app_input (options : Object) : Object :=
  [("name", get options "name");
   ("type", or_else (get options "type") (VStr "calculator"));
   ("framework", or_else (get options "framework") (VStr "vanilla"));
   ("outputDir", or_else (get options "outputDir") (VStr "."));
   ("includeStyles", VBool (is_not_false (get options "includeStyles")));
   ("includeTests", or_else (get options "includeTests") (VBool false));
   ("features", or_else (get options "features") (VList []))].

(** The [switch] of [main], after [parseArgs]. *)
Definition main_switch (command : string) (options : Object) : Outcome :=
  if String.eqb command "interactive" then Interactive
  else if String.eqb command "browse" then
    Call "browseDirectory" (browse_input options)
  else if String.eqb command "find" then
    if truthy (get options "pattern")
    then Call "findFiles" (find_input options)
    else Exit1 [Err "Error: Pattern is required for find command";
                Log "Usage: cursor-ai find <pattern> [directory] [options]"]
  else if String.eqb command "search" then
    if truthy (get options "pattern")
    then Call "searchInFiles" (search_input options)
    else Exit1 [Err "Error: Search pattern is required";
                Log "Usage: cursor-ai search <pattern> [directory] [options]"]
  else if String.eqb command "replace" then
    if truthy (get options "searchText")
    then Call "globalSearchReplace" (replace_input options)
    else Exit1 [Err "Error: Search text is required";
                Log "Usage: cursor-ai replace <search> <replace> [directory] [options]"]
  else if String.eqb command "create" then
    if truthy (get options "name")
    then Call "createProject" (create_input options)
    else Exit1 [Err "Error: Project name is required";
                Log "Usage: cursor-ai create <name> [type] [template] [directory]"]
  else if String.eqb command "backup" then
    Call "backupWorkspace" (backup_input options)
  else if String.eqb command "info" then Call "getSystemInfo" []
  else if String.eqb command "templates" then Call "listTemplates" []
  else if String.eqb command "generate" then
    if truthy (get options "type")
    then Call "generateCode"
           [("type", get options "type");
            ("description",
             or_else (get options "description") (VStr "Generated code"));
            ("language",
             or_else (get options "language") (VStr "javascript"));
            ("outputFile", get options "outputFile")]
    else Exit1 [Err "Error: Code type is required";
                Log "Usage: cursor-ai generate <type> <description>";
                Log "Types: function, class, component, api, test"]
  else if String.eqb command "implement" then
    if truthy (get options "feature")
    then Call "implementFeature" (implement_input options)
    else Exit1 [Err "Error: Feature description is required";
                Log "Usage: cursor-ai implement <feature description>"]
  else if String.eqb command "refactor" then
    if truthy (get options "filePath")
    then Call "refactorCode" (refactor_input options)
    else Exit1 [Err "Error: File path is required";
                Log "Usage: cursor-ai refactor <file> [type]"]
  else if String.eqb command "api" then
    if truthy (get options "name")
    then Call "createAPI" (api_input options)
    else Exit1 [Err "Error: API name is required";
                Log "Usage: cursor-ai api <name>"]
  else if String.eqb command "app" then
    if truthy (get options "name")
    then Call "generateApp" (app_input options)
    else Exit1 [Err "Error: App name is required";
                Log "Usage: cursor-ai app <name> <type>";
                Log "Types: calculator, todo, weather, custom"]
  else if String.eqb command "config" then
    if truthy (get options "get")
    then Call "getConfig" [("path", get options "get")]
    else if truthy (get options "set")
    then Call "setConfig"
           [("path", get options "set"); ("value", get options "value")]
    else Return [Log "Usage: cursor-ai config get <path> | set <path> <value>"]
  else if String.eqb command "help" then ShowHelp
  else Exit1 [Log ("Unknown command: " ++ command);
              Log "Run 'cursor-ai help' for available commands."].

(** [main()], from the arguments of the process. *)
Definition main (parseInt : string -> option Z) (args : list string)
  : Outcome :=
  let parsed := parseArgs parseInt args in
  main_switch (command parsed) (options parsed).

(** ** Direct commands of the interactive mode *)

Definition directCommands : list string :=
  ["browse"; "find"; "search"; "replace"; "create"; "backup";
   "generate"; "implement"; "refactor"; "api"; "app"; "info"; "templates";
   "config"].

Definition isDirectCommand (command : string) : bool :=
  Js.arr_includes directCommands (JsString.toLowerCase command).

(** The last two lines of [executeDirectCommand]. *)
Definition unknown_command (command : string) : Outcome :=
  Return [Log ("Unknown command: " ++ command);
          Log "Type 'help' for available commands."].

Definition executeDirectCommand (command : string) (options : Object)
  : Outcome :=
  if String.eqb command "browse" then
    Call "browseDirectory" (browse_input options)
  else if String.eqb command "find" then
    if truthy (get options "pattern")
    then Call "findFiles" (find_input options)
    else Return [Err "Error: Pattern is required for find command"]
  else if String.eqb command "search" then
    if truthy (get options "pattern")
    then Call "searchInFiles" (search_input options)
    else Return [Err "Error: Search pattern is required"]
  else if String.eqb command "replace" then
    if truthy (get options "searchText")
    then Call "globalSearchReplace" (replace_input options)
    else Return [Err "Error: Search text is required"]
  else if String.eqb command "create" then
    if truthy (get options "name")
    then Call "createProject" (create_input options)
    else Return [Err "Error: Project name is required"]
  else if String.eqb command "backup" then
    Call "backupWorkspace" (backup_input options)
  else if String.eqb command "info" then Call "getSystemInfo" []
  else if String.eqb command "templates" then Call "listTemplates" []
  else if String.eqb command "generate" then
    if truthy (get options "type")
    then Call "generateCode"
           [("type", get options "type");
            ("description", get options "description");
            ("language",
             or_else (get options "language") (VStr "javascript"));
            ("outputFile", get options "outputFile")]
    else Return [Err "Error: Code type is required";
                 Log "Usage: generate <type> <description>";
                 Log "Types: function, class, component, api, test"]
  else if String.eqb command "implement" then
    if truthy (get options "feature")
    then Call "implementFeature" (implement_input options)
    else Return [Err "Error: Feature description is required";
                 Log "Usage: implement <feature description>"]
  else if String.eqb command "refactor" then
    if truthy (get options "filePath")
    then Call "refactorCode" (refactor_input options)
    else Return [Err "Error: File path is required";
                 Log "Usage: refactor <file> [type]"]
  else if String.eqb command "api" then
    if truthy (get options "name")
    then Call "createAPI" (api_input options)
    else Return [Err "Error: API name is required";
                 Log "Usage: api <name>"]
  else if String.eqb command "app" then
    if truthy (get options "name")
    then Call "generateApp" (app_input options)
    else Return [Err "Error: App name is required";
                 Log "Usage: app <name> <type>";
                 Log "Types: calculator, todo, weather, custom"]
  else unknown_command command.

(** The loop of [handleDirectCommand] over [args]: it advances by two,
    and by three after a flag that took a value. *)
Fixpoint flags (args : list string) (options : Object) {struct args}
  : Object :=
  match args with
  | [] => options
  | arg :: rest =>
      if Js.nonempty arg && Js.startsWith arg "-" then
        let key := JsString.strip_dashes arg in
        match rest with
        | value :: rest' =>
            if is_value value then
              let options := assign key (VStr value) options in
              match rest' with
              | _ :: rest'' => flags rest'' options
              | [] => options
              end
            else flags rest' (assign key (VBool true) options)
        | [] => assign key (VBool true) options
        end
      else
        match rest with
        | _ :: rest' => flags rest' options
        | [] => options
        end
  end.

(** [args[i] && !args[i].startsWith('-')], then [args[i]]. *)
Definition plain_at (args : list string) (i : nat) : Value :=
  match nth_error args i with
  | Some s => if is_value s then VStr s else VUndefined
  | None => VUndefined
  end.

(** [if (args[i] && !args[i].startsWith('-')) o.k = args[i]]. *)
Definition assign_plain (k : string) (args : list string) (i : nat)
  (o : Object) : Object :=
  match plain_at args i with
  | VStr s => assign k (VStr s) o
  | _ => o
  end.

Definition mapDirect (command : string) (args : list string) (o : Object)
  : Object :=
  if String.eqb command "browse" then assign_plain "path" args 0 o
  else if String.eqb command "find" then
    assign_plain "directory" args 1 (assign_plain "pattern" args 0 o)
  else if String.eqb command "search" then
    assign_plain "directory" args 1 (assign_plain "pattern" args 0 o)
  else if String.eqb command "replace" then
    assign_plain "directory" args 2
      (assign_plain "replaceText" args 1
         (assign_plain "searchText" args 0 o))
  else if String.eqb command "create" then
    assign_plain "directory" args 3
      (assign_plain "template" args 2
         (assign_plain "type" args 1 (assign_plain "name" args 0 o)))
  else if String.eqb command "backup" then assign_plain "backupPath" args 0 o
  else if String.eqb command "generate" then
    let o := assign_plain "type" args 0 o in
    if (1 <? length args)%nat
    then
      let descArgs :=
        filter (fun arg => negb (Js.startsWith arg "-")) (tl args) in
      assign "description" (VStr (Js.join " " descArgs)) o
    else o
  else if String.eqb command "implement" then
    match plain_at args 0 with
    | VStr _ => assign "feature" (VStr (Js.join " " args)) o
    | _ => o
    end
  else if String.eqb command "refactor" then
    assign_plain "refactorType" args 1 (assign_plain "filePath" args 0 o)
  else if String.eqb command "api" then assign_plain "name" args 0 o
  else if String.eqb command "app" then
    assign_plain "type" args 1 (assign_plain "name" args 0 o)
  else o.

(** [handleDirectCommand(message)].  [split] gives at least one part. *)
Definition handleDirectCommand (message : string) : Outcome :=
  let parts := Js.split (JsString.trim message) " " in
  let command := hd EmptyString parts in
  let args := tl parts in
  executeDirectCommand command (mapDirect command args (flags args [])).

(** ** From the input built by the command line to the tool *)

(** The fields [globalSearchReplace] destructures, read from the object
    [main] passes.  Values of another type than the tool expects are
    left out of the embedding of the tool. *)
Definition as_string (v : Value) : option (option string) :=
  match v with
  | VUndefined => Some None
  | VStr s => Some (Some s)
  | _ => None
  end.

Definition as_list (v : Value) : option (option (list string)) :=
  match v with
  | VUndefined => Some None
  | VList l => Some (Some l)
  | _ => None
  end.

Definition as_bool (v : Value) : option (option bool) :=
  match v with
  | VUndefined => Some None
  | VBool b => Some (Some b)
  | _ => None
  end.

Definition as_replace_input (input : Object) : option SearchReplace.Input :=
  match as_string (get input "searchText"),
        as_string (get input "replaceText"),
        as_string (get input "directory"),
        as_list (get input "fileTypes"),
        as_list (get input "excludeDirs"),
        as_bool (get input "dryRun")
  with
  | Some s, Some r, Some d, Some ft, Some ex, Some dry =>
      Some {| SearchReplace.searchText := s;
              SearchReplace.replaceText := r;
              SearchReplace.directory := d;
              SearchReplace.fileTypes := ft;
              SearchReplace.excludeDirs := ex;
              SearchReplace.dryRun := dry |}
  | _, _, _, _, _, _ => None
  end.

(** The part of [executeDirectTool] that reaches [globalSearchReplace]:
    the tool's outcome and the tree afterwards, or [None] when the
    command line does not call this tool with an input of the expected
    types. *)
Definition run_replace (rx : Js.RegExpHost) (o : Outcome) (root : Fs.Node)
  : option (Js.Outcome SearchReplace.Results * Fs.Node) :=
  match o with
  | Call tool input =>
      if String.eqb tool "globalSearchReplace" then
        match as_replace_input input with
        | Some i => Some (SearchReplace.globalSearchReplace rx i root)
        | None => None
        end
      else None
  | _ => None
  end.

End Cli.

(* ================================================================== *)
(** * [searchInFiles] *)
(* ================================================================== *)

Module Search.

Record Input : Type := {
  pattern : option string;
  directory : option string;
  fileExtension : option string
}.

(** An element of [results]; [file] is the path below the root of the
    walk, [line] counts from one. *)
Record Match : Type := {
  file : RelPath;
  line : nat;
  content : string
}.

(** [s.endsWith(suffix)]. *)
Definition endsWith (s suffix : string) : bool :=
  let n := String.length s in
  let m := String.length suffix in
  (m <=? n)%nat && String.eqb (String.substring (n - m) m s) suffix.

(** The negation of [fileExtension && !entry.name.endsWith(fileExtension)]. *)
Definition wanted (fileExtension : option string) (entry_name : string)
  : bool :=
  match fileExtension with
  | Some ext => if Js.nonempty ext then endsWith entry_name ext else true
  | None => true
  end.

(** [entry.isDirectory() && !entry.name.startsWith(".") &&
    entry.name !== "node_modules"], for an entry that is a directory. *)
Definition searched (entry_name : string) : bool :=
  negb (Js.startsWith entry_name ".")
  && negb (String.eqb entry_name "node_modules").

(** [lines.forEach((line, index) => ...)]. *)
Fixpoint each_line (pattern : string) (fullPath : RelPath) (index : nat)
  (lines : list string) (results : list Match) {struct lines} : list Match :=
  match lines with
  | [] => results
  | text :: rest =>
      each_line pattern fullPath (S index) rest
        (if Js.includes text pattern
         then (results ++ [{| file := fullPath; line := index + 1;
                              content := JsString.trim text |}])%list
         else results)
  end.

(** How a walk ends: [fs.readdir] rejected on the directory at [at_], or
    the walk came to its end with [results]. *)
Inductive Walk : Type :=
| Failed (at_ : RelPath)
| Done (results : list Match).

(** [searchDir(dir)].  Nothing catches a rejection of [fs.readdir]: it
    ends the loops of all the calls under way. *)
Fixpoint searchDir (pattern : string) (fileExtension : option string)
  (node : Fs.Node) (here : RelPath) (results : list Match) {struct node}
  : Walk :=
  match node with
  | Fs.Dir entries =>
      (fix each (entries : list (string * Fs.Node)) (results : list Match)
         {struct entries} : Walk :=
         match entries with
         | [] => Done results
         | (entry_name, entry) :: rest =>
             let fullPath := (here ++ [entry_name])%list in
             match entry with
             | Fs.File l =>
                 if Fs.leaf_isFile l then
                   if wanted fileExtension entry_name then
                     match Fs.leaf_content l with
                     | Some text =>
                         each rest
                           (each_line pattern fullPath 0
                              (Js.split text Js.nl) results)
                     | None => each rest results
                     end
                   else each rest results
                 else each rest results
             | _ =>
                 if searched entry_name then
                   match
                     searchDir pattern fileExtension entry fullPath results
                   with
                   | Failed p => Failed p
                   | Done results => each rest results
                   end
                 else each rest results
             end
         end) entries results
  | Fs.DirUnreadable => Failed here
  | Fs.File _ => Failed here
  end.

(** The tool up to the point where [results] is rendered as text.
    [readdir_message] is the message of the error [fs.readdir] rejects
    with on a path. *)
Definition searchInFiles (readdir_message : RelPath -> string)
  (input : Input) (root : Fs.Node) : Js.Outcome (list Match) :=
  let failed (message : string) :=
    Js.Rejected (Js.new_Error "tools.js:265" ("Search failed: " ++ message)) in
  match pattern input with
  | Some p =>
      if Js.nonempty p
      then
        match searchDir p (fileExtension input) root [] [] with
        | Failed q => failed (readdir_message q)
        | Done results => Js.Resolved results
        end
      else failed "Search pattern is required"
  | None => failed "Search pattern is required"
  end.

End Search.

(** ** What the properties of the search speak about *)

(** [at_path root p n]: following the names of [p] from [root] leads to
    the entry [n]. *)
Inductive at_path : Fs.Node -> RelPath -> Fs.Node -> Prop :=
| at_here (n : Fs.Node) : at_path n [] n
| at_entry (entries : list (string * Fs.Node)) (entry_name : string)
    (entry : Fs.Node) (p : RelPath) (n : Fs.Node) :
    In (entry_name, entry) entries ->
    at_path entry p n ->
    at_path (Fs.Dir entries) (entry_name :: p) n.

(** A match that quotes a line of a readable regular file of the tree:
    the line holds the pattern, and every directory on the way is one
    the search enters. *)
Definition quotes_a_line (pattern : string) (fileExtension : option string)
  (root : Fs.Node) (prefix : RelPath) (m : Search.Match) : Prop :=
  exists (p : RelPath) (l : Fs.Leaf) (text line_text : string),
    Search.file m = (prefix ++ p)%list
    /\ at_path root p (Fs.File l)
    /\ Fs.leaf_isFile l = true
    /\ Fs.leaf_content l = Some text
    /\ nth_error (Js.split text Js.nl) (Search.line m - 1) = Some line_text
    /\ (1 <= Search.line m)%nat
    /\ Js.includes line_text pattern = true
    /\ Search.content m = JsString.trim line_text
    /\ forallb Search.searched (removelast p) = true
    /\ Search.wanted fileExtension (last p EmptyString) = true.

(** A directory the search enters and cannot read. *)
Definition unreadable_on_the_way (root : Fs.Node) : Prop :=
  exists p : RelPath,
    at_path root p Fs.DirUnreadable /\ forallb Search.searched p = true.

(** ** What the properties of the command line speak about *)

(** The options [parseArgs] converts and [main] never reads. *)
Definition unread_options : list string :=
  ["file-types"; "exclude-dirs"; "max-depth"; "include-hidden"; "dry-run";
   "include-node-modules"].

(** The options for which [parseArgs] stores [true] whatever the value
    given. *)
Definition boolean_options : list string :=
  ["include-hidden"; "recursive"; "dry-run"; "include-node-modules"].

(** Two objects that hold the same under every name but [k]. *)
Definition agree_off (k : string) (o1 o2 : Cli.Object) : Prop :=
  forall k', k' <> k -> Cli.get o1 k' = Cli.get o2 k'.

(** An argument list from which a pending flag cannot take a value: it
    is empty, or its first argument is empty or starts with a dash. *)
Definition blocks (tail : list string) : Prop :=
  match tail with
  | [] => True
  | a :: _ => Cli.is_value a = false
  end.

(** The elements at the positions 0, 2, 4, ... *)
Fixpoint even_positions {A : Type} (l : list A) : list A :=
  match l with
  | [] => []
  | a :: rest =>
      a :: match rest with
           | [] => []
           | _ :: rest' => even_positions rest'
           end
  end.

Definition no_dash (a : string) : Prop := Js.startsWith a "-" = false.

(** What the walk of one entry of a directory adds to the matches. *)
Definition entry_quotes (pattern : string) (fileExtension : option string)
  (here : RelPath) (entry_name : string) (entry : Fs.Node)
  (m : Search.Match) : Prop :=
  match entry with
  | Fs.File _ =>
      quotes_a_line pattern fileExtension
        (Fs.Dir [(entry_name, entry)]) here m
      /\ Search.file m = (here ++ [entry_name])%list
  | _ =>
      Search.searched entry_name = true
      /\ quotes_a_line pattern fileExtension entry
           (here ++ [entry_name])%list m
  end.

(** ** Trees and inputs for the examples of the command line and the search *)

Module ToolExamples.

(** A project with a hidden directory and a directory that cannot be
    read. *)
Definition locked_project : Fs.Node :=
  Fs.Dir
    [("src", Fs.Dir [("main.js", Fs.regular 3 20 "aaa")]);
     (".git", Fs.DirUnreadable);
     ("private", Fs.DirUnreadable)].

(** A search for [a] in the files whose names end in [.js]. *)
Definition a_in_js : Search.Input :=
  {| Search.pattern := Some "a"; Search.directory := None;
     Search.fileExtension := Some ".js" |}.

Definition permission_denied (p : RelPath) : string :=
  "EACCES: permission denied, scandir".

(** A [parseInt] for the examples, which never ask for a number. *)
Definition no_number (s : string) : option Z := None.

End ToolExamples.

(* ================================================================== *)
(** * Properties of the conversation driver *)
(* ================================================================== *)

Section DriverFacts.
Import Driver.
Local Open Scope nat_scope.

Context {World : Type}.
Variable host : Host World.
Variable who : Caller.

Lemma model_calls_app (st : State World) (evs : list Event) :
  length (filter is_generate (events st ++ evs)%list)
  = length (filter is_generate (events st)) + length (filter is_generate evs).
Proof. now rewrite filter_app, length_app. Qed.

(** What [act] leaves behind: the observation is pushed, the tool
    function is called when the key is an own property and only then,
    and the model is not called. *)
Lemma act_effect (step : Js.Json) (st : State World) :
  let key := text_of host (Js.get step "function") in
  let input := Js.get step "input" in
  let outcome := fst (dispatch host key input (world st)) in
  let st' := act host step st in
  messages st'
  = (messages st
     ++ [JSON_stringify host (observation_of (observation_text host outcome))])%list
  /\ stepCount st' = stepCount st
  /\ world st' = snd (dispatch host key input (world st))
  /\ model_calls st' = model_calls st
  /\ tool_calls st'
     = tool_calls st + length (invocation host key input)
  /\ exists evs, events st' = (events st ++ evs)%list.
Proof.
  cbv zeta. unfold act.
  destruct (dispatch host (text_of host (Js.get step "function"))
              (Js.get step "input") (world st)) as [outcome w] eqn:D.
  cbn [fst snd].
  assert (I : forall k i, length (filter is_invoke (invocation host k i))
                          = length (invocation host k i)
                          /\ filter is_generate (invocation host k i) = []).
  { intros k i. unfold invocation. now destruct (tools_get host k). }
  destruct (I (text_of host (Js.get step "function")) (Js.get step "input"))
    as [Ii Ig].
  destruct outcome as [result | error];
    unfold model_calls, tool_calls; cbn [push say with_world messages stepCount
                                           world events];
    repeat rewrite filter_app; repeat rewrite length_app;
    rewrite Ii, Ig; cbn [filter is_generate is_invoke length app];
    repeat split; try lia; eexists; rewrite <- !app_assoc; reflexivity.
Qed.

(** Every turn adds one to the counter and starts with a call of the
    model; what it prints and does comes after what was there. *)
Lemma iteration_effect (st : State World) :
  let st' := snd (iteration host who st) in
  stepCount st' = S (stepCount st)
  /\ exists evs,
       events st'
       = (events st ++ Generate (Js.join Js.nl (messages st)) :: evs)%list.
Proof.
  cbv zeta. unfold iteration.
  destruct (generateContent host (Js.join Js.nl (messages st)) (world st))
    as [[response | error] w].
  2: { cbn. split; [reflexivity | eexists; rewrite <- app_assoc; reflexivity]. }
  destruct (JSON_parse host response) as [step |].
  2: { cbn. split; [reflexivity | eexists; rewrite <- app_assoc; reflexivity]. }
  destruct (logStep_throws step).
  { cbn. split; [reflexivity | eexists; rewrite <- app_assoc; reflexivity]. }
  destruct (has_type step "action").
  - cbn [snd].
    match goal with |- context [act host step ?s] =>
      destruct (act_effect step s) as (_ & Hc & _ & _ & _ & evs & He)
    end.
    rewrite Hc, He. cbn. split; [reflexivity |].
    eexists. rewrite <- !app_assoc. reflexivity.
  - destruct (has_type step "output"); cbn;
      (split; [reflexivity | eexists; rewrite <- !app_assoc; reflexivity]).
Qed.

Lemma iteration_stepCount (st : State World) :
  stepCount (snd (iteration host who st)) = S (stepCount st).
Proof. apply iteration_effect. Qed.

(** The loop only ever adds to the trace. *)
Lemma loop_events (n fuel : nat) (st : State World) :
  exists evs, events (loop host who n fuel st) = (events st ++ evs)%list.
Proof.
  revert st. induction fuel as [| fuel IH]; intros st; cbn [loop].
  - exists []. now rewrite app_nil_r.
  - destruct (stepCount st <? n).
    2: { exists []. now rewrite app_nil_r. }
    destruct (iteration_effect st) as (_ & evs & He).
    destruct (iteration host who st) as [[|] st']; cbn [snd] in He.
    + destruct (IH st') as (evs' & He'). rewrite He', He.
      eexists. rewrite <- app_assoc. reflexivity.
    + rewrite He. eexists. reflexivity.
Qed.

(** The loop never stops for lack of fuel: when the fuel given by
    [run_from] is used up the counter has reached the budget. *)
Lemma loop_fuel_suffices (n fuel : nat) (st : State World) :
  n - stepCount st <= fuel ->
  loop host who n (S fuel) st = loop host who n fuel st.
Proof.
  revert st. induction fuel as [| fuel IH]; intros st Hf.
  - cbn [loop]. destruct (Nat.ltb_spec (stepCount st) n); [lia | reflexivity].
  - change (loop host who n (S (S fuel)) st)
      with (if stepCount st <? n then
              match iteration host who st with
              | (Continue, st') => loop host who n (S fuel) st'
              | (Break, st') => st'
              end
            else st).
    cbn [loop].
    destruct (Nat.ltb_spec (stepCount st) n); [| reflexivity].
    pose proof (iteration_stepCount st) as Hc.
    destruct (iteration host who st) as [[|] st']; cbn [snd] in Hc;
      [apply IH; lia | reflexivity].
Qed.

(** Unfolding [run_from] at a turn that continues. *)
Lemma run_from_continue (n : nat) (st st' : State World) :
  stepCount st < n ->
  iteration host who st = (Continue, st') ->
  run_from host who n st = run_from host who n st'.
Proof.
  intros Hlt Hit. unfold run_from.
  pose proof (iteration_stepCount st) as Hc. rewrite Hit in Hc. cbn in Hc.
  replace (n - stepCount st) with (S (n - stepCount st')) by lia.
  cbn [loop]. destruct (Nat.ltb_spec (stepCount st) n); [| lia].
  now rewrite Hit.
Qed.

(** Unfolding [run_from] at a turn that breaks. *)
Lemma run_from_break (n : nat) (st st' : State World) :
  stepCount st < n ->
  iteration host who st = (Break, st') ->
  run_from host who n st = report who n st'.
Proof.
  intros Hlt Hit. unfold run_from.
  replace (n - stepCount st) with (S (n - S (stepCount st))) by lia.
  cbn [loop]. destruct (Nat.ltb_spec (stepCount st) n); [| lia].
  now rewrite Hit.
Qed.

(** With the budget used up nothing is left to run. *)
Lemma run_from_exhausted (n : nat) (st : State World) :
  n <= stepCount st ->
  run_from host who n st = say (WarnMaximumSteps who) st.
Proof.
  intros Hle. unfold run_from, report.
  replace (n - stepCount st) with 0 by lia. cbn [loop].
  destruct (Nat.leb_spec n (stepCount st)); [reflexivity | lia].
Qed.

(** A turn calls the model exactly once. *)
Lemma iteration_model_calls (st : State World) :
  model_calls (snd (iteration host who st)) = S (model_calls st).
Proof.
  unfold iteration.
  destruct (generateContent host (Js.join Js.nl (messages st)) (world st))
    as [[response | error] w].
  2: { unfold model_calls. cbn. rewrite !filter_app, !length_app. cbn. lia. }
  destruct (JSON_parse host response) as [step |].
  2: { unfold model_calls. cbn. rewrite !filter_app, !length_app. cbn. lia. }
  destruct (logStep_throws step).
  { unfold model_calls. cbn. rewrite !filter_app, !length_app. cbn. lia. }
  destruct (has_type step "action").
  - cbn [snd].
    match goal with |- context [act host step ?s] =>
      destruct (act_effect step s) as (_ & _ & _ & Hm & _)
    end.
    rewrite Hm. unfold model_calls. cbn.
    rewrite !filter_app, !length_app. cbn. lia.
  - destruct (has_type step "output"); unfold model_calls; cbn;
      rewrite !filter_app, !length_app; cbn; lia.
Qed.

Lemma say_model_calls (line : Console) (st : State World) :
  model_calls (say line st) = model_calls st.
Proof.
  unfold model_calls. cbn. rewrite filter_app, length_app. cbn. lia.
Qed.

Lemma report_model_calls (n : nat) (st : State World) :
  model_calls (report who n st) = model_calls st.
Proof.
  unfold report. destruct (n <=? stepCount st); [apply say_model_calls | reflexivity].
Qed.

(** The model is never called beyond the budget, whatever it answers. *)
Lemma model_calls_within_budget (n : nat) (st : State World) :
  model_calls (run_from host who n st)
  <= model_calls st + (n - stepCount st).
Proof.
  remember (n - stepCount st) as k eqn:Hk. revert st Hk.
  induction k as [| k IH]; intros st Hk.
  - rewrite run_from_exhausted by lia. rewrite say_model_calls. lia.
  - assert (Hlt : stepCount st < n) by lia.
    pose proof (iteration_stepCount st) as Hc.
    pose proof (iteration_model_calls st) as Hm.
    destruct (iteration host who st) as [[|] st'] eqn:Hit; cbn [snd] in *.
    + rewrite (run_from_continue n st st' Hlt Hit).
      specialize (IH st' ltac:(lia)). lia.
    + rewrite (run_from_break n st st' Hlt Hit), report_model_calls. lia.
Qed.

End DriverFacts.

Section DriverClaims.
Import Driver.
Local Open Scope nat_scope.

Context {World : Type}.
Variable host : Host World.
Variable who : Caller.








End DriverClaims.



(** C2.  A response that [JSON.parse] rejects ends the turn at once: the
    history is left as it was (neither the response nor an observation
    is pushed), no tool function is called, and the model is not called
    again; the run ends with the parse error printed, followed only by
    the maximum-steps warning when this was the last step of the
    budget. *)
Theorem C2_parse_failure_ends_turn :
  forall (World : Type) (host : Driver.Host World) (who : Driver.Caller)
         (n : nat) (st : Driver.State World) (response : string) (w : World),
    (Driver.stepCount st < n)%nat ->
    Driver.generateContent host (Js.join Js.nl (Driver.messages st))
      (Driver.world st)
    = (Js.Resolved response, w) ->
    Driver.JSON_parse host response = None ->
    let final := Driver.run_from host who n st in
    Driver.messages final = Driver.messages st
    /\ Driver.events final
       = (Driver.events st
          ++ [Driver.Generate (Js.join Js.nl (Driver.messages st));
              Driver.Print (Driver.ErrParsing response)]
          ++ (if (n <=? S (Driver.stepCount st))%nat
              then [Driver.Print (Driver.WarnMaximumSteps who)]
              else []))%list
    /\ Driver.model_calls final = S (Driver.model_calls st)
    /\ Driver.tool_calls final = Driver.tool_calls st.
Proof.
  intros World host who n st response w Hlt Hg Hp final. subst final.
  assert (Hit : Driver.iteration host who st
                = (Driver.Break,
                   Driver.say (Driver.ErrParsing response) (Driver.answered st w))).
  { unfold Driver.iteration. rewrite Hg, Hp. reflexivity. }
  rewrite (run_from_break host who n st _ Hlt Hit).
  unfold Driver.report. cbn [Driver.say Driver.answered Driver.stepCount].
  unfold Driver.model_calls, Driver.tool_calls.
  destruct (n <=? S (Driver.stepCount st))%nat;
    cbn [Driver.say Driver.answered Driver.messages Driver.events];
    rewrite <- ?app_assoc; cbn [app];
    rewrite ?filter_app, ?length_app; cbn; repeat split; lia.
Qed.

(** The babbling host: the first answer does not parse, and the run of
    [executeCommand] ends there. *)
Lemma C2_parse_failure_ends_turn_witness :
  let st := Driver.start Examples.babbling_host Driver.Command "hello" tt in
  let final := Driver.run_from Examples.babbling_host Driver.Command 20 st in
  Driver.messages final = Driver.messages st
  /\ Driver.model_calls final = 1%nat
  /\ Driver.tool_calls final = 0%nat.
Proof.
  cbv zeta.
  pose proof
    (C2_parse_failure_ends_turn unit Examples.babbling_host Driver.Command 20
       (Driver.start Examples.babbling_host Driver.Command "hello" tt)
       "Sure, here you go" tt ltac:(cbn; lia) eq_refl eq_refl)
    as (Hm & _ & Hc & Ht).
  split; [exact Hm | split; [exact Hc | exact Ht]].
Defined.




(** C9 as stated fails: the outcome for an absent name and the outcome
    of [findFiles] run without a pattern are both rejections with a
    plain [Error]; nothing but their texts tells them apart. *)
Lemma C9_same_error_shape :
  Driver.tools_get Examples.finder_host "ghost" = Driver.Undefined
  /\ (exists fn, Driver.tools_get Examples.finder_host "findFiles" = Driver.Own fn)
  /\ fst (Driver.dispatch Examples.finder_host "findFiles" (Some (Js.JObj []))
            Examples.empty_world)
     = Js.Rejected
         (Js.new_Error "tools.js:513"
            "File search failed: Search pattern is required")
  /\ ~ distinguishable
         (fst (Driver.dispatch Examples.finder_host "ghost" (Some (Js.JObj []))
                 Examples.empty_world))
         (fst (Driver.dispatch Examples.finder_host "findFiles"
                 (Some (Js.JObj [])) Examples.empty_world)).
Proof.
  split; [reflexivity |]. split; [eexists; reflexivity |].
  split; [reflexivity |].
  intros H. apply H. reflexivity.
Qed.

(** C9, amended.  A name that [tools] has no property for makes the call
    settle as a rejection with a plain [Error] whose message is
    [Tool '<name>' not found]; no tool function is called and the world
    is untouched.  It is told apart from a fulfilled call, and from
    another rejection with a plain [Error] only by the message: the
    driver builds the observation of both with the same text
    template. *)
Theorem C9_not_found_is_a_plain_error :
  forall (World : Type) (host : Driver.Host World) (key : string)
         (input : option Js.Json) (w : World),
    Driver.tools_get host key = Driver.Undefined ->
    let outcome := fst (Driver.dispatch host key input w) in
    Driver.dispatch host key input w
    = (Js.Rejected (Js.new_Error "cli.js:256" ("Tool '" ++ key ++ "' not found")),
       w)
    /\ Driver.invocation host key input = []
    /\ Driver.shape outcome = Driver.Failed "Error"
    /\ (forall result : string, distinguishable outcome (Js.Resolved result))
    /\ (forall e : Js.JsError,
           Js.err_name e = "Error" -> ~ distinguishable outcome (Js.Rejected e))
    /\ Driver.observation_text host outcome
       = "Error: " ++ ("Tool '" ++ key ++ "' not found") ++ Js.nl ++ "Stack: "
         ++ Driver.stack host
              (Js.new_Error "cli.js:256" ("Tool '" ++ key ++ "' not found")).
Proof.
  intros World host key input w Hu outcome. subst outcome.
  unfold Driver.dispatch, Driver.invocation. rewrite Hu. cbn [fst].
  split; [reflexivity |]. split; [reflexivity |]. split; [reflexivity |].
  split; [intros result; unfold distinguishable; cbn; discriminate |].
  split; [| reflexivity].
  intros e He H. apply H. cbn. now rewrite He.
Qed.

(** The name [ghost] on the host that registers [findFiles]. *)
Lemma C9_not_found_is_a_plain_error_witness :
  Driver.dispatch Examples.finder_host "ghost" None Examples.empty_world
  = (Js.Rejected (Js.new_Error "cli.js:256" "Tool 'ghost' not found"),
     Examples.empty_world).
Proof.
  exact (proj1 (C9_not_found_is_a_plain_error Registry.World Examples.finder_host
                  "ghost" None Examples.empty_world eq_refl)).
Defined.

(* ================================================================== *)
(** * Properties of the directory walks *)
(* ================================================================== *)

Section BrowseFacts.
Import Browse.
Local Open Scope Z_scope.

Variable cfg : Config.

Lemma scan_ok_empty : scan_ok cfg empty_results.
Proof. split; constructor. Qed.

Lemma scan_ok_note_read (here : RelPath) (r : Results) :
  Forall (allowed (c_excludeDirs cfg)) here ->
  scan_ok cfg r -> scan_ok cfg (note_read here r).
Proof.
  intros Hh [Hf Hd Hr]. split; cbn; try assumption.
  apply Forall_app. split; [assumption | now constructor].
Qed.

Lemma scan_ok_push_file (f : FileEntry) (r : Results) :
  f_depth f <= c_maxDepth cfg ->
  Forall (allowed (c_excludeDirs cfg)) (removelast (f_path f)) ->
  scan_ok cfg r -> scan_ok cfg (push_file f r).
Proof.
  intros H1 H2 [Hf Hd Hr]. split; cbn; try assumption.
  apply Forall_app. split; [assumption | now constructor].
Qed.

Lemma scan_ok_push_directory (d : DirEntry) (r : Results) :
  d_depth d <= c_maxDepth cfg ->
  Forall (allowed (c_excludeDirs cfg)) (d_path d) ->
  scan_ok cfg r -> scan_ok cfg (push_directory d r).
Proof.
  intros H1 H2 [Hf Hd Hr]. split; cbn; try assumption.
  apply Forall_app. split; [assumption | now constructor].
Qed.

(** The walk keeps the invariant, from any directory reached along
    allowed names. *)
Lemma scanDirectory_ok (node : Fs.Node) :
  forall (here : RelPath) (depth : Z) (r : Results),
    Forall (allowed (c_excludeDirs cfg)) here ->
    scan_ok cfg r ->
    scan_ok cfg (scanDirectory cfg node here depth r).
Proof.
  induction node as [ | l | entries IH] using Fs.Node_deep_ind;
    intros here depth r Hhere Hr; cbn [scanDirectory];
    destruct (Z.gtb_spec depth (c_maxDepth cfg)) as [Hgt | Hle]; try assumption;
    try (now apply scan_ok_note_read).
  pose proof (scan_ok_note_read here r Hhere Hr) as Hr0.
  generalize dependent (note_read here r). clear Hr r.
  induction IH as [| [name entry] rest Hentry _ IHrest]; intros r Hr.
  - assumption.
  - cbn [snd] in Hentry.
    destruct (negb (c_includeHidden cfg) && Js.startsWith name ".");
      [now apply IHrest |].
    destruct (Fs.isDirectory entry && Js.arr_includes (c_excludeDirs cfg) name)
      eqn:Hex; [now apply IHrest |].
    assert (Hname : Fs.isDirectory entry = true ->
                    Forall (allowed (c_excludeDirs cfg)) (here ++ [name])%list).
    { intros Hd. rewrite Hd in Hex. cbn in Hex.
      apply Forall_app. split; [assumption | now constructor]. }
    destruct entry as [sub | | l].
    + apply IHrest.
      pose proof (scan_ok_push_directory
                    {| d_name := name; d_path := (here ++ [name])%list;
                       d_depth := depth |} r Hle (Hname eq_refl) Hr) as Hr1.
      destruct (c_recursive cfg && (depth <? c_maxDepth cfg));
        [apply Hentry; [exact (Hname eq_refl) | exact Hr1] | exact Hr1].
    + apply IHrest.
      pose proof (scan_ok_push_directory
                    {| d_name := name; d_path := (here ++ [name])%list;
                       d_depth := depth |} r Hle (Hname eq_refl) Hr) as Hr1.
      destruct (c_recursive cfg && (depth <? c_maxDepth cfg));
        [apply Hentry; [exact (Hname eq_refl) | exact Hr1] | exact Hr1].
    + destruct (Fs.leaf_stat l) as [stats |]; [| assumption].
      match goal with |- context [if ?c then _ else _] => destruct c end;
        apply IHrest; [| assumption].
      apply scan_ok_push_file; cbn; [assumption | | assumption].
      now rewrite removelast_last.
Qed.

End BrowseFacts.

Section SortFacts.
Local Open Scope Z_scope.
Context {A : Type}.
Variable cmp : A -> A -> Z.

Lemma insert_sorted_perm (x : A) (l : list A) :
  Permutation (Browse.insert_sorted cmp x l) (x :: l).
Proof.
  induction l as [| y l IH]; cbn; [reflexivity |].
  destruct (cmp y x >? 0); [reflexivity |].
  rewrite IH. apply perm_swap.
Qed.

Lemma fold_insert_perm (l acc : list A) :
  Permutation
    (fold_left (fun acc x => Browse.insert_sorted cmp x acc) l acc)
    (acc ++ l)%list.
Proof.
  revert acc. induction l as [| x l IH]; intros acc; cbn.
  - now rewrite app_nil_r.
  - rewrite IH, insert_sorted_perm.
    change (x :: acc)%list with ([x] ++ acc)%list.
    change (x :: l)%list with ([x] ++ l)%list.
    rewrite app_assoc. apply Permutation_app_tail, Permutation_app_comm.
Qed.

(** Sorting moves the entries and neither adds nor drops one. *)
Lemma array_sort_perm (l : list A) : Permutation (Browse.array_sort cmp l) l.
Proof. unfold Browse.array_sort. now rewrite fold_insert_perm. Qed.

Lemma array_sort_Forall (P : A -> Prop) (l : list A) :
  Forall P l -> Forall P (Browse.array_sort cmp l).
Proof.
  intros H. eapply Permutation_Forall; [| exact H].
  symmetry. apply array_sort_perm.
Qed.

End SortFacts.

Section BrowseRoot.
Import Browse.
Local Open Scope Z_scope.

Variable cfg : Config.
Hypothesis depth_zero : c_maxDepth cfg = 0.

Lemma scan_children_only (all extra entries : list (string * Fs.Node))
  (r : Results) :
  all = (extra ++ entries)%list ->
  children_only all r ->
  children_only all (scanDirectory cfg (Fs.Dir entries) [] 0 r).
Proof.
  intros Hall Hr. cbn [scanDirectory]. rewrite depth_zero. cbn [Z.gtb Z.compare].
  rewrite (andb_false_r (c_recursive cfg) : c_recursive cfg && (0 <? 0) = false).
  assert (Hr0 : children_only all (note_read [] r)) by exact Hr.
  generalize dependent (note_read [] r). clear Hr r.
  revert extra Hall.
  induction entries as [| [name entry] rest IH]; intros extra Hall r Hr.
  - assumption.
  - assert (Hin : In (name, entry) all).
    { rewrite Hall. apply in_or_app. right. now left. }
    assert (Hnext : all = ((extra ++ [(name, entry)]) ++ rest)%list).
    { rewrite Hall, <- app_assoc. reflexivity. }
    specialize (IH (extra ++ [(name, entry)])%list Hnext).
    destruct (negb (c_includeHidden cfg) && Js.startsWith name ".");
      [now apply IH |].
    destruct (Fs.isDirectory entry && Js.arr_includes (c_excludeDirs cfg) name);
      [now apply IH |].
    destruct Hr as [Hf Hd].
    destruct entry as [sub | | l].
    + apply IH. split; cbn; [assumption |].
      apply Forall_app. split; [assumption |].
      constructor; [| constructor]. cbn. repeat split.
      exists (Fs.Dir sub). now split.
    + apply IH. split; cbn; [assumption |].
      apply Forall_app. split; [assumption |].
      constructor; [| constructor]. cbn. repeat split.
      exists Fs.DirUnreadable. now split.
    + destruct (Fs.leaf_stat l) as [stats |]; [| now split].
      match goal with |- context [if ?c then _ else _] => destruct c end;
        apply IH; [| now split].
      split; cbn; [| assumption].
      apply Forall_app. split; [assumption |].
      constructor; [| constructor]. cbn. repeat split. now exists l.
Qed.

End BrowseRoot.

Section FindFacts.
Import Find.
Local Open Scope Z_scope.

Variable rx : Js.RegExpHost.
Variable cfg : Config.


End FindFacts.



(** C8.  Every entry [browseDirectory] records has a depth of at most
    [maxDepth]; and with [maxDepth = 0] and [recursive = true] the
    recorded files and directories are entries of the starting directory
    itself, each under its own name and at depth 0. *)
Theorem C8_depth_is_bounded :
  forall (localeCompare : string -> string -> Z) (input : Browse.Input)
         (root : Fs.Node),
    let r := Browse.browseDirectory localeCompare input root in
    let limit := Browse.c_maxDepth (Browse.config_of input) in
    (Forall (fun f => (Browse.f_depth f <= limit)%Z) (Browse.files r)
     /\ Forall (fun d => (Browse.d_depth d <= limit)%Z) (Browse.directories r))
    /\ (Browse.maxDepth input = Some 0%Z ->
        Browse.recursive input = Some true ->
        Forall (fun f => (exists l, In (Browse.f_name f, Fs.File l) (children root))
                         /\ Browse.f_path f = [Browse.f_name f]
                         /\ Browse.f_depth f = 0%Z)
          (Browse.files r)
        /\ Forall (fun d => (exists child,
                                In (Browse.d_name d, child) (children root)
                                /\ Fs.isDirectory child = true)
                            /\ Browse.d_path d = [Browse.d_name d]
                            /\ Browse.d_depth d = 0%Z)
             (Browse.directories r)).
Proof.
  intros localeCompare input root r limit. subst r limit. split.
  - pose proof (scanDirectory_ok (Browse.config_of input) root [] 0
                  Browse.empty_results (Forall_nil _)
                  (scan_ok_empty (Browse.config_of input))) as [Hf Hd _].
    unfold Browse.browseDirectory. cbn [Browse.files Browse.directories].
    split; apply array_sort_Forall.
    + eapply Forall_impl; [| exact Hf]. now intros f [H _].
    + eapply Forall_impl; [| exact Hd]. now intros d [H _].
  - intros Hdepth _.
    assert (Hzero : Browse.c_maxDepth (Browse.config_of input) = 0%Z).
    { unfold Browse.config_of. cbn. now rewrite Hdepth. }
    unfold Browse.browseDirectory. cbn [Browse.files Browse.directories].
    assert (H : children_only (children root)
                  (Browse.scanDirectory (Browse.config_of input) root [] 0
                     Browse.empty_results)).
    { destruct root as [entries | | l].
      - apply (scan_children_only (Browse.config_of input) Hzero entries [] entries);
          [reflexivity | split; constructor].
      - cbn [Browse.scanDirectory]. rewrite Hzero. cbn. split; constructor.
      - cbn [Browse.scanDirectory]. rewrite Hzero. cbn. split; constructor. }
    destruct H as [Hf Hd]. split; apply array_sort_Forall; assumption.
Qed.

(** The project browsed with [maxDepth = 0]: what is recorded are
    entries of the project directory itself. *)
Lemma C8_depth_is_bounded_witness :
  let r :=
    Browse.browseDirectory Examples.by_code
      (Examples.browse_input 0 default_excludeDirs) Examples.project in
  Forall (fun f => (exists l, In (Browse.f_name f, Fs.File l)
                                (children Examples.project))
                   /\ Browse.f_path f = [Browse.f_name f]
                   /\ Browse.f_depth f = 0%Z)
    (Browse.files r)
  /\ Forall (fun d => (exists child,
                          In (Browse.d_name d, child) (children Examples.project)
                          /\ Fs.isDirectory child = true)
                      /\ Browse.d_path d = [Browse.d_name d]
                      /\ Browse.d_depth d = 0%Z)
       (Browse.directories r).
Proof.
  exact (proj2 (C8_depth_is_bounded Examples.by_code
                  (Examples.browse_input 0 default_excludeDirs) Examples.project)
           eq_refl eq_refl).
Defined.

(* ================================================================== *)
(** * Properties of search and replace *)
(* ================================================================== *)

Section SearchReplaceFacts.
Import SearchReplace.
Local Open Scope Z_scope.

Variable rx : Js.RegExpHost.
Variable cfg : Config.

Lemma processFile_counting (fullPath : RelPath) (entry_name : string)
  (l : Fs.Leaf) (r : Results) :
  counting_only cfg ->
  Fs.leaf_isFile l = true ->
  processFile rx cfg fullPath entry_name l r
  = (l, fold_left record_match
          (Claimed.file_report (c_searchText cfg) (c_fileTypes cfg) fullPath
             entry_name l) r).
Proof.
  intros Hdry Hfile. unfold processFile, Claimed.file_report. rewrite Hfile.
  cbn [andb].
  destruct ((length (c_fileTypes cfg) =? 0)%nat
            || Js.arr_includes (c_fileTypes cfg) (NodePath.extname entry_name));
    [| reflexivity].
  destruct (Fs.leaf_content l) as [content |]; [| reflexivity].
  destruct (count_matches content (c_searchText cfg) >? 0); [| reflexivity].
  destruct Hdry as [Hd | Hn]; [rewrite Hd | rewrite Hn; destruct (c_dryRun cfg)];
    reflexivity.
Qed.

(** A counting run returns the tree it was given and the results of
    counting the report. *)
Lemma processDirectory_counting (node : Fs.Node) :
  counting_only cfg ->
  forall (here : RelPath) (r : Results),
    processDirectory rx cfg node here r
    = (node,
       fold_left record_match
         (Claimed.match_report (c_searchText cfg) (c_fileTypes cfg)
            (c_excludeDirs cfg) node here) r).
Proof.
  intros Hdry.
  induction node as [ | l | entries IH] using Fs.Node_deep_ind;
    intros here r; try reflexivity.
  cbn [processDirectory Claimed.match_report].
  revert r.
  induction IH as [| [entry_name entry] rest Hentry _ IHrest]; intros r.
  - reflexivity.
  - cbn [snd] in Hentry.
    destruct entry as [sub | | l].
    + destruct (Js.arr_includes (c_excludeDirs cfg) entry_name); cbn [negb].
      * specialize (IHrest r).
        match type of IHrest with
        | (let '(_, _) := ?x in _) = _ => destruct x as [rest' r']
        end.
        injection IHrest as -> ->. reflexivity.
      * rewrite Hentry.
        specialize
          (IHrest
             (fold_left record_match
                (Claimed.match_report (c_searchText cfg) (c_fileTypes cfg)
                   (c_excludeDirs cfg) (Fs.Dir sub) (here ++ [entry_name])%list)
                r)).
        match type of IHrest with
        | (let '(_, _) := ?x in _) = _ => destruct x as [rest' r']
        end.
        injection IHrest as -> ->. now rewrite fold_left_app.
    + destruct (Js.arr_includes (c_excludeDirs cfg) entry_name); cbn [negb].
      * specialize (IHrest r).
        match type of IHrest with
        | (let '(_, _) := ?x in _) = _ => destruct x as [rest' r']
        end.
        injection IHrest as -> ->. reflexivity.
      * cbn [processDirectory].
        specialize (IHrest r).
        match type of IHrest with
        | (let '(_, _) := ?x in _) = _ => destruct x as [rest' r']
        end.
        injection IHrest as -> ->. reflexivity.
    + destruct (Fs.leaf_isFile l) eqn:Hfile.
      * rewrite (processFile_counting _ entry_name l r Hdry Hfile).
        match goal with
        | |- context [fold_left record_match ?rep r] =>
            specialize (IHrest (fold_left record_match rep r))
        end.
        match type of IHrest with
        | (let '(_, _) := ?x in _) = _ => destruct x as [rest' r']
        end.
        injection IHrest as -> ->. now rewrite fold_left_app.
      * specialize (IHrest r).
        match type of IHrest with
        | (let '(_, _) := ?x in _) = _ => destruct x as [rest' r']
        end.
        injection IHrest as -> ->.
        unfold Claimed.file_report. rewrite Hfile. reflexivity.
Qed.

End SearchReplaceFacts.

Lemma fold_record_match (report : list (RelPath * Z)) :
  forall r : SearchReplace.Results,
    fold_left record_match report r
    = {| SearchReplace.filesProcessed :=
           (SearchReplace.filesProcessed r + Z.of_nat (length report))%Z;
         SearchReplace.matchesFound :=
           (SearchReplace.matchesFound r
            + fold_right Z.add 0%Z (map snd report))%Z;
         SearchReplace.replacements := SearchReplace.replacements r;
         SearchReplace.changes :=
           (SearchReplace.changes r
            ++ SearchReplace.changes (Claimed.counted report))%list |}.
Proof.
  induction report as [| [p m] report IH]; intros [fp mf rp ch].
  - cbn. f_equal; try lia. now rewrite app_nil_r.
  - cbn [fold_left]. rewrite IH.
    cbn [record_match SearchReplace.push_unreplaced SearchReplace.count_file
           SearchReplace.filesProcessed SearchReplace.matchesFound
           SearchReplace.replacements SearchReplace.changes fst snd
           Claimed.counted map length fold_right].
    f_equal; try lia. now rewrite <- app_assoc.
Qed.

Lemma fold_record_match_empty (report : list (RelPath * Z)) :
  fold_left record_match report SearchReplace.empty_results
  = Claimed.counted report.
Proof.
  rewrite fold_record_match. unfold Claimed.counted. cbn. reflexivity.
Qed.

(** A run of the tool that only counts: the tree is returned as it was,
    and the results are those of counting the report. *)
Lemma globalSearchReplace_counting (rx : Js.RegExpHost)
  (input : SearchReplace.Input) (root : Fs.Node) :
  or_default true (SearchReplace.dryRun input) = true
  \/ SearchReplace.replaceText input = None ->
  snd (SearchReplace.globalSearchReplace rx input root) = root
  /\ forall s,
       SearchReplace.searchText input = Some s ->
       Js.nonempty s = true ->
       fst (SearchReplace.globalSearchReplace rx input root)
       = Js.Resolved
           (Claimed.counted
              (Claimed.match_report s
                 (or_default SearchReplace.default_fileTypes
                    (SearchReplace.fileTypes input))
                 (or_default default_excludeDirs
                    (SearchReplace.excludeDirs input))
                 root [])).
Proof.
  intros Hdry. unfold SearchReplace.globalSearchReplace.
  destruct (SearchReplace.searchText input) as [s |];
    [| split; [reflexivity | discriminate]].
  destruct (Js.nonempty s) eqn:Hs;
    [| split; [reflexivity | intros s' E; injection E as <-; congruence]].
  match goal with |- context [SearchReplace.processDirectory rx ?c root [] _] =>
    rewrite (processDirectory_counting rx c root Hdry [] SearchReplace.empty_results)
  end.
  cbn [fst snd SearchReplace.c_searchText SearchReplace.c_fileTypes
         SearchReplace.c_excludeDirs].
  split; [reflexivity |].
  intros s' E _. injection E as <-. now rewrite fold_record_match_empty.
Qed.

Section CountFacts.
Local Open Scope nat_scope.

Variable sep : string.
Hypothesis sep_nonempty : Js.nonempty sep = true.

Lemma sep_length : 1 <= String.length sep.
Proof. destruct sep; [discriminate | cbn; lia]. Qed.

Lemma split_scan_length_piece (s : string) :
  forall k piece piece',
    length (Js.split_scan sep k piece s) = length (Js.split_scan sep k piece' s).
Proof.
  induction s as [| c s IH]; intros k piece piece'; [reflexivity |].
  cbn [Js.split_scan]. destruct k as [| k]; [| apply IH].
  destruct (String.prefix sep (String c s)); cbn [length]; [reflexivity | apply IH].
Qed.

Lemma split_scan_length_pos (s : string) :
  forall k piece, 1 <= length (Js.split_scan sep k piece s).
Proof.
  induction s as [| c s IH]; intros k piece; cbn [Js.split_scan]; [cbn; lia |].
  destruct k as [| k]; [| apply IH].
  destruct (String.prefix sep (String c s)); cbn [length]; [lia | apply IH].
Qed.

(** Skipping [k] characters is scanning what is left after them. *)
Lemma split_scan_skip (s : string) :
  forall k piece,
    length (Js.split_scan sep k piece s)
    = length (Js.split_scan sep 0 piece (Claimed.drop k s)).
Proof.
  induction s as [| c s IH]; intros k piece.
  - destruct k; reflexivity.
  - destruct k as [| k]; [reflexivity |]. cbn [Js.split_scan Claimed.drop].
    apply IH.
Qed.

Lemma found_by_scan_empty : found_by_scan sep EmptyString = 0.
Proof. reflexivity. Qed.

Lemma found_by_scan_match (c : ascii) (s : string) :
  String.prefix sep (String c s) = true ->
  found_by_scan sep (String c s)
  = S (found_by_scan sep (Claimed.drop (String.length sep) (String c s))).
Proof.
  intros H. unfold found_by_scan. cbn [Js.split_scan]. rewrite H.
  cbn [length]. rewrite split_scan_skip.
  pose proof sep_length as Hl.
  replace (String.length sep) with (S (String.length sep - 1)) at 2 by lia.
  cbn [Claimed.drop].
  pose proof (split_scan_length_pos
                (Claimed.drop (String.length sep - 1) s) 0 EmptyString).
  lia.
Qed.

Lemma found_by_scan_no_match (c : ascii) (s : string) :
  String.prefix sep (String c s) = false ->
  found_by_scan sep (String c s) = found_by_scan sep s.
Proof.
  intros H. unfold found_by_scan. cbn [Js.split_scan]. rewrite H.
  now rewrite (split_scan_length_piece s 0 _ EmptyString).
Qed.

Lemma drop_drop (a b : nat) (s : string) :
  Claimed.drop a (Claimed.drop b s) = Claimed.drop (b + a) s.
Proof.
  revert s. induction b as [| b IH]; intros s; [reflexivity |].
  destruct s as [| c s]; cbn [Claimed.drop Nat.add].
  - destruct a; reflexivity.
  - apply IH.
Qed.

Lemma drop_length (n : nat) (s : string) :
  String.length (Claimed.drop n s) = String.length s - n.
Proof.
  revert s. induction n as [| n IH]; intros s; cbn [Claimed.drop]; [lia |].
  destruct s as [| c s]; cbn [String.length]; [reflexivity | apply IH].
Qed.

Lemma prefix_empty_subject : String.prefix sep EmptyString = false.
Proof. destruct sep; [discriminate | reflexivity]. Qed.

(** Moving a family of offsets towards the start, and away from it. *)
Lemma spaced_shift_down (w d : nat) (offsets : list nat) :
  forall from,
    d <= from ->
    Claimed.spaced w from offsets ->
    Claimed.spaced w (from - d) (map (fun p => p - d) offsets).
Proof.
  induction offsets as [| p rest IH]; intros from Hd H; [exact I |].
  destruct H as [Hp Hrest]. cbn [map Claimed.spaced]. split; [lia |].
  replace (p - d + w) with (p + w - d) by lia. apply IH; [lia | assumption].
Qed.

Lemma spaced_shift_up (w d : nat) (offsets : list nat) :
  forall from,
    Claimed.spaced w from offsets ->
    Claimed.spaced w (from + d) (map (fun p => p + d) offsets).
Proof.
  induction offsets as [| p rest IH]; intros from H; [exact I |].
  destruct H as [Hp Hrest]. cbn [map Claimed.spaced]. split; [lia |].
  replace (p + d + w) with (p + w + d) by lia. now apply IH.
Qed.

Lemma spaced_from (w : nat) (offsets : list nat) :
  forall from, Claimed.spaced w from offsets -> Forall (fun p => from <= p) offsets.
Proof.
  induction offsets as [| p rest IH]; intros from H; [constructor |].
  destruct H as [Hp Hrest]. constructor; [assumption |].
  eapply Forall_impl; [| exact (IH _ Hrest)]. cbn. intros q Hq. lia.
Qed.

Lemma spaced_weaken (w : nat) (offsets : list nat) (from from' : nat) :
  from' <= from -> Claimed.spaced w from offsets -> Claimed.spaced w from' offsets.
Proof. destruct offsets; [trivial |]. intros H [Hp Hr]. split; [lia | exact Hr]. Qed.

Lemma occurs_shift_down (s : string) (d : nat) (offsets : list nat) :
  Forall (fun p => d <= p) offsets ->
  Forall (Claimed.occurs_at sep s) offsets ->
  Forall (Claimed.occurs_at sep (Claimed.drop d s)) (map (fun p => p - d) offsets).
Proof.
  intros Hge Hocc. induction offsets as [| p rest IH]; [constructor |].
  inversion Hge as [| ? ? Hp Hrest]; subst.
  inversion Hocc as [| ? ? Ho Horest]; subst.
  constructor; [| now apply IH].
  unfold Claimed.occurs_at in *. rewrite drop_drop.
  now replace (d + (p - d)) with p by lia.
Qed.

Lemma occurs_shift_up (s : string) (d : nat) (offsets : list nat) :
  Forall (Claimed.occurs_at sep (Claimed.drop d s)) offsets ->
  Forall (Claimed.occurs_at sep s) (map (fun p => p + d) offsets).
Proof.
  intros Hocc. induction Hocc as [| p rest Ho _ IH]; [constructor |].
  constructor; [| exact IH].
  unfold Claimed.occurs_at in *. rewrite drop_drop in Ho.
  now replace (p + d) with (d + p) by lia.
Qed.

(** No family of non-overlapping occurrences is larger than what the
    scan finds. *)
Lemma scan_finds_most (n : nat) :
  forall s offsets,
    String.length s <= n ->
    Claimed.non_overlapping sep s offsets ->
    length offsets <= found_by_scan sep s.
Proof.
  pose proof sep_length as Hl.
  induction n as [| n IH]; intros s offsets Hn [Hsp Hocc].
  - destruct s; [| cbn in Hn; lia].
    destruct offsets as [| p rest]; [cbn; lia |].
    inversion Hocc as [| ? ? Ho _]; subst. unfold Claimed.occurs_at in Ho.
    destruct p; cbn [Claimed.drop] in Ho; rewrite prefix_empty_subject in Ho;
      discriminate.
  - destruct s as [| c s].
    { destruct offsets as [| p rest]; [cbn; lia |].
      inversion Hocc as [| ? ? Ho _]; subst. unfold Claimed.occurs_at in Ho.
      destruct p; cbn [Claimed.drop] in Ho; rewrite prefix_empty_subject in Ho;
        discriminate. }
    cbn [String.length] in Hn.
    destruct (String.prefix sep (String c s)) eqn:Hpre.
    + rewrite (found_by_scan_match c s Hpre).
      destruct offsets as [| p rest]; [cbn; lia |].
      destruct Hsp as [_ Hrest]. inversion Hocc as [| ? ? _ Horest]; subst.
      cbn [length]. apply le_n_S.
      pose proof (spaced_from _ _ _ Hrest) as Hge.
      assert (Hge' : Forall (fun q => String.length sep <= q) rest).
      { eapply Forall_impl; [| exact Hge]. cbn. intros q Hq. lia. }
      rewrite <- (length_map (fun q => q - String.length sep) rest).
      apply IH.
      * rewrite drop_length. cbn [String.length]. lia.
      * split.
        -- replace 0 with (String.length sep - String.length sep) by lia.
           apply spaced_shift_down; [lia |].
           eapply spaced_weaken; [| exact Hrest]. lia.
        -- now apply occurs_shift_down.
    + rewrite (found_by_scan_no_match c s Hpre).
      assert (Hge : Forall (fun q => 1 <= q) offsets).
      { destruct offsets as [| p rest]; [constructor |].
        destruct Hsp as [_ Hrest]. inversion Hocc as [| ? ? Ho _]; subst.
        assert (Hp : 1 <= p).
        { destruct p; [| lia]. unfold Claimed.occurs_at in Ho.
          cbn [Claimed.drop] in Ho. congruence. }
        constructor; [exact Hp |].
        eapply Forall_impl; [| exact (spaced_from _ _ _ Hrest)].
        cbn. intros q Hq. lia. }
      rewrite <- (length_map (fun q => q - 1) offsets).
      apply IH; [lia |]. split.
      * assert (H1 : Claimed.spaced (String.length sep) 1 offsets).
        { destruct offsets as [| p rest]; [exact I |].
          destruct Hsp as [_ Hrest]. inversion Hge; subst. now split. }
        exact (spaced_shift_down _ 1 offsets 1 (le_n 1) H1).
      * exact (occurs_shift_down (String c s) 1 offsets Hge Hocc).
Qed.

(** The matches the scan finds are non-overlapping occurrences. *)
Lemma scan_finds_family (n : nat) :
  forall s,
    String.length s <= n ->
    exists offsets,
      Claimed.non_overlapping sep s offsets
      /\ length offsets = found_by_scan sep s.
Proof.
  pose proof sep_length as Hl.
  induction n as [| n IH]; intros s Hn.
  - destruct s; [| cbn in Hn; lia]. exists []. repeat split. constructor.
  - destruct s as [| c s]; [exists []; repeat split; constructor |].
    cbn [String.length] in Hn.
    destruct (String.prefix sep (String c s)) eqn:Hpre.
    + destruct (IH (Claimed.drop (String.length sep) (String c s)))
        as (rest & [Hsp Hocc] & Hlen).
      { rewrite drop_length. cbn [String.length]. lia. }
      exists (0 :: map (fun p => p + String.length sep) rest).
      rewrite (found_by_scan_match c s Hpre). cbn [length].
      rewrite length_map, Hlen. split; [| reflexivity]. split.
      * split; [lia |]. exact (spaced_shift_up _ _ _ 0 Hsp).
      * constructor; [exact Hpre | now apply occurs_shift_up].
    + destruct (IH s ltac:(lia)) as (rest & [Hsp Hocc] & Hlen).
      exists (map (fun p => p + 1) rest).
      rewrite (found_by_scan_no_match c s Hpre), length_map, Hlen.
      split; [| reflexivity]. split.
      * eapply spaced_weaken; [| exact (spaced_shift_up _ 1 _ 0 Hsp)]. lia.
      * exact (occurs_shift_up (String c s) 1 rest Hocc).
Qed.

(** [content.split(sep).length - 1] is the largest number of
    occurrences of [sep] in [content] no two of which overlap. *)
Lemma count_matches_is_maximum (content : string) :
  (exists offsets,
      Claimed.non_overlapping sep content offsets
      /\ Z.of_nat (length offsets) = SearchReplace.count_matches content sep)
  /\ (forall offsets,
         Claimed.non_overlapping sep content offsets ->
         (Z.of_nat (length offsets) <= SearchReplace.count_matches content sep)%Z).
Proof.
  assert (E : SearchReplace.count_matches content sep
              = Z.of_nat (found_by_scan sep content)).
  { unfold SearchReplace.count_matches, found_by_scan, Js.split.
    pose proof (split_scan_length_pos content 0 EmptyString).
    destruct sep; [discriminate |]. lia. }
  rewrite E. split.
  - destruct (scan_finds_family (String.length content) content (le_n _))
      as (offsets & Hfam & Hlen).
    exists offsets. split; [exact Hfam | now rewrite Hlen].
  - intros offsets Hfam.
    apply Nat2Z.inj_le.
    exact (scan_finds_most (String.length content) content offsets (le_n _) Hfam).
Qed.

End CountFacts.

(** C5.  In a directory whose only entry is a regular file holding
    [aaa], of an extension the run accepts, replacing [a] by [b] with
    [dryRun = false] leaves [bbb] in the file and reports one file
    processed, 3 matches found and 3 replacements.  The number of matches
    the tool counts in a file is, for every content and every search
    text, the largest number of occurrences of the search text in the
    content no two of which overlap. *)
Theorem C5_replace_a_by_b :
  forall (rx : Js.RegExpHost) (name : string) (size mtime : Z)
         (directory : option string) (fileTypes excludeDirs : option (list string)),
    (let accepted := or_default SearchReplace.default_fileTypes fileTypes in
     accepted = [] \/ Js.arr_includes accepted (NodePath.extname name) = true) ->
    SearchReplace.globalSearchReplace rx
      {| SearchReplace.searchText := Some "a";
         SearchReplace.replaceText := Some "b";
         SearchReplace.directory := directory;
         SearchReplace.fileTypes := fileTypes;
         SearchReplace.excludeDirs := excludeDirs;
         SearchReplace.dryRun := Some false |}
      (Fs.Dir [(name, Fs.regular size mtime "aaa")])
    = (Js.Resolved
         {| SearchReplace.filesProcessed := 1;
            SearchReplace.matchesFound := 3;
            SearchReplace.replacements := 3;
            SearchReplace.changes :=
              [{| SearchReplace.file := [name];
                  SearchReplace.matches := 3;
                  SearchReplace.replaced := true |}] |},
       Fs.Dir [(name, Fs.regular size mtime "bbb")])
    /\ forall content searchText : string,
         Js.nonempty searchText = true ->
         (exists offsets,
             Claimed.non_overlapping searchText content offsets
             /\ Z.of_nat (length offsets)
                = SearchReplace.count_matches content searchText)
         /\ (forall offsets,
                Claimed.non_overlapping searchText content offsets ->
                (Z.of_nat (length offsets)
                 <= SearchReplace.count_matches content searchText)%Z).
Proof.
  intros rx name size mtime directory fileTypes excludeDirs Hext.
  split; [| intros content searchText Hne;
            exact (count_matches_is_maximum searchText Hne content)].
  cbv zeta in Hext.
  unfold SearchReplace.globalSearchReplace.
  cbn [SearchReplace.searchText Js.nonempty SearchReplace.replaceText
         SearchReplace.fileTypes SearchReplace.excludeDirs SearchReplace.dryRun
         or_default].
  cbn [SearchReplace.processDirectory Fs.regular Fs.leaf_isFile].
  unfold SearchReplace.processFile.
  cbn [SearchReplace.c_fileTypes].
  assert (E : (length (or_default SearchReplace.default_fileTypes fileTypes) =? 0)%nat
              || Js.arr_includes (or_default SearchReplace.default_fileTypes fileTypes)
                   (NodePath.extname name) = true).
  { destruct Hext as [-> | ->]; [reflexivity | apply orb_true_r]. }
  rewrite E. reflexivity.
Qed.

(** The file [app.js] under the default extensions; the three matches
    are the occurrences at the offsets 0, 1 and 2. *)
Lemma C5_replace_a_by_b_witness :
  SearchReplace.globalSearchReplace Examples.rx_unused
    (Examples.replace_input (Some "b") (Some false))
    (Fs.Dir [("app.js", Fs.regular 3 0 "aaa")])
  = (Js.Resolved
       {| SearchReplace.filesProcessed := 1;
          SearchReplace.matchesFound := 3;
          SearchReplace.replacements := 3;
          SearchReplace.changes :=
            [{| SearchReplace.file := ["app.js"];
                SearchReplace.matches := 3;
                SearchReplace.replaced := true |}] |},
     Fs.Dir [("app.js", Fs.regular 3 0 "bbb")])
  /\ (3 <= SearchReplace.count_matches "aaa" "a")%Z.
Proof.
  pose proof (C5_replace_a_by_b Examples.rx_unused "app.js" 3 0 None None None
                (or_intror eq_refl)) as [Hrun Hcount].
  split; [exact Hrun |].
  apply (proj2 (Hcount "aaa" "a" eq_refl) [0; 1; 2]%nat).
  split; [cbn; lia | repeat constructor].
Defined.

(** C6.  With [dryRun = true] the tree after the call is the tree before
    it, whatever it holds; and the results list every file with matches
    and its count, with no replacement made. *)
Theorem C6_dry_run_writes_nothing :
  forall (rx : Js.RegExpHost) (input : SearchReplace.Input) (root : Fs.Node),
    SearchReplace.dryRun input = Some true ->
    snd (SearchReplace.globalSearchReplace rx input root) = root
    /\ forall s,
         SearchReplace.searchText input = Some s ->
         Js.nonempty s = true ->
         fst (SearchReplace.globalSearchReplace rx input root)
         = Js.Resolved
             (Claimed.counted
                (Claimed.match_report s
                   (or_default SearchReplace.default_fileTypes
                      (SearchReplace.fileTypes input))
                   (or_default default_excludeDirs
                      (SearchReplace.excludeDirs input))
                   root [])).
Proof.
  intros rx input root Hdry. apply globalSearchReplace_counting.
  left. now rewrite Hdry.
Qed.

(** A dry run over the project: nothing is written, and the two files
    with matches outside [node_modules] are reported. *)
Lemma C6_dry_run_writes_nothing_witness :
  snd (SearchReplace.globalSearchReplace Examples.rx_unused
         (Examples.replace_input (Some "b") (Some true)) Examples.project)
  = Examples.project
  /\ fst (SearchReplace.globalSearchReplace Examples.rx_unused
            (Examples.replace_input (Some "b") (Some true)) Examples.project)
     = Js.Resolved
         (Claimed.counted [(["src"; "main.js"], 3%Z);
                           (["src"; "lib"; "util.js"], 3%Z);
                           (["notes.md"], 2%Z)]).
Proof.
  pose proof (C6_dry_run_writes_nothing Examples.rx_unused
                (Examples.replace_input (Some "b") (Some true)) Examples.project
                eq_refl) as [Hroot Hres].
  split; [exact Hroot | exact (Hres "a" eq_refl eq_refl)].
Defined.

(** C10.  An input without [dryRun], or without [replaceText], makes the
    tool count only: the tree is left as it was, the results list the
    files with matches and their counts, and [replacements] stays 0. *)
Theorem C10_missing_fields_mean_dry_run :
  forall (rx : Js.RegExpHost) (input : SearchReplace.Input) (root : Fs.Node),
    SearchReplace.dryRun input = None \/ SearchReplace.replaceText input = None ->
    snd (SearchReplace.globalSearchReplace rx input root) = root
    /\ forall s,
         SearchReplace.searchText input = Some s ->
         Js.nonempty s = true ->
         let results :=
           Claimed.counted
             (Claimed.match_report s
                (or_default SearchReplace.default_fileTypes
                   (SearchReplace.fileTypes input))
                (or_default default_excludeDirs
                   (SearchReplace.excludeDirs input))
                root []) in
         fst (SearchReplace.globalSearchReplace rx input root)
         = Js.Resolved results
         /\ SearchReplace.replacements results = 0%Z.
Proof.
  intros rx input root Hmissing.
  destruct (globalSearchReplace_counting rx input root) as [Hroot Hres].
  { destruct Hmissing as [Hd | Hr]; [left; now rewrite Hd | now right]. }
  split; [exact Hroot |].
  intros s Hs Hne results. split; [now apply Hres | reflexivity].
Qed.

(** Without [dryRun], and with [dryRun = false] but no [replaceText],
    the project is left as it was although 8 matches are found. *)
Lemma C10_missing_fields_mean_dry_run_witness :
  (snd (SearchReplace.globalSearchReplace Examples.rx_unused
          (Examples.replace_input (Some "b") None) Examples.project)
   = Examples.project
   /\ snd (SearchReplace.globalSearchReplace Examples.rx_unused
             (Examples.replace_input None (Some false)) Examples.project)
      = Examples.project)
  /\ fst (SearchReplace.globalSearchReplace Examples.rx_unused
            (Examples.replace_input None (Some false)) Examples.project)
     = Js.Resolved
         {| SearchReplace.filesProcessed := 3;
            SearchReplace.matchesFound := 8;
            SearchReplace.replacements := 0;
            SearchReplace.changes :=
              [{| SearchReplace.file := ["src"; "main.js"];
                  SearchReplace.matches := 3;
                  SearchReplace.replaced := false |};
               {| SearchReplace.file := ["src"; "lib"; "util.js"];
                  SearchReplace.matches := 3;
                  SearchReplace.replaced := false |};
               {| SearchReplace.file := ["notes.md"];
                  SearchReplace.matches := 2;
                  SearchReplace.replaced := false |}] |}.
Proof.
  pose proof (C10_missing_fields_mean_dry_run Examples.rx_unused
                (Examples.replace_input (Some "b") None) Examples.project
                (or_introl eq_refl)) as [Hroot1 _].
  pose proof (C10_missing_fields_mean_dry_run Examples.rx_unused
                (Examples.replace_input None (Some false)) Examples.project
                (or_intror eq_refl)) as [Hroot2 Hres].
  split; [split; [exact Hroot1 | exact Hroot2] |].
  exact (proj1 (Hres "a" eq_refl eq_refl)).
Defined.

(* ================================================================== *)
(** * Properties of the file name test *)
(* ================================================================== *)

Section MatcherFacts.

Lemma strip_dollar_app (body : string) :
  Js.strip_dollar (body ++ "$") = Some body.
Proof.
  induction body as [| c body IH]; [reflexivity |].
  cbn [append Js.strip_dollar]. rewrite IH.
  destruct body; reflexivity.
Qed.

Lemma strip_anchors_app (body : string) :
  Js.strip_anchors ("^" ++ body ++ "$") = Some body.
Proof. cbn. apply strip_dollar_app. Qed.

Lemma prefix_star (c : ascii) (s : string) :
  String.prefix "*" (String c s) = Ascii.eqb c "*"%char.
Proof.
  cbn [String.prefix].
  destruct (ascii_dec "*"%char c) as [<- | Hne].
  - destruct s; reflexivity.
  - destruct (Ascii.eqb_spec c "*"%char) as [-> | _]; [congruence | reflexivity].
Qed.

Lemma replace_stars_cons (c : ascii) (pattern : string) :
  Js.replace_stars (String c pattern) ".*"
  = if Ascii.eqb c "*"%char
    then String "."%char (String "*"%char (Js.replace_stars pattern ".*"))
    else String c (Js.replace_stars pattern ".*").
Proof.
  unfold Js.replace_stars. cbn [Js.replace_scan]. rewrite prefix_star.
  destruct (Ascii.eqb c "*"%char); reflexivity.
Qed.

(** The source built from a plain pattern never starts with a star. *)
Lemma replace_stars_head (pattern : string) :
  match Js.replace_stars pattern ".*" with
  | String q _ => Ascii.eqb q "*"%char = false
  | EmptyString => True
  end.
Proof.
  destruct pattern as [| c pattern]; [exact I |].
  rewrite replace_stars_cons.
  destruct (Ascii.eqb c "*"%char) eqn:E; [reflexivity | exact E].
Qed.

(** The source built from a plain pattern parses to the items of the
    pattern. *)
Lemma parse_plain_pattern (pattern : string) :
  Claimed.plain_pattern pattern = true ->
  Js.parse_items (Js.replace_stars pattern ".*")
  = Some (Claimed.glob_items pattern).
Proof.
  induction pattern as [| c pattern IH]; [reflexivity |].
  intros H. pose proof (replace_stars_head pattern) as Hhead.
  unfold Claimed.plain_pattern, Js.all_chars in H.
  cbn [list_ascii_of_string forallb] in H.
  apply andb_prop in H as [Hc Hrest].
  specialize (IH Hrest).
  rewrite replace_stars_cons. cbn [Claimed.glob_items].
  destruct (Ascii.eqb_spec c "*"%char) as [-> | Hne].
  - cbn [Js.parse_items Js.atom_of Ascii.eqb Bool.eqb andb].
    change (Js.atom_of "."%char) with (Some Js.ADot).
    cbn. now rewrite IH.
  - cbn [orb] in Hc. apply negb_true_iff in Hc.
    cbn [Js.parse_items]. unfold Js.atom_of. rewrite Hc.
    destruct (Ascii.eqb_spec c "."%char) as [-> | _]; [discriminate Hc |].
    destruct (Js.replace_stars pattern ".*") as [| q rest] eqn:E.
    + cbn in IH. injection IH as <-. reflexivity.
    + rewrite Hhead, IH. reflexivity.
Qed.

(** On a file name without line terminators the items of a pattern
    match as the pattern does in the words of the specification. *)
Lemma glob_items_match (pattern : string) :
  forall filename,
    Claimed.single_line filename = true ->
    Js.items_match (Claimed.glob_items pattern) filename
    = Claimed.glob_match pattern filename.
Proof.
  induction pattern as [| c pattern IH]; intros filename Hname.
  - reflexivity.
  - cbn [Claimed.glob_items Claimed.glob_match].
    destruct (Ascii.eqb c "*"%char).
    + cbn [Js.items_match Js.atom_matches].
      induction filename as [| d filename IHname].
      * now rewrite IH.
      * unfold Claimed.single_line, Js.all_chars in Hname.
        cbn [list_ascii_of_string forallb] in Hname.
        apply andb_prop in Hname as [Hd Hrest].
        rewrite IH
          by (unfold Claimed.single_line, Js.all_chars; cbn; now rewrite Hd).
        rewrite Hd. cbn [andb].
        now rewrite IHname.
    + cbn [Js.items_match].
      destruct filename as [| d filename]; [reflexivity |].
      unfold Claimed.single_line, Js.all_chars in Hname.
      cbn [list_ascii_of_string forallb] in Hname.
      apply andb_prop in Hname as [_ Hrest].
      cbn [Js.atom_matches]. now rewrite IH.
Qed.

(** Where the test of [findFiles] does what the specification says: on
    every pattern without a star, and on the patterns with a star whose
    other characters are plain, for file names of one line. *)
Lemma matchesPattern_on_plain_patterns (rx : Js.RegExpHost)
  (pattern : string) (fileTypes : list string) (filename : string) :
  (Js.includes pattern "*" = true ->
   Claimed.plain_pattern pattern = true
   /\ Claimed.single_line filename = true) ->
  Find.matchesPattern rx pattern fileTypes filename
  = Some (Claimed.matches filename pattern fileTypes).
Proof.
  intros H. unfold Find.matchesPattern, Claimed.matches.
  destruct (Js.includes pattern "*").
  - destruct (H eq_refl) as [Hp Hn].
    unfold Js.RegExp_test, Js.fragment_test.
    rewrite strip_anchors_app, (parse_plain_pattern pattern Hp),
      (glob_items_match pattern filename Hn).
    destruct (Claimed.glob_match pattern filename), (0 <? length fileTypes)%nat;
      reflexivity.
  - destruct (Js.includes filename pattern), (0 <? length fileTypes)%nat;
      reflexivity.
Qed.

End MatcherFacts.

(** C4 fails on the code at the pattern [*.js] and the file name
    [nodejs]: the test of [findFiles] accepts the name, since the dot of
    the pattern reaches the regular expression unescaped and stands for
    any character, while the rule of the specification (every character
    but the star taken literally) rejects it. *)
Theorem C4_dot_is_not_literal :
  forall rx : Js.RegExpHost,
    Find.matchesPattern rx "*.js" [] "nodejs" = Some true
    /\ Claimed.matches "nodejs" "*.js" [] = false.
Proof. intros rx. split; reflexivity. Qed.

(** The examples of the specification hold of the code. *)
Example matcher_examples :
  forall rx : Js.RegExpHost,
    Find.matchesPattern rx "*.test.js" [] "report.test.js" = Some true
    /\ Find.matchesPattern rx "*.test.js" [] "readme.md" = Some false
    /\ Find.matchesPattern rx "*" [".css"] "style.css" = Some true.
Proof. intros rx. repeat split. Qed.

(** The pattern the usage guide gives for hidden files accepts a name
    that does not start with a dot. *)
Example dot_star_matches_visible_names :
  forall rx : Js.RegExpHost,
    Find.matchesPattern rx ".*" [] "visible" = Some true
    /\ Claimed.matches "visible" ".*" [] = false.
Proof. intros rx. split; reflexivity. Qed.

(** A name [tools] inherits from [Object.prototype] is not reported as
    missing: the call of its [fn] throws a [TypeError]. *)
Example inherited_name_is_not_missing :
  Driver.dispatch Examples.ghost_host "constructor" None tt
  = (Js.Rejected
       (Js.new_TypeError "cli.js:259" "tools[step.function].fn is not a function"),
     tt).
Proof. reflexivity. Qed.

(** A turn whose answer is the JSON value [null] ends the loop: reading
    [step.type] throws, and the outer [catch] breaks. *)
Example null_step_breaks :
  forall (World : Type) (host : Driver.Host World) (who : Driver.Caller)
         (st : Driver.State World) (response : string) (w : World),
    Driver.generateContent host (Js.join Js.nl (Driver.messages st))
      (Driver.world st)
    = (Js.Resolved response, w) ->
    Driver.JSON_parse host response = Some Js.JNull ->
    fst (Driver.iteration host who st) = Driver.Break.
Proof.
  intros World host who st response w Hg Hp.
  unfold Driver.iteration. now rewrite Hg, Hp.
Qed.

(* ================================================================== *)
(** * Further properties of the conversation driver *)
(* ================================================================== *)

Section DriverRuns.
Import Driver.
Local Open Scope nat_scope.

Context {World : Type}.
Variable host : Host World.
Variable who : Caller.
Variable n : nat.

(** Reasoning on a whole run: a property of the states a run starts and
    ends in holds when it holds of a start with the budget used up, of a
    turn that breaks, and is carried back over a turn that continues. *)
Lemma run_from_induction (P : State World -> State World -> Prop) :
  (forall st, n <= stepCount st -> P st (say (WarnMaximumSteps who) st)) ->
  (forall st st',
      stepCount st < n ->
      iteration host who st = (Break, st') ->
      P st (report who n st')) ->
  (forall st st' final,
      stepCount st < n ->
      iteration host who st = (Continue, st') ->
      P st' final -> P st final) ->
  forall st, P st (run_from host who n st).
Proof.
  intros Hdone Hbreak Hstep st.
  remember (n - stepCount st) as k eqn:Hk. revert st Hk.
  induction k as [| k IH]; intros st Hk.
  - rewrite run_from_exhausted by lia. apply Hdone. lia.
  - assert (Hlt : stepCount st < n) by lia.
    pose proof (iteration_stepCount host who st) as Hc.
    destruct (iteration host who st) as [[|] st'] eqn:Hit; cbn [snd] in Hc.
    + rewrite (run_from_continue host who n st st' Hlt Hit).
      apply (Hstep st st' _ Hlt Hit). apply IH. lia.
    + rewrite (run_from_break host who n st st' Hlt Hit).
      now apply Hbreak.
Qed.

(** What one turn adds: at most two messages behind the ones there, and
    at most one call of a tool function. *)
Lemma iteration_growth (st : State World) :
  let st' := snd (iteration host who st) in
  (exists added,
      messages st' = (messages st ++ added)%list /\ length added <= 2)
  /\ tool_calls st <= tool_calls st' <= S (tool_calls st).
Proof.
  cbv zeta. unfold iteration.
  destruct (generateContent host (Js.join Js.nl (messages st)) (world st))
    as [[response | error] w].
  2: { cbn. split; [exists []; rewrite app_nil_r; split; [reflexivity | cbn; lia] |].
       unfold tool_calls. cbn. rewrite !filter_app, !length_app. cbn. lia. }
  destruct (JSON_parse host response) as [step |].
  2: { cbn. split; [exists []; rewrite app_nil_r; split; [reflexivity | cbn; lia] |].
       unfold tool_calls. cbn. rewrite !filter_app, !length_app. cbn. lia. }
  destruct (logStep_throws step).
  { cbn. split; [exists []; rewrite app_nil_r; split; [reflexivity | cbn; lia] |].
    unfold tool_calls. cbn. rewrite !filter_app, !length_app. cbn. lia. }
  destruct (has_type step "action").
  - cbn [snd].
    match goal with |- context [act host step ?s] =>
      destruct (act_effect host step s) as (Hm & _ & _ & _ & Ht & _);
      set (before := s) in *
    end.
    assert (Hinv : length (invocation host (text_of host (Js.get step "function"))
                             (Js.get step "input")) <= 1).
    { unfold invocation. destruct (tools_get host _); cbn; lia. }
    split.
    + rewrite Hm. subst before. cbn [push say answered messages].
      eexists. rewrite <- app_assoc. split; [reflexivity | cbn; lia].
    + rewrite Ht. subst before. unfold tool_calls.
      cbn [push say answered events]. rewrite !filter_app, !length_app.
      cbn [filter is_invoke length]. lia.
  - destruct (has_type step "output"); cbn [snd];
      (split;
       [exists [response]; cbn; split; [reflexivity | lia]
       | unfold tool_calls; cbn; rewrite !filter_app, !length_app; cbn; lia]).
Qed.

Lemma say_tool_calls (line : Console) (st : State World) :
  tool_calls (say line st) = tool_calls st.
Proof.
  unfold tool_calls. cbn. rewrite filter_app, length_app. cbn. lia.
Qed.

Lemma report_unfold (st : State World) :
  report who n st = st \/ report who n st = say (WarnMaximumSteps who) st.
Proof. unfold report. destruct (n <=? stepCount st); auto. Qed.

(** The counters of a run: every turn is one call of the model, at most
    one call of a tool function and at most two messages. *)
Lemma run_accounting (st : State World) :
  let final := run_from host who n st in
  stepCount final - stepCount st = model_calls final - model_calls st
  /\ stepCount st <= stepCount final
  /\ model_calls st <= model_calls final
  /\ tool_calls st <= tool_calls final
  /\ tool_calls final - tool_calls st <= model_calls final - model_calls st
  /\ model_calls final - model_calls st <= n - stepCount st
  /\ exists added,
       messages final = (messages st ++ added)%list
       /\ length added <= 2 * (model_calls final - model_calls st).
Proof.
  cbv zeta. revert st.
  apply (run_from_induction
           (fun st final =>
              stepCount final - stepCount st = model_calls final - model_calls st
              /\ stepCount st <= stepCount final
              /\ model_calls st <= model_calls final
              /\ tool_calls st <= tool_calls final
              /\ tool_calls final - tool_calls st
                 <= model_calls final - model_calls st
              /\ model_calls final - model_calls st <= n - stepCount st
              /\ exists added,
                   messages final = (messages st ++ added)%list
                   /\ length added <= 2 * (model_calls final - model_calls st))).
  - intros st Hst. rewrite say_model_calls, say_tool_calls. cbn [say stepCount messages].
    repeat split; try lia. exists []. rewrite app_nil_r. split; [reflexivity | cbn; lia].
  - intros st st' Hlt Hit.
    pose proof (iteration_stepCount host who st) as Hc.
    pose proof (iteration_model_calls host who st) as Hm.
    pose proof (iteration_growth st) as [(added & Ha & Hlen) Ht].
    rewrite Hit in Hc, Hm, Ha, Ht. cbn [snd] in *.
    destruct (report_unfold st') as [-> | ->];
      rewrite ?say_model_calls, ?say_tool_calls; cbn [say stepCount messages];
      (repeat split; try lia; exists added; split; [assumption | lia]).
  - intros st st' final Hlt Hit (H1 & H2 & H3 & H4 & H5 & H6 & added' & Ha' & Hlen').
    pose proof (iteration_stepCount host who st) as Hc.
    pose proof (iteration_model_calls host who st) as Hm.
    pose proof (iteration_growth st) as [(added & Ha & Hlen) Ht].
    rewrite Hit in Hc, Hm, Ha, Ht. cbn [snd] in *.
    repeat split; try lia.
    exists (added ++ added')%list. rewrite Ha', Ha, <- app_assoc.
    split; [reflexivity |]. rewrite length_app. lia.
Qed.

End DriverRuns.

(** X1.  Whatever the model answers and whatever the tools do, a run of
    [executeCommand] or of [handleAIRequest] calls the model at most 20
    times, calls a tool function at most once per call of the model, and
    ends with a step counter equal to the number of calls of the
    model. *)
Theorem driver_calls_are_bounded :
  forall (World : Type) (host : Driver.Host World),
    (forall command options w,
        let final := Driver.executeCommand host command options w in
        (Driver.model_calls final <= 20)%nat
        /\ (Driver.tool_calls final <= Driver.model_calls final)%nat
        /\ Driver.stepCount final = Driver.model_calls final)
    /\ (forall message w,
          let final := Driver.handleAIRequest host message w in
          (Driver.model_calls final <= 20)%nat
          /\ (Driver.tool_calls final <= Driver.model_calls final)%nat
          /\ Driver.stepCount final = Driver.model_calls final).
Proof.
  intros World host.
  assert (G : forall who prompt w,
             let final := Driver.run_from host who 20 (Driver.start host who prompt w) in
             (Driver.model_calls final <= 20)%nat
             /\ (Driver.tool_calls final <= Driver.model_calls final)%nat
             /\ Driver.stepCount final = Driver.model_calls final).
  { intros who prompt w final. subst final.
    pose proof (run_accounting host who 20 (Driver.start host who prompt w))
      as (H1 & H2 & H3 & H4 & H5 & H6 & _).
    cbv zeta in *.
    change (Driver.stepCount (Driver.start host who prompt w)) with 0%nat in *.
    change (Driver.model_calls (Driver.start host who prompt w)) with 0%nat in *.
    change (Driver.tool_calls (Driver.start host who prompt w)) with 0%nat in *.
    lia. }
  split; [intros command options w | intros message w]; apply G.
Qed.

(** X2.  The history only grows: at the end of a run the messages the
    run started with are still there, in their order and at the front,
    and what was added is at most two messages per call of the model. *)
Theorem driver_history_is_append_only :
  forall (World : Type) (host : Driver.Host World) (who : Driver.Caller)
         (n : nat) (st : Driver.State World),
    let final := Driver.run_from host who n st in
    exists added,
      Driver.messages final = (Driver.messages st ++ added)%list
      /\ (length added
          <= 2 * (Driver.model_calls final - Driver.model_calls st))%nat.
Proof.
  intros World host who n st final. subst final.
  exact (proj2 (proj2 (proj2 (proj2 (proj2 (proj2 (run_accounting host who n st))))))).
Qed.



(* ================================================================== *)
(** * Further properties of [browseDirectory] *)
(* ================================================================== *)

Section ScanGeneral.
Import Browse.
Local Open Scope Z_scope.

Variable cfg : Config.
Variable ctx : RelPath -> Z -> Prop.
Variable I : Results -> Prop.

Hypothesis I_read :
  forall here depth r,
    ctx here depth -> depth <= c_maxDepth cfg -> I r -> I (note_read here r).
Hypothesis I_directory :
  forall here depth name entry r,
    ctx here depth -> depth <= c_maxDepth cfg ->
    shown (c_includeHidden cfg) name ->
    Fs.isDirectory entry = true ->
    Js.arr_includes (c_excludeDirs cfg) name = false ->
    I r ->
    I (push_directory
         {| d_name := name; d_path := (here ++ [name])%list; d_depth := depth |} r).
Hypothesis I_file :
  forall here depth name stats r,
    ctx here depth -> depth <= c_maxDepth cfg ->
    shown (c_includeHidden cfg) name ->
    (length (c_fileTypes cfg) =? 0)%nat
    || Js.arr_includes (c_fileTypes cfg) (NodePath.extname name) = true ->
    I r ->
    I (push_file
         {| f_name := name; f_path := (here ++ [name])%list;
            f_size := Fs.st_size stats; f_modified := Fs.st_mtime stats;
            f_depth := depth; f_extension := NodePath.extname name |} r).
Hypothesis ctx_down :
  forall here depth name,
    ctx here depth ->
    shown (c_includeHidden cfg) name ->
    Js.arr_includes (c_excludeDirs cfg) name = false ->
    c_recursive cfg = true ->
    depth < c_maxDepth cfg ->
    ctx (here ++ [name])%list (depth + 1).

(** A property of the results that every step of the walk keeps is kept
    by the walk. *)
Lemma scanDirectory_general (node : Fs.Node) :
  forall (here : RelPath) (depth : Z) (r : Results),
    ctx here depth -> I r -> I (scanDirectory cfg node here depth r).
Proof.
  induction node as [ | l | entries IH] using Fs.Node_deep_ind;
    intros here depth r Hctx Hr; cbn [scanDirectory];
    destruct (Z.gtb_spec depth (c_maxDepth cfg)) as [Hgt | Hle]; try assumption;
    try (now apply (I_read here depth)).
  pose proof (I_read here depth r Hctx Hle Hr) as Hr0.
  generalize dependent (note_read here r). clear Hr r.
  induction IH as [| [name entry] rest Hentry _ IHrest]; intros r Hr.
  - assumption.
  - cbn [snd] in Hentry.
    destruct (negb (c_includeHidden cfg) && Js.startsWith name ".") eqn:Hshown;
      [now apply IHrest |].
    destruct (Fs.isDirectory entry && Js.arr_includes (c_excludeDirs cfg) name)
      eqn:Hex; [now apply IHrest |].
    assert (Hdir : Fs.isDirectory entry = true ->
                   I (push_directory
                        {| d_name := name; d_path := (here ++ [name])%list;
                           d_depth := depth |} r)
                   /\ Js.arr_includes (c_excludeDirs cfg) name = false).
    { intros Hd. rewrite Hd in Hex. cbn in Hex. split; [| exact Hex].
      now apply (I_directory here depth name entry). }
    destruct entry as [sub | | l].
    + destruct (Hdir eq_refl) as [Hr1 Hne]. apply IHrest.
      destruct (c_recursive cfg) eqn:Hrec; cbn [andb]; [| exact Hr1].
      destruct (Z.ltb_spec depth (c_maxDepth cfg)); [| exact Hr1].
      apply Hentry; [now apply ctx_down | exact Hr1].
    + destruct (Hdir eq_refl) as [Hr1 Hne]. apply IHrest.
      destruct (c_recursive cfg) eqn:Hrec; cbn [andb]; [| exact Hr1].
      destruct (Z.ltb_spec depth (c_maxDepth cfg)); [| exact Hr1].
      apply Hentry; [now apply ctx_down | exact Hr1].
    + destruct (Fs.leaf_stat l) as [stats |]; [| assumption].
      cbn [f_extension].
      destruct ((length (c_fileTypes cfg) =? 0)%nat
                || Js.arr_includes (c_fileTypes cfg) (NodePath.extname name))
        eqn:Hft; apply IHrest; [| assumption].
      now apply (I_file here depth name stats).
Qed.

End ScanGeneral.

Lemma sum_sizes_perm (l l' : list Browse.FileEntry) :
  Permutation l l' ->
  fold_right Z.add 0%Z (map Browse.f_size l)
  = fold_right Z.add 0%Z (map Browse.f_size l').
Proof.
  intros H. induction H; cbn; lia.
Qed.

(** X4.  The counters [browseDirectory] reports agree with its lists:
    [totalFiles] is the number of file records, [totalDirs] the number
    of directory records, and [totalSize] the sum of the sizes of the
    recorded files. *)
Theorem browse_totals_agree :
  forall (localeCompare : string -> string -> Z) (input : Browse.Input)
         (root : Fs.Node),
    totals_agree (Browse.browseDirectory localeCompare input root).
Proof.
  intros localeCompare input root.
  assert (H : totals_agree
                (Browse.scanDirectory (Browse.config_of input) root [] 0
                   Browse.empty_results)).
  { apply (scanDirectory_general (Browse.config_of input) (fun _ _ => True)
             totals_agree).
    - intros here depth r _ _ Hr. exact Hr.
    - intros here depth name entry r _ _ _ _ _ (Hf & Hd & Hs).
      unfold totals_agree. cbn. rewrite length_app. cbn.
      repeat split; [assumption | lia | assumption].
    - intros here depth name stats r _ _ _ _ (Hf & Hd & Hs).
      unfold totals_agree. cbn. rewrite length_app, map_app, fold_right_app. cbn.
      repeat split; [lia | assumption |].
      rewrite Hs. generalize (map Browse.f_size (Browse.files r)).
      intros sizes. induction sizes as [| s sizes IH]; cbn; lia.
    - intros. exact I.
    - exact I.
    - repeat split. }
  destruct H as (Hf & Hd & Hs). unfold totals_agree, Browse.browseDirectory.
  cbn [Browse.files Browse.directories Browse.totalFiles Browse.totalDirs
         Browse.totalSize].
  repeat split.
  - rewrite Hf. f_equal. symmetry. apply Permutation_length, array_sort_perm.
  - rewrite Hd. f_equal. symmetry. apply Permutation_length, array_sort_perm.
  - rewrite Hs. symmetry. apply sum_sizes_perm, array_sort_perm.
Qed.



(** X6.  The [extension] of every recorded file is [path.extname] of its
    name, and when [fileTypes] is not empty it is one of [fileTypes]. *)
Theorem browse_filters_extensions :
  forall (localeCompare : string -> string -> Z) (input : Browse.Input)
         (root : Fs.Node),
    extensions_wanted (Browse.c_fileTypes (Browse.config_of input))
      (Browse.browseDirectory localeCompare input root).
Proof.
  intros localeCompare input root.
  assert (H : forall cfg,
             extensions_wanted (Browse.c_fileTypes cfg)
               (Browse.scanDirectory cfg root [] 0 Browse.empty_results)).
  { intros cfg.
    apply (scanDirectory_general cfg (fun _ _ => True)
             (extensions_wanted (Browse.c_fileTypes cfg))).
    - intros here depth r _ _ Hr. exact Hr.
    - intros here depth name entry r _ _ _ _ _ Hr. exact Hr.
    - intros here depth name stats r _ _ _ Hft Hr.
      unfold extensions_wanted. cbn. apply Forall_app. split; [exact Hr |].
      constructor; [| constructor]. cbn. split; [reflexivity |].
      destruct (Browse.c_fileTypes cfg) as [| t ts]; [now left | right].
      exact Hft.
    - intros. exact I.
    - exact I.
    - constructor. }
  unfold extensions_wanted, Browse.browseDirectory. cbn [Browse.files].
  apply array_sort_Forall. apply H.
Qed.

(** X7.  Without [recursive] only the starting directory is read, and
    every record is an entry of it at depth 0, whatever [maxDepth] is. *)
Theorem browse_without_recursive_stays_on_top :
  forall (localeCompare : string -> string -> Z) (input : Browse.Input)
         (root : Fs.Node),
    or_default false (Browse.recursive input) = false ->
    top_level_only (Browse.browseDirectory localeCompare input root).
Proof.
  intros localeCompare input root Hrec.
  set (cfg := Browse.config_of input).
  assert (H : top_level_only
                (Browse.scanDirectory cfg root [] 0 Browse.empty_results)).
  { apply (scanDirectory_general cfg (fun here depth => here = [] /\ depth = 0%Z)
             top_level_only).
    - intros here depth r [-> ->] _ (Hf & Hd & Hr). repeat split; try assumption.
      cbn. apply Forall_app. split; [assumption | now constructor].
    - intros here depth name entry r [-> ->] _ _ _ _ (Hf & Hd & Hr).
      repeat split; try assumption. cbn.
      apply Forall_app. split; [assumption |]. now repeat constructor.
    - intros here depth name stats r [-> ->] _ _ _ (Hf & Hd & Hr).
      repeat split; try assumption. cbn.
      apply Forall_app. split; [assumption |]. now repeat constructor.
    - intros here depth name _ _ _ Hr _. subst cfg. cbn in Hr. congruence.
    - now split.
    - repeat split; constructor. }
  destruct H as (Hf & Hd & Hr). unfold top_level_only, Browse.browseDirectory.
  cbn [Browse.files Browse.directories Browse.reads].
  repeat split; [now apply array_sort_Forall | now apply array_sort_Forall | assumption].
Qed.

(** The project browsed with the defaults: [recursive] is off. *)
Lemma browse_without_recursive_stays_on_top_witness :
  top_level_only
    (Browse.browseDirectory Examples.by_code
       (MoreExamples.sorted_input None None) Examples.project).
Proof.
  exact (browse_without_recursive_stays_on_top Examples.by_code
           (MoreExamples.sorted_input None None) Examples.project eq_refl).
Defined.

Section SortOrder.
Local Open Scope Z_scope.
Context {A : Type}.
Variable cmp : A -> A -> Z.

(** A comparator that never asks for a swap leaves the array as it
    is. *)
Lemma insert_sorted_last (x : A) (l : list A) :
  Forall (fun y => cmp y x <= 0) l ->
  Browse.insert_sorted cmp x l = (l ++ [x])%list.
Proof.
  induction 1 as [| y l Hy _ IH]; cbn; [reflexivity |].
  destruct (Z.gtb_spec (cmp y x) 0); [lia | now rewrite IH].
Qed.

Lemma array_sort_keeps_order (l : list A) :
  (forall a b, cmp a b <= 0) -> Browse.array_sort cmp l = l.
Proof.
  intros H. unfold Browse.array_sort.
  enough (G : forall acc, fold_left (fun acc x => Browse.insert_sorted cmp x acc) l acc
                          = (acc ++ l)%list) by apply G.
  induction l as [| x l IH]; intros acc; cbn; [now rewrite app_nil_r |].
  rewrite IH, insert_sorted_last, <- app_assoc; [reflexivity |].
  apply Forall_forall. intros y _. apply H.
Qed.

(** Insertion keeps a list in order when the comparator is one of an
    order [le]. *)
Variable le : A -> A -> Prop.
Hypothesis cmp_le : forall a b, cmp a b <= 0 -> le a b.
Hypothesis cmp_gt : forall a b, cmp a b > 0 -> le b a.

Lemma insert_sorted_HdRel (x a : A) (l : list A) :
  le a x -> HdRel le a l -> HdRel le a (Browse.insert_sorted cmp x l).
Proof.
  intros Hax Hl. destruct l as [| y l]; cbn; [now constructor |].
  destruct (cmp y x >? 0); constructor; [assumption | now inversion Hl].
Qed.

Lemma insert_sorted_Sorted (x : A) (l : list A) :
  Sorted le l -> Sorted le (Browse.insert_sorted cmp x l).
Proof.
  induction 1 as [| y l Hs IH Hhd]; cbn; [repeat constructor |].
  destruct (Z.gtb_spec (cmp y x) 0) as [Hgt | Hle].
  - constructor; [now constructor |]. constructor. apply cmp_gt. lia.
  - constructor; [exact IH |]. apply insert_sorted_HdRel; [now apply cmp_le | exact Hhd].
Qed.

Lemma array_sort_Sorted (l : list A) : Sorted le (Browse.array_sort cmp l).
Proof.
  unfold Browse.array_sort.
  enough (G : forall acc, Sorted le acc ->
                          Sorted le (fold_left (fun acc x => Browse.insert_sorted cmp x acc) l acc))
    by (apply G; constructor).
  induction l as [| x l IH]; intros acc Hacc; cbn; [assumption |].
  apply IH, insert_sorted_Sorted, Hacc.
Qed.

End SortOrder.

(** X8.  With [sortBy = "size"] the file records come out ordered by
    size, smallest first, or largest first when [order] is ["desc"]; they
    are the records of the walk, none added and none dropped.  The
    directory records, which have no size, stay in the order of the
    walk. *)
Theorem browse_sorts_files_by_size :
  forall (localeCompare : string -> string -> Z) (input : Browse.Input)
         (root : Fs.Node),
    Browse.sortBy input = Some "size" ->
    let cfg := Browse.config_of input in
    let walked := Browse.scanDirectory cfg root [] 0 Browse.empty_results in
    let r := Browse.browseDirectory localeCompare input root in
    Permutation (Browse.files r) (Browse.files walked)
    /\ Browse.directories r = Browse.directories walked
    /\ (if String.eqb (Browse.c_order cfg) "desc"
        then Sorted (fun a b => (Browse.f_size b <= Browse.f_size a)%Z) (Browse.files r)
        else Sorted (fun a b => (Browse.f_size a <= Browse.f_size b)%Z) (Browse.files r)).
Proof.
  intros localeCompare input root Hsort cfg walked r. subst r walked.
  unfold Browse.browseDirectory. cbn [Browse.files Browse.directories]. fold cfg.
  assert (Hby : Browse.c_sortBy cfg = "size") by (subst cfg; cbn; now rewrite Hsort).
  split; [apply array_sort_perm |]. split.
  - apply array_sort_keeps_order. intros a b.
    unfold Browse.sortFunction. rewrite Hby. cbn.
    match goal with |- context [if ?c then _ else _] => destruct c end; lia.
  - unfold Browse.sortFunction. rewrite Hby. cbn [String.eqb Ascii.eqb Bool.eqb].
    destruct (String.eqb (Browse.c_order cfg) "desc");
      apply array_sort_Sorted; cbn; intros a b; lia.
Qed.

(** The project sorted by size, largest first. *)
Lemma browse_sorts_files_by_size_witness :
  Sorted (fun a b => (Browse.f_size b <= Browse.f_size a)%Z)
    (Browse.files
       (Browse.browseDirectory Examples.by_code
          (MoreExamples.sorted_input (Some "size") (Some "desc")) Examples.project)).
Proof.
  exact (proj2 (proj2 (browse_sorts_files_by_size Examples.by_code
                         (MoreExamples.sorted_input (Some "size") (Some "desc"))
                         Examples.project eq_refl))).
Defined.

(* ================================================================== *)
(** * Further properties of [findFiles] *)
(* ================================================================== *)

Section SearchGeneral.
Import Find.
Local Open Scope Z_scope.

Variable rx : Js.RegExpHost.
Variable cfg : Config.
Variable ctx : RelPath -> Z -> Prop.
Variable I : Results -> Prop.

Hypothesis I_read :
  forall here depth r,
    ctx here depth -> depth <= c_maxDepth cfg ->
    I r -> I {| found := found r; reads := (reads r ++ [here])%list |}.
Hypothesis I_found :
  forall here depth entry_name stats r,
    ctx here depth -> depth <= c_maxDepth cfg ->
    shown (c_includeHidden cfg) entry_name ->
    matchesPattern rx (c_pattern cfg) (c_fileTypes cfg) entry_name = Some true ->
    I r ->
    I {| found :=
           (found r ++
            [{| name := entry_name; path := (here ++ [entry_name])%list;
                size := Fs.st_size stats; modified := Fs.st_mtime stats;
                extension := NodePath.extname entry_name |}])%list;
         reads := reads r |}.
Hypothesis ctx_down :
  forall here depth entry_name,
    ctx here depth -> depth <= c_maxDepth cfg ->
    shown (c_includeHidden cfg) entry_name ->
    Js.arr_includes (c_excludeDirs cfg) entry_name = false ->
    ctx (here ++ [entry_name])%list (depth + 1).

(** A property of the results that every step of the search keeps is
    kept by the search. *)
Lemma searchDirectory_general (node : Fs.Node) :
  forall (here : RelPath) (depth : Z) (r : Results),
    ctx here depth -> I r -> I (searchDirectory rx cfg node here depth r).
Proof.
  induction node as [ | l | entries IH] using Fs.Node_deep_ind;
    intros here depth r Hctx Hr; cbn [searchDirectory];
    destruct (Z.gtb_spec depth (c_maxDepth cfg)) as [Hgt | Hle]; try assumption;
    try (now apply (I_read here depth)).
  pose proof (I_read here depth r Hctx Hle Hr) as Hr0.
  set (r0 := {| found := found r; reads := (reads r ++ [here])%list |}) in *.
  clearbody r0. clear Hr r. revert r0 Hr0.
  induction IH as [| [entry_name entry] rest Hentry _ IHrest]; intros r Hr.
  - assumption.
  - cbn [snd] in Hentry.
    destruct (negb (c_includeHidden cfg) && Js.startsWith entry_name ".")
      eqn:Hshown; [now apply IHrest |].
    destruct (Fs.isDirectory entry
              && Js.arr_includes (c_excludeDirs cfg) entry_name) eqn:Hex;
      [now apply IHrest |].
    destruct entry as [sub | | l].
    + apply IHrest, Hentry; [apply (ctx_down here depth); assumption | exact Hr].
    + apply IHrest, Hentry; [apply (ctx_down here depth); assumption | exact Hr].
    + destruct (matchesPattern rx (c_pattern cfg) (c_fileTypes cfg) entry_name)
        as [[|] |] eqn:Hm; [| now apply IHrest | assumption].
      destruct (Fs.leaf_stat l) as [stats |]; [| assumption].
      apply IHrest. now apply (I_found here depth).
Qed.

End SearchGeneral.

(** The configuration [findFiles] runs with. *)
Lemma findFiles_resolved (rx : Js.RegExpHost) (input : Find.Input)
  (root : Fs.Node) (r : Find.Results) :
  Find.findFiles rx input root = Js.Resolved r ->
  exists p,
    Find.pattern input = Some p
    /\ r = Find.searchDirectory rx
             {| Find.c_pattern := p;
                Find.c_fileTypes := or_default [] (Find.fileTypes input);
                Find.c_excludeDirs :=
                  or_default default_excludeDirs (Find.excludeDirs input);
                Find.c_maxDepth := or_default 5%Z (Find.maxDepth input);
                Find.c_includeHidden :=
                  or_default false (Find.includeHidden input) |}
             root [] 0 Find.empty_results.
Proof.
  unfold Find.findFiles. destruct (Find.pattern input) as [p |]; [| discriminate].
  destruct (Js.nonempty p); [| discriminate].
  intros E. injection E as <-. now exists p.
Qed.



(** X10.  Every record of [findFiles] is an entry whose name passed the
    file name test; its path ends in that name, its extension is
    [path.extname] of the name, and unless [includeHidden] is set the
    name does not start with a dot. *)
Theorem find_records_only_matches :
  forall (rx : Js.RegExpHost) (input : Find.Input) (root : Fs.Node)
         (r : Find.Results),
    Find.findFiles rx input root = Js.Resolved r ->
    exists p,
      Find.pattern input = Some p
      /\ Forall (fun f =>
                   Find.matchesPattern rx p (or_default [] (Find.fileTypes input))
                     (Find.name f) = Some true
                   /\ last (Find.path f) EmptyString = Find.name f
                   /\ Find.extension f = NodePath.extname (Find.name f)
                   /\ shown (or_default false (Find.includeHidden input))
                        (Find.name f))
           (Find.found r).
Proof.
  intros rx input root r Hr.
  destruct (findFiles_resolved rx input root r Hr) as (p & Hp & ->).
  exists p. split; [exact Hp |].
  match goal with |- Forall _ (Find.found (Find.searchDirectory rx ?c _ _ _ _)) =>
    change (all_matching rx c (Find.searchDirectory rx c root [] 0 Find.empty_results));
    generalize c
  end.
  intros cfg.
  apply (searchDirectory_general rx cfg (fun _ _ => True) (all_matching rx cfg)).
  - intros here depth r0 _ _ Hr0. exact Hr0.
  - intros here depth entry_name stats r0 _ _ Hs Hm Hr0.
    unfold all_matching. cbn. apply Forall_app. split; [exact Hr0 |].
    constructor; [| constructor]. cbn. repeat split; try assumption.
    apply last_last.
  - intros. exact I.
  - exact I.
  - constructor.
Qed.

(** The same search: both files found are called [*.js]. *)
Lemma find_records_only_matches_witness :
  exists r,
    Find.findFiles Examples.rx_unused
      (Examples.find_input "*.js" default_excludeDirs) Examples.project
    = Js.Resolved r
    /\ Forall (fun f =>
                 Find.matchesPattern Examples.rx_unused "*.js" [] (Find.name f)
                 = Some true)
         (Find.found r).
Proof.
  eexists. split; [reflexivity |].
  destruct (find_records_only_matches Examples.rx_unused
              (Examples.find_input "*.js" default_excludeDirs) Examples.project _
              eq_refl) as (p & Hp & Hall).
  injection Hp as <-.
  eapply Forall_impl; [| exact Hall]. cbn. now intros f [H _].
Defined.

(** X11.  A pattern with a star from which no regular expression can be
    built is not reported: the [SyntaxError] is caught with the errors
    of the directory listing, and [findFiles] resolves having found
    nothing. *)
Theorem find_broken_pattern_finds_nothing :
  forall (rx : Js.RegExpHost) (input : Find.Input) (root : Fs.Node) (p : string),
    Find.pattern input = Some p ->
    Js.nonempty p = true ->
    (forall entry_name,
        Find.matchesPattern rx p (or_default [] (Find.fileTypes input)) entry_name
        = None) ->
    exists r,
      Find.findFiles rx input root = Js.Resolved r /\ Find.found r = [].
Proof.
  intros rx input root p Hp Hne Hthrows.
  unfold Find.findFiles. rewrite Hp, Hne. eexists. split; [reflexivity |].
  match goal with |- Find.found (Find.searchDirectory rx ?c _ _ _ _) = _ =>
    apply (searchDirectory_general rx c (fun _ _ => True)
             (fun r => Find.found r = []))
  end.
  - intros here depth r0 _ _ Hr0. exact Hr0.
  - intros here depth entry_name stats r0 _ _ _ Hm _. cbn in Hm.
    rewrite Hthrows in Hm. discriminate.
  - intros. exact I.
  - exact I.
  - reflexivity.
Qed.

(** The pattern [*(] on the project. *)
Lemma find_broken_pattern_finds_nothing_witness :
  exists r,
    Find.findFiles Examples.rx_unused MoreExamples.broken_pattern_input
      Examples.project
    = Js.Resolved r
    /\ Find.found r = [].
Proof.
  exact (find_broken_pattern_finds_nothing Examples.rx_unused
           MoreExamples.broken_pattern_input Examples.project "*("
           eq_refl eq_refl (fun _ => eq_refl)).
Defined.

(* ================================================================== *)
(** * Further properties of [globalSearchReplace] *)
(* ================================================================== *)

Section ProcessGeneral.
Import SearchReplace.
Local Open Scope Z_scope.

Variable rx : Js.RegExpHost.
Variable cfg : Config.
Variable I : Results -> Prop.

Hypothesis I_file :
  forall fullPath entry_name l r,
    I r -> I (snd (processFile rx cfg fullPath entry_name l r)).

(** A property of the results that the handling of every file keeps is
    kept by the walk. *)
Lemma processDirectory_results (node : Fs.Node) :
  forall (here : RelPath) (r : Results),
    I r -> I (snd (processDirectory rx cfg node here r)).
Proof.
  induction node as [ | l | entries IH] using Fs.Node_deep_ind;
    intros here r Hr; try exact Hr.
  cbn [processDirectory]. revert r Hr.
  induction IH as [| [entry_name entry] rest Hentry _ IHrest]; intros r Hr.
  - exact Hr.
  - cbn [snd] in Hentry.
    match goal with
    | |- I (snd (let '(_, _) := (let '(_, _) := ?E in _) in _)) =>
        assert (H1 : I (snd E)); [| destruct E as [entry' r1]]
    end.
    { destruct entry as [sub | | l].
      - destruct (negb (Js.arr_includes (c_excludeDirs cfg) entry_name));
          [now apply Hentry | exact Hr].
      - destruct (negb (Js.arr_includes (c_excludeDirs cfg) entry_name));
          [now apply Hentry | exact Hr].
      - destruct (Fs.leaf_isFile l); [| exact Hr].
        specialize (I_file (here ++ [entry_name])%list entry_name l r Hr).
        destruct (processFile rx cfg (here ++ [entry_name])%list entry_name l r).
        exact I_file. }
    cbn [snd] in H1. specialize (IHrest r1 H1).
    match type of IHrest with
    | I (snd (let '(_, _) := ?x in _)) => destruct x as [rest' r2]
    end.
    exact IHrest.
Qed.

End ProcessGeneral.

Lemma counters_agree_step (rx : Js.RegExpHost) (cfg : SearchReplace.Config)
  (fullPath : RelPath) (entry_name : string) (l : Fs.Leaf)
  (r : SearchReplace.Results) :
  counters_agree r ->
  counters_agree (snd (SearchReplace.processFile rx cfg fullPath entry_name l r)).
Proof.
  intros (H1 & H2 & H3 & H4 & H5). unfold SearchReplace.processFile.
  destruct ((length (SearchReplace.c_fileTypes cfg) =? 0)%nat
            || Js.arr_includes (SearchReplace.c_fileTypes cfg)
                 (NodePath.extname entry_name));
    [| now repeat split].
  destruct (Fs.leaf_content l) as [content |]; [| now repeat split].
  destruct (Z.gtb_spec
              (SearchReplace.count_matches content (SearchReplace.c_searchText cfg)) 0)
    as [Hpos | _]; [| now repeat split].
  set (m := SearchReplace.count_matches content (SearchReplace.c_searchText cfg)) in *.
  assert (Hcounted : counters_agree (SearchReplace.count_file m r)).
  { unfold counters_agree in *.
    cbn [SearchReplace.count_file SearchReplace.push_unreplaced SearchReplace.push_replaced SearchReplace.filesProcessed SearchReplace.matchesFound SearchReplace.replacements SearchReplace.changes].
    repeat split; try assumption; lia. }
  assert (Hun : counters_agree
                  (SearchReplace.push_unreplaced fullPath m
                     (SearchReplace.count_file m r))).
  { unfold counters_agree, replaced_matches, listed_matches in *.
    cbn [SearchReplace.count_file SearchReplace.push_unreplaced SearchReplace.push_replaced SearchReplace.filesProcessed SearchReplace.matchesFound SearchReplace.replacements SearchReplace.changes].
    rewrite !map_app, !fold_right_app, length_app.
    cbn [map fold_right length SearchReplace.replaced SearchReplace.matches].
    repeat split.
    - rewrite H1. generalize (SearchReplace.changes r). intros cs.
      induction cs as [| c cs IH]; cbn; lia.
    - enough (E : forall cs, fold_right Z.add (m + 0)%Z (map SearchReplace.matches cs)
                             = (fold_right Z.add 0 (map SearchReplace.matches cs) + m)%Z)
        by (rewrite E; lia).
      intros cs. induction cs as [| c cs IH]; cbn; lia.
    - lia.
    - lia.
    - apply Forall_app. split; [assumption |]. constructor; [cbn; lia | constructor]. }
  assert (Hre : counters_agree
                  (SearchReplace.push_replaced fullPath m
                     (SearchReplace.count_file m r))).
  { unfold counters_agree, replaced_matches, listed_matches in *.
    cbn [SearchReplace.count_file SearchReplace.push_unreplaced SearchReplace.push_replaced SearchReplace.filesProcessed SearchReplace.matchesFound SearchReplace.replacements SearchReplace.changes].
    rewrite !map_app, !fold_right_app, length_app.
    cbn [map fold_right length SearchReplace.replaced SearchReplace.matches].
    assert (E : forall (f : SearchReplace.Change -> Z) cs,
               fold_right Z.add (m + 0)%Z (map f cs)
               = (fold_right Z.add 0 (map f cs) + m)%Z).
    { intros f cs. induction cs as [| c cs IH]; cbn; lia. }
    rewrite !E. repeat split; try lia.
    apply Forall_app. split; [assumption |]. constructor; [cbn; lia | constructor]. }
  destruct (SearchReplace.c_dryRun cfg); [exact Hun |].
  destruct (SearchReplace.c_replaceText cfg) as [rep |]; [| exact Hun].
  destruct (Js.RegExp_replace_all rx (SearchReplace.c_searchText cfg) content rep);
    [| exact Hcounted].
  destruct (Fs.leaf_writable l); [exact Hre | exact Hcounted].
Qed.

(** X12.  In the results of every run, [replacements] is the sum of the
    matches of the changes marked as replaced and never exceeds
    [matchesFound]; every listed change has at least one match; and the
    listed changes are at most as many, with at most as many matches, as
    the files and matches counted (a file whose rewriting failed is
    counted and not listed). *)
Theorem search_replace_counters_agree :
  forall (rx : Js.RegExpHost) (input : SearchReplace.Input) (root : Fs.Node)
         (r : SearchReplace.Results),
    fst (SearchReplace.globalSearchReplace rx input root) = Js.Resolved r ->
    counters_agree r.
Proof.
  intros rx input root r. unfold SearchReplace.globalSearchReplace.
  destruct (SearchReplace.searchText input) as [s |]; [| discriminate].
  destruct (Js.nonempty s); [| discriminate].
  match goal with |- context [SearchReplace.processDirectory rx ?c root [] ?r0] =>
    pose proof (processDirectory_results rx c counters_agree
                  (counters_agree_step rx c) root [] r0) as H;
    destruct (SearchReplace.processDirectory rx c root [] r0) as [root' r']
  end.
  cbn [fst snd] in *. intros E. injection E as <-. apply H.
  unfold counters_agree. cbn. repeat split; try lia. constructor.
Qed.

(** A real run over the project. *)
Lemma search_replace_counters_agree_witness :
  exists r,
    fst (SearchReplace.globalSearchReplace Examples.rx_unused
           (Examples.replace_input (Some "b") (Some false)) Examples.project)
    = Js.Resolved r
    /\ counters_agree r.
Proof.
  eexists. split; [reflexivity |].
  exact (search_replace_counters_agree Examples.rx_unused
           (Examples.replace_input (Some "b") (Some false)) Examples.project _
           eq_refl).
Defined.

Section TouchedOnly.
Import SearchReplace.

Variable rx : Js.RegExpHost.
Variable cfg : Config.




End TouchedOnly.


Section Replacing.
Import SearchReplace.
Local Open Scope Z_scope.

Variable rx : Js.RegExpHost.
Variable cfg : Config.
Variable rep : string.

Hypothesis real_run : c_dryRun cfg = false.
Hypothesis replacement : c_replaceText cfg = Some rep.
Hypothesis search_nonempty : Js.nonempty (c_searchText cfg) = true.
Hypothesis search_literal : Js.literal_source (c_searchText cfg) = true.
Hypothesis replacement_plain : Js.plain_replacement rep = true.

Lemma processFile_replacing (fullPath : RelPath) (entry_name : string)
  (l : Fs.Leaf) (r : Results) :
  Fs.leaf_isFile l = true ->
  Fs.leaf_writable l = true ->
  snd (processFile rx cfg fullPath entry_name l r)
  = fold_left record_replaced
      (Claimed.file_report (c_searchText cfg) (c_fileTypes cfg) fullPath
         entry_name l) r.
Proof.
  intros Hfile Hw. unfold processFile, Claimed.file_report. rewrite Hfile.
  cbn [andb].
  destruct ((length (c_fileTypes cfg) =? 0)%nat
            || Js.arr_includes (c_fileTypes cfg) (NodePath.extname entry_name));
    [| reflexivity].
  destruct (Fs.leaf_content l) as [content |]; [| reflexivity].
  destruct (count_matches content (c_searchText cfg) >? 0); [| reflexivity].
  rewrite real_run, replacement. unfold Js.RegExp_replace_all.
  rewrite search_nonempty, search_literal, replacement_plain, Hw. reflexivity.
Qed.

(** A real run with a literal search text over a tree that can be
    written counts and replaces the matches of the report. *)
Lemma processDirectory_replacing (node : Fs.Node) :
  forall (here : RelPath) (r : Results),
    all_writable node ->
    snd (processDirectory rx cfg node here r)
    = fold_left record_replaced
        (Claimed.match_report (c_searchText cfg) (c_fileTypes cfg)
           (c_excludeDirs cfg) node here) r.
Proof.
  induction node as [ | l | entries IH] using Fs.Node_deep_ind;
    intros here r Hall; try reflexivity.
  cbn [processDirectory Claimed.match_report]. cbn [all_writable] in Hall.
  revert r Hall.
  induction IH as [| [entry_name entry] rest Hentry _ IHrest]; intros r Hall.
  - reflexivity.
  - cbn [snd] in Hentry. destruct Hall as [Hhere Hrest].
    match goal with
    | |- snd (let '(_, _) := (let '(_, _) := ?E in _) in _) = _ =>
        assert (H1 : snd E
                     = fold_left record_replaced
                         (match entry with
                          | Fs.File l =>
                              Claimed.file_report (c_searchText cfg)
                                (c_fileTypes cfg) (here ++ [entry_name])%list
                                entry_name l
                          | _ =>
                              if Js.arr_includes (c_excludeDirs cfg) entry_name
                              then []
                              else Claimed.match_report (c_searchText cfg)
                                     (c_fileTypes cfg) (c_excludeDirs cfg) entry
                                     (here ++ [entry_name])%list
                          end) r);
        [| destruct E as [entry' r1]]
    end.
    { destruct entry as [sub | | l].
      - destruct (Js.arr_includes (c_excludeDirs cfg) entry_name);
          [reflexivity | now apply Hentry].
      - destruct (Js.arr_includes (c_excludeDirs cfg) entry_name); reflexivity.
      - destruct (Fs.leaf_isFile l) eqn:Hfile.
        + pose proof (processFile_replacing (here ++ [entry_name])%list entry_name
                        l r Hfile (Hhere Hfile)) as Hl.
          destruct (processFile rx cfg (here ++ [entry_name])%list entry_name l r).
          exact Hl.
        + unfold Claimed.file_report. rewrite Hfile. reflexivity. }
    cbn [snd] in H1. specialize (IHrest r1 Hrest).
    match type of IHrest with
    | snd (let '(_, _) := ?x in _) = _ => destruct x as [rest' r2]
    end.
    cbn [snd] in *. rewrite IHrest, H1, fold_left_app.
    destruct entry; reflexivity.
Qed.

End Replacing.

Lemma fold_record_replaced (report : list (RelPath * Z)) :
  forall r : SearchReplace.Results,
    fold_left record_replaced report r
    = {| SearchReplace.filesProcessed :=
           (SearchReplace.filesProcessed r + Z.of_nat (length report))%Z;
         SearchReplace.matchesFound :=
           (SearchReplace.matchesFound r
            + fold_right Z.add 0%Z (map snd report))%Z;
         SearchReplace.replacements :=
           (SearchReplace.replacements r
            + fold_right Z.add 0%Z (map snd report))%Z;
         SearchReplace.changes :=
           (SearchReplace.changes r
            ++ SearchReplace.changes (replaced_all report))%list |}.
Proof.
  induction report as [| [p m] report IH]; intros [fp mf rp ch].
  - cbn. f_equal; try lia. now rewrite app_nil_r.
  - cbn [fold_left]. rewrite IH.
    cbn [record_replaced SearchReplace.push_replaced SearchReplace.count_file
           SearchReplace.filesProcessed SearchReplace.matchesFound
           SearchReplace.replacements SearchReplace.changes fst snd
           replaced_all map length fold_right].
    f_equal; try lia. now rewrite <- app_assoc.
Qed.

(** A real run with a literal search text, a replacement without [$]
    and a tree that can be written replaces every match of the report. *)
Lemma globalSearchReplace_real_run (rx : Js.RegExpHost) (s rep : string)
  (directory : option string) (fileTypes excludeDirs : option (list string))
  (root : Fs.Node) :
  Js.nonempty s = true ->
  Js.literal_source s = true ->
  Js.plain_replacement rep = true ->
  all_writable root ->
  fst (SearchReplace.globalSearchReplace rx
         {| SearchReplace.searchText := Some s;
            SearchReplace.replaceText := Some rep;
            SearchReplace.directory := directory;
            SearchReplace.fileTypes := fileTypes;
            SearchReplace.excludeDirs := excludeDirs;
            SearchReplace.dryRun := Some false |} root)
  = Js.Resolved
      (replaced_all
         (Claimed.match_report s
            (or_default SearchReplace.default_fileTypes fileTypes)
            (or_default default_excludeDirs excludeDirs) root [])).
Proof.
  intros Hne Hlit Hplain Hall.
  unfold SearchReplace.globalSearchReplace.
  cbn [SearchReplace.searchText SearchReplace.replaceText
         SearchReplace.fileTypes SearchReplace.excludeDirs
         SearchReplace.dryRun]. rewrite Hne.
  match goal with |- context [SearchReplace.processDirectory rx ?c root [] ?r0] =>
    pose proof (processDirectory_replacing rx c rep eq_refl eq_refl Hne Hlit
                  Hplain root [] r0 Hall) as H;
    destruct (SearchReplace.processDirectory rx c root [] r0) as [root' r']
  end.
  cbn [fst snd] in *. rewrite H, fold_record_replaced.
  unfold replaced_all. cbn. reflexivity.
Qed.

(** X14.  For a search text without characters that are special in a
    regular expression and a replacement without [$], over a tree whose
    regular files can all be written, the dry run announces what the
    real run does: both report the same files with the same numbers of
    matches, and the real run replaces all of them. *)
Theorem dry_run_predicts_real_run :
  forall (rx : Js.RegExpHost) (s rep : string) (directory : option string)
         (fileTypes excludeDirs : option (list string)) (root : Fs.Node),
    Js.nonempty s = true ->
    Js.literal_source s = true ->
    Js.plain_replacement rep = true ->
    all_writable root ->
    let input dry :=
      {| SearchReplace.searchText := Some s;
         SearchReplace.replaceText := Some rep;
         SearchReplace.directory := directory;
         SearchReplace.fileTypes := fileTypes;
         SearchReplace.excludeDirs := excludeDirs;
         SearchReplace.dryRun := Some dry |} in
    let report :=
      Claimed.match_report s
        (or_default SearchReplace.default_fileTypes fileTypes)
        (or_default default_excludeDirs excludeDirs) root [] in
    fst (SearchReplace.globalSearchReplace rx (input true) root)
    = Js.Resolved (Claimed.counted report)
    /\ fst (SearchReplace.globalSearchReplace rx (input false) root)
       = Js.Resolved (replaced_all report).
Proof.
  intros rx s rep directory fileTypes excludeDirs root Hne Hlit Hplain Hall
    input report.
  split.
  - exact (proj2 (globalSearchReplace_counting rx (input true) root
                    (or_introl eq_refl)) s eq_refl Hne).
  - now apply globalSearchReplace_real_run.
Qed.

(** Replacing [a] by [b] in the project. *)
Lemma dry_run_predicts_real_run_witness :
  let report :=
    [(["src"; "main.js"], 3%Z); (["src"; "lib"; "util.js"], 3%Z);
     (["notes.md"], 2%Z)] in
  fst (SearchReplace.globalSearchReplace Examples.rx_unused
         (MoreExamples.a_to_b true) Examples.project)
  = Js.Resolved (Claimed.counted report)
  /\ fst (SearchReplace.globalSearchReplace Examples.rx_unused
            (MoreExamples.a_to_b false) Examples.project)
     = Js.Resolved (replaced_all report).
Proof.
  exact (dry_run_predicts_real_run Examples.rx_unused "a" "b" None None None
           Examples.project eq_refl eq_refl eq_refl
           ltac:(cbn; repeat split; reflexivity)).
Defined.

(* ================================================================== *)
(** * Properties of the command line *)
(* ================================================================== *)

Section CliOptions.
Import Cli.

Lemma get_put (k : string) (v : Value) (o : Object) (k' : string) :
  get (put k v o) k' = if String.eqb k k' then v else get o k'.
Proof.
  induction o as [| [k0 v0] o IH]; cbn.
  - reflexivity.
  - destruct (String.eqb_spec k0 k) as [-> | Hk0]; cbn.
    + destruct (String.eqb k k'); reflexivity.
    + rewrite IH. destruct (String.eqb_spec k0 k') as [-> | Hk0'].
      * destruct (String.eqb_spec k k'); [congruence | reflexivity].
      * reflexivity.
Qed.

Lemma get_assign (k : string) (v : Value) (o : Object) (k' : string) :
  get (assign k v o) k'
  = if String.eqb k "__proto__" then get o k'
    else if String.eqb k k' then v else get o k'.
Proof.
  unfold assign. destruct (String.eqb k "__proto__"); [reflexivity |].
  apply get_put.
Qed.

Lemma agree_off_refl (k : string) (o : Object) : agree_off k o o.
Proof. intros k' _. reflexivity. Qed.

Lemma agree_off_assign (k x : string) (v : Value) (o1 o2 : Object) :
  agree_off k o1 o2 -> agree_off k (assign x v o1) (assign x v o2).
Proof.
  intros H k' Hk'. rewrite !get_assign, (H k' Hk'). reflexivity.
Qed.

Lemma agree_off_assign_left (k : string) (v : Value) (o1 o2 : Object) :
  agree_off k o1 o2 -> agree_off k (assign k v o1) o2.
Proof.
  intros H k' Hk'. rewrite get_assign, (H k' Hk').
  destruct (String.eqb_spec k k'); [congruence |].
  destruct (String.eqb k "__proto__"); reflexivity.
Qed.

Lemma agree_off_assign_if (k x : string) (v : Value) (o1 o2 : Object) :
  agree_off k o1 o2 -> agree_off k (assign_if x v o1) (assign_if x v o2).
Proof.
  intros H. unfold assign_if. destruct (truthy v); [| exact H].
  now apply agree_off_assign.
Qed.

(** The positional arguments are stored under names of their own. *)
Lemma agree_off_mapPositional (k command : string) (p : list string)
  (o1 o2 : Object) :
  agree_off k o1 o2 ->
  agree_off k (mapPositional command p o1) (mapPositional command p o2).
Proof.
  intros H. unfold mapPositional.
  repeat match goal with
         | |- context [if String.eqb command ?c then _ else _] =>
             destruct (String.eqb command c)
         | |- context [if (?a <? ?b)%nat then _ else _] =>
             destruct (a <? b)%nat
         end;
    repeat first [ exact H | apply agree_off_assign_if | apply agree_off_assign ].
Qed.

(** [main] reads none of the converted options. *)
Lemma main_switch_agree (k command : string) (o1 o2 : Object) :
  In k unread_options -> agree_off k o1 o2 ->
  main_switch command o1 = main_switch command o2.
Proof.
  intros Hk H.
  assert (Hget : forall x, (if existsb (String.eqb x) unread_options
                            then True else get o1 x = get o2 x)).
  { intros x. destruct (existsb (String.eqb x) unread_options) eqn:Hx;
      [exact I |].
    apply H. intros ->. apply Bool.not_true_iff_false in Hx. apply Hx.
    apply existsb_exists. exists k. split; [exact Hk | apply String.eqb_refl]. }
  unfold main_switch, browse_input, find_input, search_input, replace_input,
    create_input, backup_input, implement_input, refactor_input, api_input,
    app_input.
  repeat match goal with
         | |- context [get o1 ?x] => rewrite (Hget x : get o1 x = get o2 x)
         end.
  reflexivity.
Qed.

Section Scan.
Variable parseInt : string -> option Z.

Lemma scan_cons (arg : string) (rest : list string) (o : Object)
  (p : list string) :
  scan parseInt (arg :: rest) o p
  = if Js.startsWith arg "--" then
      match rest with
      | value :: rest' =>
          if is_value value
          then scan parseInt rest'
                 (assign (JsString.slice 2 arg)
                    (convert parseInt (JsString.slice 2 arg) value) o) p
          else scan parseInt rest
                 (assign (JsString.slice 2 arg) (VBool true) o) p
      | [] => scan parseInt rest (assign (JsString.slice 2 arg) (VBool true) o) p
      end
    else if Js.startsWith arg "-" then
      match rest with
      | value :: rest' =>
          if is_value value
          then scan parseInt rest'
                 (assign (JsString.slice 1 arg) (VStr value) o) p
          else scan parseInt rest
                 (assign (JsString.slice 1 arg) (VBool true) o) p
      | [] => scan parseInt rest (assign (JsString.slice 1 arg) (VBool true) o) p
      end
    else scan parseInt rest o (p ++ [arg])%list.
Proof. reflexivity. Qed.

(** Induction that follows the loops over the arguments: they go on
    behind the argument, or behind the argument and the next one. *)
Lemma scan_induction (P : list string -> Prop) :
  P [] ->
  (forall arg rest, P rest -> P (tl rest) -> P (arg :: rest)) ->
  forall args, P args.
Proof.
  intros H0 Hstep args.
  enough (H : P args /\ P (tl args)) by apply H.
  induction args as [| arg rest [IH1 IH2]]; cbn [tl]; auto.
Qed.

(** The loop never looks at the options it has stored. *)
Lemma scan_agree (k : string) (args : list string) :
  forall o1 o2 p,
    agree_off k o1 o2 ->
    snd (scan parseInt args o1 p) = snd (scan parseInt args o2 p)
    /\ agree_off k (fst (scan parseInt args o1 p))
         (fst (scan parseInt args o2 p)).
Proof.
  induction args as [| arg rest IH1 IH2] using scan_induction;
    intros o1 o2 p H.
  - split; [reflexivity | exact H].
  - rewrite !scan_cons.
    destruct (Js.startsWith arg "--"); [| destruct (Js.startsWith arg "-")].
    + destruct rest as [| value rest']; [| destruct (is_value value)];
        first [apply IH1 | apply IH2]; now apply agree_off_assign.
    + destruct rest as [| value rest']; [| destruct (is_value value)];
        first [apply IH1 | apply IH2]; now apply agree_off_assign.
    + now apply IH1.
Qed.

(** The loop can be cut in front of an argument no flag takes. *)
Lemma scan_split (pre : list string) :
  forall tail o p,
    blocks tail ->
    scan parseInt (pre ++ tail) o p
    = scan parseInt tail (fst (scan parseInt pre o p))
        (snd (scan parseInt pre o p)).
Proof.
  induction pre as [| arg rest IH1 IH2] using scan_induction;
    intros tail o p Hb.
  - reflexivity.
  - cbn [app]. rewrite !scan_cons.
    destruct (Js.startsWith arg "--"); [| destruct (Js.startsWith arg "-")].
    + destruct rest as [| value rest'].
      * cbn [app]. destruct tail as [| a t]; [reflexivity |].
        cbn in Hb. rewrite Hb. reflexivity.
      * cbn [app tl] in *. destruct (is_value value).
        -- now apply IH2.
        -- now apply (IH1 tail).
    + destruct rest as [| value rest'].
      * cbn [app]. destruct tail as [| a t]; [reflexivity |].
        cbn in Hb. rewrite Hb. reflexivity.
      * cbn [app tl] in *. destruct (is_value value).
        -- now apply IH2.
        -- now apply (IH1 tail).
    + now apply IH1.
Qed.

End Scan.

Lemma is_value_plain (s : string) :
  is_value s = true ->
  Js.nonempty s = true /\ Js.startsWith s "-" = false
  /\ Js.startsWith s "--" = false.
Proof.
  unfold is_value, Js.startsWith. intros H.
  apply andb_prop in H. destruct H as [Hne Hd].
  apply negb_true_iff in Hd. repeat split; try assumption.
  destruct s as [| c s']; [reflexivity |]. cbn -[ascii_dec] in *.
  destruct (ascii_dec "-" c); [| reflexivity].
  destruct s'; discriminate.
Qed.

Lemma flags_without_dash_at_even_positions (args : list string) :
  forall o, Forall no_dash (even_positions args) -> flags args o = o.
Proof.
  induction args as [| arg rest IH1 IH2] using scan_induction; intros o H.
  - reflexivity.
  - cbn [even_positions] in H. inversion H as [| ? ? Harg Hrest]; subst.
    cbn [flags]. unfold no_dash in Harg. rewrite Harg, andb_false_r.
    destruct rest as [| b rest']; [reflexivity |]. now apply IH2.
Qed.

Lemma executeDirectCommand_other_case (command : string) (options : Object) :
  JsString.toLowerCase command <> command ->
  executeDirectCommand command options = unknown_command command.
Proof.
  intros H. unfold executeDirectCommand.
  repeat match goal with
         | |- context [String.eqb command ?h] =>
             destruct (String.eqb_spec command h) as [-> | _];
             [exfalso; apply H; reflexivity |]
         end.
  reflexivity.
Qed.

End CliOptions.

(** X15.  The options [--file-types], [--exclude-dirs], [--max-depth],
    [--include-hidden], [--dry-run] and [--include-node-modules] change
    nothing of what [main] does: [parseArgs] stores them under their
    hyphenated names, and [main] reads none of these.  The option is
    given bare or with a value, and what follows it is the end of the
    arguments or an argument a flag cannot take as its value. *)
Theorem hyphenated_options_are_inert :
  forall (parseInt : string -> option Z) (command k : string)
         (pre given post : list string),
    In k unread_options ->
    given = [] \/ (exists v, given = [v] /\ Cli.is_value v = true) ->
    blocks post ->
    Cli.main parseInt (command :: pre ++ ("--" ++ k) :: given ++ post)
    = Cli.main parseInt (command :: pre ++ post).
Proof.
  intros parseInt command k pre given post Hk Hgiven Hpost.
  unfold Cli.main, Cli.parseArgs.
  assert (Hflag : Cli.is_value ("--" ++ k) = false) by reflexivity.
  rewrite (scan_split parseInt pre (("--" ++ k) :: given ++ post) [] [] Hflag).
  rewrite (scan_split parseInt pre post [] [] Hpost).
  destruct (Cli.scan parseInt pre [] []) as [o' p']. cbn [fst snd].
  assert (Hscan : exists v,
             Cli.scan parseInt (("--" ++ k) :: given ++ post) o' p'
             = Cli.scan parseInt post (Cli.assign k v o') p').
  { rewrite scan_cons.
    replace (Js.startsWith ("--" ++ k) "--") with true
      by (destruct k; reflexivity).
    change (JsString.slice 2 ("--" ++ k)) with k. cbv iota.
    destruct Hgiven as [-> | [v [-> Hv]]]; cbn [app].
    - exists (Cli.VBool true). destruct post as [| a t]; [reflexivity |].
      cbn in Hpost. rewrite Hpost. reflexivity.
    - rewrite Hv. eexists. reflexivity. }
  destruct Hscan as [v ->].
  pose proof (scan_agree parseInt k post (Cli.assign k v o') o' p'
                (agree_off_assign_left k v o' o' (agree_off_refl k o')))
    as [Hp Ho].
  destruct (Cli.scan parseInt post (Cli.assign k v o') p') as [o1 p1].
  destruct (Cli.scan parseInt post o' p') as [o2 p2].
  cbn [fst snd Cli.command Cli.options] in *. subst p2.
  apply (main_switch_agree k); [exact Hk |].
  now apply agree_off_mapPositional.
Qed.

(** The documented [replace old new --dry-run], and a list of file
    types in front of another flag. *)
Lemma hyphenated_options_are_inert_witness :
  Cli.main ToolExamples.no_number ["replace"; "old"; "new"; "--dry-run"]
  = Cli.main ToolExamples.no_number ["replace"; "old"; "new"]
  /\ Cli.main ToolExamples.no_number
       ["browse"; "--file-types"; ".js,.ts"; "--recursive"]
     = Cli.main ToolExamples.no_number ["browse"; "--recursive"].
Proof.
  split.
  - exact (hyphenated_options_are_inert ToolExamples.no_number "replace"
             "dry-run" ["old"; "new"] [] []
             ltac:(cbn; tauto) (or_introl eq_refl) I).
  - exact (hyphenated_options_are_inert ToolExamples.no_number "browse"
             "file-types" [] [".js,.ts"] ["--recursive"]
             ltac:(cbn; tauto)
             (or_intror (ex_intro _ ".js,.ts" (conj eq_refl eq_refl)))
             eq_refl).
Defined.

(** X16.  [replace <search> <replacement> --dry-run] on the command line
    is a real run: [main] calls [globalSearchReplace] with [dryRun]
    false, and for a literal search text over a tree that can be written
    every match of the report is replaced. *)
Theorem replace_with_dry_run_flag_rewrites :
  forall (parseInt : string -> option Z) (rx : Js.RegExpHost)
         (s rep : string) (root : Fs.Node),
    Cli.is_value s = true ->
    Cli.is_value rep = true ->
    Js.literal_source s = true ->
    Js.plain_replacement rep = true ->
    all_writable root ->
    option_map fst
      (Cli.run_replace rx
         (Cli.main parseInt ["replace"; s; rep; "--dry-run"]) root)
    = Some (Js.Resolved
              (replaced_all
                 (Claimed.match_report s Cli.replace_fileTypes_default
                    Cli.excludeDirs_default root []))).
Proof.
  intros parseInt rx s rep root Hs Hrep Hlit Hplain Hall.
  destruct (is_value_plain s Hs) as [Hsne [Hs1 Hs2]].
  destruct (is_value_plain rep Hrep) as [Hrne [Hr1 Hr2]].
  unfold Cli.main, Cli.parseArgs.
  rewrite !scan_cons. rewrite ?Hs1, ?Hs2, ?Hr1, ?Hr2, ?Hrep.
  change (Js.startsWith "--dry-run" "--") with true. cbv iota.
  cbn [Cli.command Cli.options Cli.mapPositional String.eqb Ascii.eqb Bool.eqb
         Cli.at_index nth_error Cli.assign_if Cli.truthy Cli.scan app
         JsString.slice Cli.assign Cli.put].
  unfold Cli.assign_if. cbn [Cli.truthy]. rewrite Hsne, Hrne.
  unfold Cli.main_switch.
  cbn [String.eqb Ascii.eqb Bool.eqb Cli.assign Cli.put Cli.get Cli.truthy].
  rewrite Hsne.
  cbn [Cli.run_replace String.eqb Ascii.eqb Bool.eqb Cli.as_replace_input
         Cli.replace_input Cli.get Cli.or_else Cli.truthy Cli.as_string
         Cli.as_list Cli.as_bool option_map].
  f_equal.
  now apply globalSearchReplace_real_run.
Qed.

(** Replacing [a] by [b] in the project, with the flag. *)
Lemma replace_with_dry_run_flag_rewrites_witness :
  option_map fst
    (Cli.run_replace Examples.rx_unused
       (Cli.main ToolExamples.no_number ["replace"; "a"; "b"; "--dry-run"])
       Examples.project)
  = Some (Js.Resolved
            (replaced_all
               [(["src"; "main.js"], 3%Z); (["src"; "lib"; "util.js"], 3%Z);
                (["notes.md"], 2%Z)])).
Proof.
  exact (replace_with_dry_run_flag_rewrites ToolExamples.no_number
           Examples.rx_unused "a" "b" Examples.project eq_refl eq_refl eq_refl
           eq_refl ltac:(cbn; repeat split; reflexivity)).
Defined.

(** X17.  In the interactive mode the loop of [handleDirectCommand]
    looks for flags at the positions 0, 2, 4, ... of the arguments (and
    one further after a flag that took a value): when no argument at an
    even position starts with a dash, no flag is stored, and the command
    runs with the positional arguments only. *)
Theorem direct_flags_at_odd_positions_are_lost :
  forall message : string,
    let parts := Js.split (JsString.trim message) " " in
    Forall no_dash (even_positions (tl parts)) ->
    Cli.handleDirectCommand message
    = Cli.executeDirectCommand (hd EmptyString parts)
        (Cli.mapDirect (hd EmptyString parts) (tl parts) []).
Proof.
  intros message parts H. unfold Cli.handleDirectCommand. fold parts.
  now rewrite flags_without_dash_at_even_positions.
Qed.

(** [browse src --recursive] browses [src] without recursion. *)
Lemma direct_flags_at_odd_positions_are_lost_witness :
  Cli.handleDirectCommand "browse src --recursive"
  = Cli.Call "browseDirectory" (Cli.browse_input [("path", Cli.VStr "src")]).
Proof.
  exact (direct_flags_at_odd_positions_are_lost "browse src --recursive"
           ltac:(repeat constructor)).
Defined.

(** X18.  A word that [isDirectCommand] accepts ends in the unknown
    command message of [executeDirectCommand] exactly when it is not
    written in lower case or is [config]: the test ignores the case and
    lists [config], the [switch] does neither. *)
Theorem direct_command_unknown_iff :
  forall (command : string) (options : Cli.Object),
    Cli.isDirectCommand command = true ->
    (Cli.executeDirectCommand command options = Cli.unknown_command command
     <-> (JsString.toLowerCase command <> command \/ command = "config")).
Proof.
  intros command options Hdirect.
  destruct (string_dec (JsString.toLowerCase command) command) as [Hlow | Hlow].
  - unfold Cli.isDirectCommand in Hdirect. rewrite Hlow in Hdirect.
    unfold Js.arr_includes in Hdirect. apply existsb_exists in Hdirect.
    destruct Hdirect as [name [Hin Heq]]. apply String.eqb_eq in Heq.
    subst name. clear Hlow.
    cbn [In Cli.directCommands] in Hin.
    repeat (destruct Hin as [<- | Hin]);
      try (split;
           [ unfold Cli.executeDirectCommand;
             cbn [String.eqb Ascii.eqb Bool.eqb];
             try destruct (Cli.truthy _); discriminate
           | intros [H | H]; [exfalso; apply H; reflexivity | discriminate] ]).
    + split; [intros _; right; reflexivity | reflexivity].
    + contradiction.
  - split; [intros _; left; exact Hlow |].
    intros _. now apply executeDirectCommand_other_case.
Qed.

(** [Browse src] is taken as a direct command and then not known. *)
Lemma direct_command_unknown_iff_witness :
  Cli.isDirectCommand "Browse" = true
  /\ Cli.executeDirectCommand "Browse" [("path", Cli.VStr "src")]
     = Cli.unknown_command "Browse".
Proof.
  split; [reflexivity |].
  apply (proj2 (direct_command_unknown_iff "Browse" [("path", Cli.VStr "src")]
                  eq_refl)).
  left. discriminate.
Defined.

(** X19.  The argument after one of the flags [--include-hidden],
    [--recursive], [--dry-run], [--include-node-modules] is taken as the
    value of the flag and dropped: [parseArgs] gives the same command,
    options and positional arguments as without it. *)
Theorem value_after_boolean_flag_is_dropped :
  forall (parseInt : string -> option Z) (command k v : string)
         (pre post : list string),
    In k boolean_options ->
    Cli.is_value v = true ->
    blocks post ->
    Cli.parseArgs parseInt (command :: pre ++ ("--" ++ k) :: v :: post)
    = Cli.parseArgs parseInt (command :: pre ++ ("--" ++ k) :: post).
Proof.
  intros parseInt command k v pre post Hk Hv Hpost.
  unfold Cli.parseArgs.
  assert (Hflag : Cli.is_value ("--" ++ k) = false) by reflexivity.
  rewrite (scan_split parseInt pre (("--" ++ k) :: v :: post) [] [] Hflag).
  rewrite (scan_split parseInt pre (("--" ++ k) :: post) [] [] Hflag).
  destruct (Cli.scan parseInt pre [] []) as [o' p']. cbn [fst snd].
  rewrite !scan_cons.
  replace (Js.startsWith ("--" ++ k) "--") with true
    by (destruct k; reflexivity).
  change (JsString.slice 2 ("--" ++ k)) with k. cbv iota. rewrite Hv.
  assert (Hconv : Cli.convert parseInt k v = Cli.VBool true).
  { cbn [In boolean_options] in Hk.
    repeat (destruct Hk as [<- | Hk]); try reflexivity. contradiction. }
  rewrite Hconv.
  destruct post as [| a t]; [reflexivity |].
  cbn in Hpost. rewrite Hpost. reflexivity.
Qed.

(** [browse --recursive src] browses the current directory. *)
Lemma value_after_boolean_flag_is_dropped_witness :
  Cli.parseArgs ToolExamples.no_number ["browse"; "--recursive"; "src"]
  = {| Cli.command := "browse";
       Cli.options := [("recursive", Cli.VBool true)];
       Cli.positionalArgs := Some [] |}.
Proof.
  exact (value_after_boolean_flag_is_dropped ToolExamples.no_number
           "browse" "recursive" "src" [] [] ltac:(cbn; tauto) eq_refl I).
Defined.

(* ================================================================== *)
(** * Properties of [searchInFiles] *)
(* ================================================================== *)

Section SearchSound.
Import Search.

Variable pattern : string.
Variable fileExtension : option string.

(** What [each_line] adds for one file. *)
Lemma each_line_sound (fullPath : RelPath) (lines : list string) :
  forall (index : nat) (results : list Match) (m : Match),
    In m (each_line pattern fullPath index lines results) ->
    In m results
    \/ (file m = fullPath
        /\ (index + 1 <= line m)%nat
        /\ exists line_text,
             nth_error lines (line m - 1 - index) = Some line_text
             /\ Js.includes line_text pattern = true
             /\ content m = JsString.trim line_text).
Proof.
  induction lines as [| text rest IH]; intros index results m Hin.
  - left. exact Hin.
  - cbn [each_line] in Hin. apply IH in Hin.
    destruct Hin as [Hin | [Hfile [Hline [ln [Hnth Hrest]]]]].
    + destruct (Js.includes text pattern) eqn:Hinc; [| now left].
      apply in_app_or in Hin. destruct Hin as [Hin | [<- | []]]; [now left |].
      right. cbn [file line content]. split; [reflexivity |].
      split; [lia |]. exists text.
      replace (index + 1 - 1 - index)%nat with 0%nat by lia.
      repeat split; [exact Hinc].
    + right. split; [exact Hfile |]. split; [lia |]. exists ln.
      replace (line m - 1 - index)%nat with (S (line m - 1 - S index)) by lia.
      split; [exact Hnth | exact Hrest].
Qed.

Lemma entry_quotes_lift (entries : list (string * Fs.Node)) (here : RelPath)
  (entry_name : string) (entry : Fs.Node) (m : Match) :
  In (entry_name, entry) entries ->
  entry_quotes pattern fileExtension here entry_name entry m ->
  quotes_a_line pattern fileExtension (Fs.Dir entries) here m.
Proof.
  intros Hin H. destruct entry as [sub | | l0]; cbn [entry_quotes] in H.
  - destruct H as [Hs (p & l & text & ln & Hfile & Hat & Hrest)].
    exists (entry_name :: p), l, text, ln.
    split; [now rewrite Hfile, <- app_assoc |].
    split; [now apply at_entry with (entry := Fs.Dir sub) |].
    destruct p as [| x p']; [inversion Hat |].
    cbn [removelast last forallb] in *. rewrite Hs. exact Hrest.
  - destruct H as [Hs (p & l & text & ln & Hfile & Hat & Hrest)].
    inversion Hat.
  - destruct H as [(p & l & text & ln & Hfile & Hat & Hrest) Hname].
    exists p, l, text, ln. split; [exact Hfile |].
    split; [| exact Hrest].
    inversion Hat as [| es name e p' n Hin' Hat']; subst.
    destruct Hin' as [Heq | []]. inversion Heq; subst.
    now apply at_entry with (entry := Fs.File l0).
Qed.

(** Every match a walk adds quotes a line of the tree walked. *)
Lemma searchDir_sound (node : Fs.Node) :
  forall (here : RelPath) (results r : list Match),
    searchDir pattern fileExtension node here results = Done r ->
    forall m, In m r ->
              In m results
              \/ quotes_a_line pattern fileExtension node here m.
Proof.
  induction node as [ | l | entries IH] using Fs.Node_deep_ind;
    intros here results r Hrun; try discriminate.
  cbn [searchDir] in Hrun.
  assert (Hloop : forall m, In m r ->
            In m results
            \/ exists entry_name entry,
                 In (entry_name, entry) entries
                 /\ entry_quotes pattern fileExtension here entry_name entry m).
  { revert results r Hrun.
    induction IH as [| [entry_name entry] rest Hentry _ IHrest];
      intros results r Hrun m Hm.
    - injection Hrun as <-. now left.
    - cbn [snd] in Hentry.
      assert (Hlater : forall results',
                 (forall m, In m results' ->
                    In m results
                    \/ entry_quotes pattern fileExtension here entry_name
                         entry m) ->
                 forall r', In m r' ->
                   (In m results'
                    \/ exists entry_name entry,
                         In (entry_name, entry) rest
                         /\ entry_quotes pattern fileExtension here entry_name
                              entry m) ->
                   In m results
                   \/ exists entry_name0 entry0,
                        In (entry_name0, entry0) ((entry_name, entry) :: rest)
                        /\ entry_quotes pattern fileExtension here entry_name0
                             entry0 m).
      { intros results' Hnew r' _ [Hin | (n0 & e0 & Hin & Hq)].
        - destruct (Hnew m Hin) as [H | H]; [now left |].
          right. exists entry_name, entry. split; [now left | exact H].
        - right. exists n0, e0. split; [now right | exact Hq]. }
      destruct entry as [sub | | l].
      + destruct (searched entry_name) eqn:Hs.
        * destruct (searchDir pattern fileExtension (Fs.Dir sub)
                      (here ++ [entry_name])%list results) as [q | r1] eqn:Hsub;
            [discriminate |].
          apply (Hlater r1) with (r' := r); [| exact Hm |].
          -- intros m' Hm'. destruct (Hentry _ _ _ Hsub m' Hm') as [H | H];
               [now left | right; split; [exact Hs | exact H]].
          -- now apply (IHrest r1 r).
        * apply (Hlater results) with (r' := r); [now left | exact Hm |].
          now apply (IHrest results r).
      + destruct (searched entry_name) eqn:Hs; [discriminate |].
        apply (Hlater results) with (r' := r); [now left | exact Hm |].
        now apply (IHrest results r).
      + destruct (Fs.leaf_isFile l) eqn:Hfile;
          [destruct (wanted fileExtension entry_name) eqn:Hw;
           [destruct (Fs.leaf_content l) as [text |] eqn:Htext |] |];
          try (apply (Hlater results) with (r' := r);
               [now left | exact Hm | now apply (IHrest results r)]).
        apply (Hlater (each_line pattern (here ++ [entry_name])%list 0
                         (Js.split text Js.nl) results)) with (r' := r);
          [| exact Hm | now apply (IHrest _ r)].
        intros m' Hm'. apply each_line_sound in Hm'.
        destruct Hm' as [H | (Hf & Hl & ln & Hnth & Hinc & Hc)]; [now left |].
        right. cbn [entry_quotes]. split; [| exact Hf].
        exists [entry_name], l, text, ln.
        split; [exact Hf |].
        split; [apply at_entry with (entry := Fs.File l);
                [now left | apply at_here] |].
        rewrite Nat.sub_0_r in Hnth.
        repeat split; try assumption; lia. }
  intros m Hm. destruct (Hloop m Hm) as [H | (n0 & e0 & Hin & Hq)];
    [now left | right].
  now apply entry_quotes_lift with (entry_name := n0) (entry := e0).
Qed.

Lemma unreadable_below (entries : list (string * Fs.Node)) :
  unreadable_on_the_way (Fs.Dir entries)
  <-> exists entry_name entry,
        In (entry_name, entry) entries
        /\ Fs.isDirectory entry = true
        /\ searched entry_name = true
        /\ unreadable_on_the_way entry.
Proof.
  split.
  - intros (p & Hat & Hp).
    inversion Hat as [| es entry_name entry p' n Hin Hat']; subst.
    cbn [forallb] in Hp. apply andb_prop in Hp. destruct Hp as [Hs Hp'].
    exists entry_name, entry. repeat split; try assumption.
    + destruct entry; try reflexivity. inversion Hat'.
    + exists p'. split; assumption.
  - intros (entry_name & entry & Hin & _ & Hs & p & Hat & Hp).
    exists (entry_name :: p). split.
    + now apply at_entry with (entry := entry).
    + cbn [forallb]. now rewrite Hs, Hp.
Qed.

(** A walk fails exactly when it enters a directory it cannot read,
    whatever was found before. *)
Lemma searchDir_fails (node : Fs.Node) :
  forall (here : RelPath) (results : list Match),
    Fs.isDirectory node = true ->
    ((exists q, searchDir pattern fileExtension node here results = Failed q)
     <-> unreadable_on_the_way node).
Proof.
  induction node as [ | l | entries IH] using Fs.Node_deep_ind;
    intros here results Hdir; try discriminate.
  - split; [| intros _; now exists here].
    intros _. exists []. split; [apply at_here | reflexivity].
  - rewrite unreadable_below. cbn [searchDir]. clear Hdir. revert results.
    induction IH as [| [entry_name entry] rest Hentry _ IHrest];
      intros results.
    + split; [intros [q Hq]; discriminate | intros (n & e & [] & _)].
    + cbn [snd] in Hentry.
      assert (Hskip : forall results',
                 ~ (Fs.isDirectory entry = true /\ searched entry_name = true
                    /\ unreadable_on_the_way entry) ->
                 ((exists q,
                      (fix each (entries : list (string * Fs.Node))
                         (results : list Match) {struct entries} : Walk :=
                         match entries with
                         | [] => Done results
                         | (entry_name, entry) :: rest =>
                             let fullPath := (here ++ [entry_name])%list in
                             match entry with
                             | Fs.File l =>
                                 if Fs.leaf_isFile l then
                                   if wanted fileExtension entry_name then
                                     match Fs.leaf_content l with
                                     | Some text =>
                                         each rest
                                           (each_line pattern fullPath 0
                                              (Js.split text Js.nl) results)
                                     | None => each rest results
                                     end
                                   else each rest results
                                 else each rest results
                             | _ =>
                                 if searched entry_name then
                                   match
                                     searchDir pattern fileExtension entry
                                       fullPath results
                                   with
                                   | Failed p => Failed p
                                   | Done results => each rest results
                                   end
                                 else each rest results
                             end
                         end) rest results' = Failed q)
                  <-> exists entry_name0 entry0,
                        In (entry_name0, entry0) ((entry_name, entry) :: rest)
                        /\ Fs.isDirectory entry0 = true
                        /\ searched entry_name0 = true
                        /\ unreadable_on_the_way entry0)).
      { intros results' Hnot. rewrite (IHrest results'). split.
        - intros (n & e & Hin & H). exists n, e. split; [now right | exact H].
        - intros (n & e & [Heq | Hin] & H).
          + inversion Heq; subst. contradiction.
          + exists n, e. split; assumption. }
      destruct entry as [sub | | l].
      * destruct (searched entry_name) eqn:Hs.
        -- specialize (Hentry (here ++ [entry_name])%list results eq_refl).
           destruct (searchDir pattern fileExtension (Fs.Dir sub)
                       (here ++ [entry_name])%list results) as [q | r1].
           ++ split; [| intros _; now exists q].
              intros _. exists entry_name, (Fs.Dir sub).
              split; [now left |]. repeat split; try assumption.
              apply Hentry. now exists q.
           ++ apply Hskip. intros (_ & _ & Hu). apply Hentry in Hu.
              destruct Hu as [q Hq]. discriminate.
        -- apply Hskip. intros (_ & H & _). discriminate.
      * destruct (searched entry_name) eqn:Hs.
        -- split; [| intros _; now exists (here ++ [entry_name])%list].
           intros _. exists entry_name, Fs.DirUnreadable.
           split; [now left |]. repeat split; try assumption.
           exists []. split; [apply at_here | reflexivity].
        -- apply Hskip. intros (_ & H & _). discriminate.
      * destruct (Fs.leaf_isFile l);
          [destruct (wanted fileExtension entry_name);
           [destruct (Fs.leaf_content l) |] |];
          apply Hskip; intros (H & _); discriminate.
Qed.

End SearchSound.

(** X20.  Every match [searchInFiles] reports quotes a line of the tree:
    its path leads to a readable regular file whose name has the wanted
    ending, through directories that are neither hidden nor
    [node_modules]; the line with the reported number holds the pattern,
    and the reported text is that line trimmed. *)
Theorem search_matches_quote_lines :
  forall (readdir_message : RelPath -> string) (input : Search.Input)
         (root : Fs.Node) (results : list Search.Match),
    Search.searchInFiles readdir_message input root = Js.Resolved results ->
    exists p,
      Search.pattern input = Some p
      /\ Forall (quotes_a_line p (Search.fileExtension input) root []) results.
Proof.
  intros readdir_message input root results Hrun.
  unfold Search.searchInFiles in Hrun.
  destruct (Search.pattern input) as [p |]; [| discriminate].
  destruct (Js.nonempty p); [| discriminate].
  destruct (Search.searchDir p (Search.fileExtension input) root [] [])
    as [q | r] eqn:Hwalk; [discriminate |].
  injection Hrun as <-. exists p. split; [reflexivity |].
  apply Forall_forall. intros m Hm.
  destruct (searchDir_sound p (Search.fileExtension input) root [] [] r Hwalk
              m Hm) as [[] | H].
  exact H.
Qed.

(** The two lines with an [a] in the sources of the project. *)
Lemma search_matches_quote_lines_witness :
  exists p,
    Search.pattern ToolExamples.a_in_js = Some p
    /\ Forall
         (quotes_a_line p (Search.fileExtension ToolExamples.a_in_js)
            Examples.project [])
         [{| Search.file := ["src"; "main.js"]; Search.line := 1;
             Search.content := "aaa" |};
          {| Search.file := ["src"; "lib"; "util.js"]; Search.line := 1;
             Search.content := "banana" |}].
Proof.
  exact (search_matches_quote_lines ToolExamples.permission_denied
           ToolExamples.a_in_js Examples.project _ eq_refl).
Defined.

(** X21.  With a pattern given and a directory to start from,
    [searchInFiles] fails exactly when a directory the walk enters
    cannot be read: the root, or one reached through directories that
    are neither hidden nor [node_modules].  The matches found before are
    then lost. *)
Theorem search_fails_iff_unreadable_directory :
  forall (readdir_message : RelPath -> string) (p : string)
         (directory fileExtension : option string) (root : Fs.Node),
    Js.nonempty p = true ->
    Fs.isDirectory root = true ->
    ((exists e,
         Search.searchInFiles readdir_message
           {| Search.pattern := Some p; Search.directory := directory;
              Search.fileExtension := fileExtension |} root
         = Js.Rejected e)
     <-> unreadable_on_the_way root).
Proof.
  intros readdir_message p directory fileExtension root Hne Hdir.
  rewrite <- (searchDir_fails p fileExtension root [] [] Hdir).
  unfold Search.searchInFiles.
  cbn [Search.pattern Search.fileExtension]. rewrite Hne.
  destruct (Search.searchDir p fileExtension root [] []) as [q | r].
  - split; intros _; eexists; reflexivity.
  - split; intros [x Hx]; discriminate.
Qed.

(** The unreadable directory [private] makes the search fail; the
    unreadable [.git] alone would not. *)
Lemma search_fails_iff_unreadable_directory_witness :
  exists e,
    Search.searchInFiles ToolExamples.permission_denied ToolExamples.a_in_js
      ToolExamples.locked_project
    = Js.Rejected e.
Proof.
  apply (proj2 (search_fails_iff_unreadable_directory
                  ToolExamples.permission_denied "a" None (Some ".js")
                  ToolExamples.locked_project eq_refl eq_refl)).
  exists ["private"]. split; [| reflexivity].
  apply at_entry with (entry := Fs.DirUnreadable); [| apply at_here].
  right. right. left. reflexivity.
Defined.
